(** * Synesthesia: session orchestration and generation pipelines

    A shallow embedding of the TypeScript sources of the Synesthesia
    browser application: the generation facade ([geminiService]), the
    audio input guards ([AudioInput]), the single-image session
    ([CreatorStudio]), the storyboard pipeline ([VisualStoryboard]) and
    the live capture pipeline ([LiveSynesthesia]).

    Asynchronous functions are embedded as resumptions ([Async]): a script
    of component-state updates separated by awaited calls, whose
    outcomes are chosen by the environment. *)

From Stdlib Require Import String Ascii NArith ZArith QArith Qabs Qround Lqa DecimalString.
From stdpp Require Import base tactics option list.

Local Open Scope N_scope.
Local Open Scope list_scope.

(** ** JavaScript values *)

Module JS.

(** A JavaScript string is a sequence of UTF-16 code units. *)
Definition jsstring : Type := list N.

(** String literals of the sources (all of them are ASCII). *)
Definition lit (s : string) : jsstring :=
  List.map N_of_ascii (list_ascii_of_string s).

(** The double-quote character, for literals that contain it. *)
Definition dquote : jsstring := [34].

(** ECMAScript [WhiteSpace] and [LineTerminator] code points, the
    characters removed by [String.prototype.trim]. *)
Definition isWhiteSpace (c : N) : bool :=
  (c =? 9) || (c =? 10) || (c =? 11) || (c =? 12) || (c =? 13) ||
  (c =? 32) || (c =? 160) || (c =? 5760) ||
  ((8192 <=? c) && (c <=? 8202)) ||
  (c =? 8232) || (c =? 8233) || (c =? 8239) || (c =? 8287) ||
  (c =? 12288) || (c =? 65279).

Fixpoint trimStart (s : jsstring) : jsstring :=
  match s with
  | c :: s' => if isWhiteSpace c then trimStart s' else s
  | [] => []
  end.

Definition trimEnd (s : jsstring) : jsstring := rev (trimStart (rev s)).

(** [s.trim()] *)
Definition trim (s : jsstring) : jsstring := trimEnd (trimStart s).

(** Truthiness of a string: the empty string is falsy. *)
Definition truthy (s : jsstring) : bool :=
  match s with [] => false | _ :: _ => true end.

(** [String(n)] for a non-negative integer. *)
Definition ofN (n : N) : jsstring := lit (NilEmpty.string_of_uint (N.to_uint n)).

(** [String(z)] for an integer, and for an integer-or-NaN ([None] is
    NaN, the result of [parseInt] on an empty field).  Every digit is
    printed, as [String] does below [1e21]; from there on it switches
    to the exponent notation, which is not modelled. *)
Definition ofZ (z : Z) : jsstring :=
  if (z <? 0)%Z then lit "-" ++ ofN (Z.abs_N z) else ofN (Z.to_N z).

Definition ofInt (x : option Z) : jsstring :=
  match x with Some z => ofZ z | None => lit "NaN" end.

(** [s.padStart(len, c)] for a one-character filler. *)
Definition padStart (len : nat) (c : N) (s : jsstring) : jsstring :=
  replicate (len - length s) c ++ s.

(** [(bytes / 1024 / 1024).toFixed(2)]: the two divisions by a power of
    two are exact on doubles, and [toFixed] picks the integer [n] with
    [n / 100] nearest to the value, the larger one on a tie. *)
Definition hundredthsOfMB (bytes : N) : N := (200 * bytes + 1048576) / 2097152.

Definition toFixed2MB (bytes : N) : jsstring :=
  let n := hundredthsOfMB bytes in
  ofN (n / 100) ++ lit "." ++ padStart 2 48 (ofN (n mod 100)).

(** JavaScript numbers that the components compare: a finite value, an
    infinity or NaN.  Doubles are rationals, so a finite value is a [Q]. *)
Inductive number : Type :=
| Finite (q : Q)
| PosInfinity
| NegInfinity
| NaN.

(** [x >= k] and [x > k] against an integer constant. *)
Definition geZ (x : number) (k : Z) : bool :=
  match x with
  | Finite q => Qle_bool (inject_Z k) q
  | PosInfinity => true
  | NegInfinity | NaN => false
  end.

Definition gtZ (x : number) (k : Z) : bool :=
  match x with
  | Finite q => negb (Qle_bool q (inject_Z k))
  | PosInfinity => true
  | NegInfinity | NaN => false
  end.

(** Values that can be thrown or used to reject a promise. *)
Inductive thrown : Type :=
| ErrorObject (message : jsstring)   (* [new Error(message)] *)
| StringValue (s : jsstring)         (* [reject('...')] *)
| EventObject.                       (* a DOM event, e.g. from [FileReader.onerror] *)

(** [err.message || fallback] *)
Definition messageOr (err : thrown) (fallback : jsstring) : jsstring :=
  match err with
  | ErrorObject m => if truthy m then m else fallback
  | StringValue _ | EventObject => fallback
  end.

End JS.
Import JS.

(** ** constants.ts and types.ts *)

Definition MAX_FILE_SIZE : N := 20 * 1024 * 1024.
Definition MAX_FILE_SIZE_MB : N := 20.

Inductive FilterType : Type :=
| unspecified
| photorealistic
| Anime
| cartoon
| ink_sketch
| black_and_white
| color_pop
| water_color
| raphaelite_oil_painting
| dark_fantasy
| game_art
| comic_cover
| raphaelite_digital_art.

(** The string value of a filter tag, as listed in [FILTERS]. *)
Definition filterTag (f : FilterType) : jsstring :=
  match f with
  | unspecified => lit "unspecified"
  | photorealistic => lit "photorealistic"
  | Anime => lit "Anime"
  | cartoon => lit "cartoon"
  | ink_sketch => lit "ink sketch"
  | black_and_white => lit "black & white"
  | color_pop => lit "color pop"
  | water_color => lit "water color"
  | raphaelite_oil_painting => lit "raphaelite oil painting"
  | dark_fantasy => lit "dark fantasy"
  | game_art => lit "game art"
  | comic_cover => lit "comic cover"
  | raphaelite_digital_art => lit "raphaelite-digital-art"
  end.

Definition FILTERS : list FilterType :=
  [unspecified; photorealistic; Anime; cartoon; ink_sketch; black_and_white;
   color_pop; water_color; raphaelite_oil_painting; dark_fantasy; game_art;
   comic_cover; raphaelite_digital_art].

Definition isUnspecified (f : FilterType) : bool :=
  match f with unspecified => true | _ => false end.

Record ImageData : Type := {
  id : N;
  base64 : jsstring;
  prompt : jsstring
}.

(** ** Blobs and files

    A component never inspects the bytes of a [Blob]; it reads its size
    and type, slices it, concatenates it and hands it to a reader.  A blob
    is therefore represented by the way it was obtained. *)

Record File : Type := {
  name : jsstring;
  fileSize : N;
  fileType : jsstring
}.

#[warnings="-register-all"]
Inductive Blob : Type :=
| FileBlob (file : File)
    (* a [File] picked by the user or produced by a recorder *)
| RecordedChunk (timecode : N) (bytes : N) (mime : jsstring)
    (* the [data] of one [dataavailable] event *)
| Slice (whole : Blob) (start stop : N) (mime : jsstring)
    (* [whole.slice(start, stop, mime)] *)
| NewBlob (parts : list Blob) (mime : jsstring).
    (* [new Blob(parts, { type: mime })] *)

(** [blob.size] *)
Fixpoint size (b : Blob) : N :=
  match b with
  | FileBlob f => fileSize f
  | RecordedChunk _ n _ => n
  | Slice whole start stop _ =>
      let sz := size whole in N.min stop sz - N.min start sz
  | NewBlob parts _ => foldr (fun p acc => size p + acc) 0 parts
  end.

(** [blob.type] *)
Definition type (b : Blob) : jsstring :=
  match b with
  | FileBlob f => fileType f
  | RecordedChunk _ _ mime | Slice _ _ _ mime | NewBlob _ mime => mime
  end.

(** The structured context of a live capture session. *)
Record Context : Type := {
  location : jsstring;
  areaType : jsstring;
  timeOfDay : jsstring;
  activity : jsstring;
  gender : jsstring;
  age : jsstring
}.

(** ** Awaited calls

    The asynchronous operations the components await: the exported
    functions of [geminiService], the audio metadata probe and the
    microphone request. *)

Inductive Call : Type :=
| fileToBase64 (file : Blob)
| getAudioDuration (file : Blob)
| getUserMedia
| generatePromptFromMusic (audioBase64 mimeType context : jsstring)
| transcribeAudioToPrompt (audioBase64 mimeType context : jsstring)
| generateLivePrompt (audioBase64 mimeType : jsstring) (context : Context)
| generateSummaryMarkdown (prompts : list jsstring) (context : Context)
| generateImage (prompt : jsstring) (filter : FilterType)
| editImage (imageBase64 imageMimeType prompt : jsstring) (filter : FilterType)
            (remixImage : option (jsstring * jsstring))
| generatePromptFromAudioSegment (audioBase64 mimeType : jsstring)
                                 (segmentNumber totalSegments : N)
| generateStorySummaryFromAudio (audioBase64 mimeType : jsstring).

(** The type a call's promise resolves to. *)
Definition retType (c : Call) : Type :=
  match c with
  | getAudioDuration _ => number
  | getUserMedia => unit
  | _ => jsstring
  end.

(** Calls that send a request to the generative service; the others read
    local data or devices. *)
Definition isNetworkCall (c : Call) : bool :=
  match c with
  | fileToBase64 _ | getAudioDuration _ | getUserMedia => false
  | _ => true
  end.

Inductive Result (T : Type) : Type :=
| Resolved (v : T)
| Rejected (e : thrown).
Arguments Resolved {T} v.
Arguments Rejected {T} e.

(** ** Asynchronous functions as resumptions

    [Async St R] is the body of an [async] function over component state
    [St]: it returns, throws, updates the state (a setter or a ref
    assignment), reads the clock ([Date.now()]) or awaits a call. *)

Inductive Async (St R : Type) : Type :=
| Return (r : R)
| Throw (e : thrown)
| Update (f : St -> St) (k : Async St R)
| Now (k : N -> Async St R)
| Await (c : Call) (k : Result (retType c) -> Async St R).
Arguments Return {St R} r.
Arguments Throw {St R} e.
Arguments Update {St R} f k.
Arguments Now {St R} k.
Arguments Await {St R} c k.

Fixpoint bind {St A B} (m : Async St A) (f : A -> Async St B) : Async St B :=
  match m with
  | Return r => f r
  | Throw e => Throw e
  | Update g k => Update g (bind k f)
  | Now k => Now (fun t => bind (k t) f)
  | Await c k => Await c (fun r => bind (k r) f)
  end.

(** [try { m } catch (err) { h err }] *)
Fixpoint tryCatch {St A} (m : Async St A) (h : thrown -> Async St A) : Async St A :=
  match m with
  | Return r => Return r
  | Throw e => h e
  | Update g k => Update g (tryCatch k h)
  | Now k => Now (fun t => tryCatch (k t) h)
  | Await c k => Await c (fun r => tryCatch (k r) h)
  end.

(** [try { m } finally { fin }] *)
Fixpoint tryFinally {St A} (m : Async St A) (fin : Async St unit) : Async St A :=
  match m with
  | Return r => bind fin (fun _ => Return r)
  | Throw e => bind fin (fun _ => Throw e)
  | Update g k => Update g (tryFinally k fin)
  | Now k => Now (fun t => tryFinally (k t) fin)
  | Await c k => Await c (fun r => tryFinally (k r) fin)
  end.

(** [await c]: a rejection is thrown at the await. *)
Definition await {St} (c : Call) : Async St (retType c) :=
  Await c (fun r => match r with Resolved v => Return v | Rejected e => Throw e end).

(** A state update followed by nothing. *)
Definition set {St} (f : St -> St) : Async St unit := Update f (Return tt).

Declare Scope async_scope.
Delimit Scope async_scope with async.
Notation "x <- m ;; k" := (bind m (fun x => k))
  (at level 100, m at next level, right associativity) : async_scope.
Notation "m ;; k" := (bind m (fun _ => k))
  (at level 100, right associativity) : async_scope.
Local Open Scope async_scope.

(** [Date.now()] *)
Definition now {St} : Async St N := Now Return.

(** *** Running a resumption to completion

    When nothing else interleaves, the environment is an oracle that picks
    the outcome of the [n]-th awaited call and the clock value seen after
    [n] calls have settled. *)

Record Oracle : Type := {
  respond : nat -> forall c : Call, Result (retType c);
  clock : nat -> N
}.

Fixpoint exec {St R} (o : Oracle) (m : Async St R) (n : nat) (s : St)
  : St * Result R * list Call :=
  match m with
  | Return r => (s, Resolved r, [])
  | Throw e => (s, Rejected e, [])
  | Update f k => exec o k n (f s)
  | Now k => exec o (k (clock o n)) n s
  | Await c k =>
      let '(s', r, calls) := exec o (k (respond o n c)) (S n) s in
      (s', r, c :: calls)
  end.

Definition finalState {St R} (x : St * Result R * list Call) : St := fst (fst x).
Definition completion {St R} (x : St * Result R * list Call) : Result R := snd (fst x).
Definition callsIssued {St R} (x : St * Result R * list Call) : list Call := snd x.

(** *** Running a resumption up to its next await *)

Inductive Paused (St R : Type) : Type :=
| Finished (r : Result R)
| Waiting (c : Call) (k : Result (retType c) -> Async St R).
Arguments Finished {St R} r.
Arguments Waiting {St R} c k.

Fixpoint advance {St R} (now : N) (m : Async St R) (s : St) : St * Paused St R :=
  match m with
  | Return r => (s, Finished (Resolved r))
  | Throw e => (s, Finished (Rejected e))
  | Update f k => advance now k (f s)
  | Now k => advance now (k now) s
  | Await c k => (s, Waiting c k)
  end.

(** ** services/geminiService.ts: prompt formatting and request parts *)

Module geminiService.

Definition filterStyles (filter : FilterType) : jsstring :=
  match filter with
  | unspecified => []
  | photorealistic =>
      lit "ultra photorealistic style, hyper-detailed, hyper ultra realistic, real vision, realistic texture, 8k"
  | Anime => lit "vibrant anime style, clean line art, cel shaded"
  | cartoon => lit "charming cartoon style, bold outlines, simple shapes"
  | ink_sketch =>
      lit "black and white ink sketch style, cross-hatching, expressive lines"
  | black_and_white =>
      lit "monochromatic black and white, dramatic lighting, high contrast"
  | color_pop =>
      lit "mostly black and white with a single subject in vibrant color, selective color"
  | water_color =>
      lit "soft watercolor painting style, blended colors, wet-on-wet technique"
  | raphaelite_oil_painting =>
      lit "Pre-Raphaelite Brotherhood oil painting style, rich colors, high detail, romantic themes"
  | raphaelite_digital_art =>
      lit "A beautiful blend of Pre-Raphaelite Brotherhood oil painting and vibrant Japanese Anime, creating a unique "
      ++ dquote ++ lit "Raphaelite Digital Art" ++ dquote
      ++ lit " look with rich colors, high detail, clean line art, and romantic themes."
  | dark_fantasy =>
      lit "dark fantasy digital art, epic scale, moody lighting, style of ArtStation and DeviantArt"
  | game_art =>
      lit "AAA game art style, Unreal Engine rendering, detailed character model, dynamic pose"
  | comic_cover =>
      lit "dynamic comic book cover art, bold inks, graphic style, vibrant colors"
  end.

Definition formatPromptWithFilter (prompt : jsstring) (filter : FilterType) : jsstring :=
  if isUnspecified filter then prompt
  else trim prompt ++ lit ". Style: " ++ filterStyles filter ++ lit ".".

(** The [parts] of the request sent to the image model. *)
Inductive Part : Type :=
| textPart (text : jsstring)
| inlineData (data mimeType : jsstring).

Definition generateImage_parts (prompt : jsstring) (filter : FilterType) : list Part :=
  let finalPrompt := formatPromptWithFilter prompt filter in
  [textPart finalPrompt].

Definition editImage_parts (imageBase64 imageMimeType prompt : jsstring)
    (filter : FilterType) (remixImage : option (jsstring * jsstring)) : list Part :=
  let finalPrompt := formatPromptWithFilter prompt filter in
  let parts := [inlineData imageBase64 imageMimeType; textPart finalPrompt] in
  match remixImage with
  | Some (remixBase64, remixMimeType) => parts ++ [inlineData remixBase64 remixMimeType]
  | None => parts
  end.

End geminiService.

(** ** components/AudioInput.tsx: the size guards of the audio sources *)

Module AudioInput.

(** Calls of the callbacks received as props. *)
Inductive PropCall : Type :=
| onAudioFileSelected (file : File)
| onRecordingComplete (file : File)
| onError (message : jsstring).

(** The component state ([fileName]) and whether the file input was reset. *)
Record Outcome : Type := {
  fileName : jsstring;
  inputReset : bool;
  propCalls : list PropCall
}.

Definition tooLarge (what : jsstring) (file : File) : jsstring :=
  what ++ lit " is too large (" ++ toFixed2MB (fileSize file) ++ lit "MB). Max size is "
       ++ ofN MAX_FILE_SIZE_MB ++ lit "MB.".

Definition handleRecordingDone (file : File) : Outcome :=
  if MAX_FILE_SIZE <? fileSize file then
    {| fileName := []; inputReset := false;
       propCalls := [onError (tooLarge (lit "Recording") file)] |}
  else
    {| fileName := name file; inputReset := false;
       propCalls := [onRecordingComplete file] |}.

(** [files] is [event.target.files?.[0]]; [current] the present [fileName]. *)
Definition handleFileChange (current : jsstring) (files : option File) : Outcome :=
  match files with
  | Some file =>
      if MAX_FILE_SIZE <? fileSize file then
        {| fileName := []; inputReset := true;
           propCalls := [onError (tooLarge (lit "File") file)] |}
      else
        {| fileName := name file; inputReset := false;
           propCalls := [onAudioFileSelected file] |}
  | None => {| fileName := current; inputReset := false; propCalls := [] |}
  end.

End AudioInput.

(** ** components/CreatorStudio.tsx: the single-image session *)

Module AppState.
Inductive t : Type := IDLE | ANALYZING | GENERATING | EDITING | ERROR.
End AppState.

Module CreatorStudio.

(** An action deferred behind the prompt-overwrite confirmation; a
    recording action carries the [audioContext] its closure captured. *)
Inductive ConfirmAction : Type :=
| noAction
| useRecording (file : File) (capturedContext : jsstring)
| useAudioFile (file : File).

Record State : Type := {
  appState : AppState.t;
  error : option jsstring;
  audioFile : option File;
  audioContext : jsstring;
  textPrompt : jsstring;
  generationFilter : FilterType;
  imageHistory : list ImageData;
  activeImageIndex : option nat;
  showWarningModal : bool;
  modalConfirmAction : ConfirmAction
}.

Definition initial : State :=
  {| appState := AppState.IDLE; error := None; audioFile := None;
     audioContext := []; textPrompt := []; generationFilter := unspecified;
     imageHistory := []; activeImageIndex := None;
     showWarningModal := false; modalConfirmAction := noAction |}.

(** The state setters returned by [useState]. *)
Definition setAppState (v : AppState.t) (s : State) : State :=
  {| appState := v; error := error s; audioFile := audioFile s;
     audioContext := audioContext s; textPrompt := textPrompt s;
     generationFilter := generationFilter s; imageHistory := imageHistory s;
     activeImageIndex := activeImageIndex s;
     showWarningModal := showWarningModal s;
     modalConfirmAction := modalConfirmAction s |}.

Definition setError (v : option jsstring) (s : State) : State :=
  {| appState := appState s; error := v; audioFile := audioFile s;
     audioContext := audioContext s; textPrompt := textPrompt s;
     generationFilter := generationFilter s; imageHistory := imageHistory s;
     activeImageIndex := activeImageIndex s;
     showWarningModal := showWarningModal s;
     modalConfirmAction := modalConfirmAction s |}.

Definition setAudioFile (v : option File) (s : State) : State :=
  {| appState := appState s; error := error s; audioFile := v;
     audioContext := audioContext s; textPrompt := textPrompt s;
     generationFilter := generationFilter s; imageHistory := imageHistory s;
     activeImageIndex := activeImageIndex s;
     showWarningModal := showWarningModal s;
     modalConfirmAction := modalConfirmAction s |}.

Definition setAudioContext (v : jsstring) (s : State) : State :=
  {| appState := appState s; error := error s; audioFile := audioFile s;
     audioContext := v; textPrompt := textPrompt s;
     generationFilter := generationFilter s; imageHistory := imageHistory s;
     activeImageIndex := activeImageIndex s;
     showWarningModal := showWarningModal s;
     modalConfirmAction := modalConfirmAction s |}.

Definition setTextPrompt (v : jsstring) (s : State) : State :=
  {| appState := appState s; error := error s; audioFile := audioFile s;
     audioContext := audioContext s; textPrompt := v;
     generationFilter := generationFilter s; imageHistory := imageHistory s;
     activeImageIndex := activeImageIndex s;
     showWarningModal := showWarningModal s;
     modalConfirmAction := modalConfirmAction s |}.

Definition setGenerationFilter (v : FilterType) (s : State) : State :=
  {| appState := appState s; error := error s; audioFile := audioFile s;
     audioContext := audioContext s; textPrompt := textPrompt s;
     generationFilter := v; imageHistory := imageHistory s;
     activeImageIndex := activeImageIndex s;
     showWarningModal := showWarningModal s;
     modalConfirmAction := modalConfirmAction s |}.

Definition setImageHistory (v : list ImageData) (s : State) : State :=
  {| appState := appState s; error := error s; audioFile := audioFile s;
     audioContext := audioContext s; textPrompt := textPrompt s;
     generationFilter := generationFilter s; imageHistory := v;
     activeImageIndex := activeImageIndex s;
     showWarningModal := showWarningModal s;
     modalConfirmAction := modalConfirmAction s |}.

Definition setActiveImageIndex (v : option nat) (s : State) : State :=
  {| appState := appState s; error := error s; audioFile := audioFile s;
     audioContext := audioContext s; textPrompt := textPrompt s;
     generationFilter := generationFilter s; imageHistory := imageHistory s;
     activeImageIndex := v;
     showWarningModal := showWarningModal s;
     modalConfirmAction := modalConfirmAction s |}.

Definition setShowWarningModal (v : bool) (s : State) : State :=
  {| appState := appState s; error := error s; audioFile := audioFile s;
     audioContext := audioContext s; textPrompt := textPrompt s;
     generationFilter := generationFilter s; imageHistory := imageHistory s;
     activeImageIndex := activeImageIndex s;
     showWarningModal := v;
     modalConfirmAction := modalConfirmAction s |}.

Definition setModalConfirmAction (v : ConfirmAction) (s : State) : State :=
  {| appState := appState s; error := error s; audioFile := audioFile s;
     audioContext := audioContext s; textPrompt := textPrompt s;
     generationFilter := generationFilter s; imageHistory := imageHistory s;
     activeImageIndex := activeImageIndex s;
     showWarningModal := showWarningModal s;
     modalConfirmAction := v |}.

(** Values computed on every render.  The handlers below take the
    render [r] whose values their closure captured. *)
Definition activeImage (r : State) : option ImageData :=
  match activeImageIndex r with
  | Some i => imageHistory r !! i
  | None => None
  end.

Definition isProcessing (r : State) : bool :=
  match appState r with
  | AppState.IDLE | AppState.ERROR => false
  | _ => true
  end.

Definition resetCreatorState : Async State unit :=
  set (setAppState AppState.IDLE) ;;
  set (setError None) ;;
  set (setAudioFile None) ;;
  set (setTextPrompt []) ;;
  set (setAudioContext []) ;;
  set (setGenerationFilter unspecified) ;;
  set (setImageHistory []) ;;
  set (setActiveImageIndex None).

Definition processRecording (capturedContext : jsstring) (file : File)
  : Async State unit :=
  tryFinally
    (tryCatch
       (audioBase64 <- await (fileToBase64 (FileBlob file)) ;;
        promptFromSpeech <-
          await (transcribeAudioToPrompt audioBase64 (fileType file) capturedContext) ;;
        set (setTextPrompt promptFromSpeech) ;;
        set (setAudioContext []) ;;
        set (setAudioFile None))
       (fun err =>
          set (setError (Some (messageOr err
            (lit "An unknown error occurred during audio transcription.")))) ;;
          set (setAppState AppState.ERROR)))
    (set (setAppState AppState.IDLE)).

(** The body of a deferred or immediate audio action. *)
Definition runAction (a : ConfirmAction) : Async State unit :=
  match a with
  | noAction => Return tt
  | useRecording file capturedContext =>
      set (setError None) ;;
      set (setAudioFile None) ;;
      set (setAppState AppState.ANALYZING) ;;
      processRecording capturedContext file
  | useAudioFile file =>
      set (setError None) ;;
      set (setAudioFile (Some file))
  end.

Definition handleActionWithPromptWarning (r : State) (action : ConfirmAction)
  : Async State unit :=
  if truthy (trim (textPrompt r)) then
    set (setModalConfirmAction action) ;;
    set (setShowWarningModal true)
  else runAction action.

Definition handleRecordingComplete (r : State) (file : File) : Async State unit :=
  handleActionWithPromptWarning r (useRecording file (audioContext r)).

Definition handleAudioFileSelected (r : State) (file : File) : Async State unit :=
  handleActionWithPromptWarning r (useAudioFile file).

(** [Modal.handleConfirm]: the stored action first clears the prompt. *)
Definition modalConfirm (r : State) : Async State unit :=
  (match modalConfirmAction r with
   | noAction => Return tt
   | a => set (setTextPrompt []) ;; runAction a
   end) ;;
  set (setShowWarningModal false).

(** The props handed to [AudioInput]. *)
Definition audioInputProp (r : State) (c : AudioInput.PropCall) : Async State unit :=
  match c with
  | AudioInput.onAudioFileSelected file => handleAudioFileSelected r file
  | AudioInput.onRecordingComplete file => handleRecordingComplete r file
  | AudioInput.onError message => set (setError (Some message))
  end.

Definition handleGeneration (r : State) : Async State unit :=
  set (setError None) ;;
  analysed <-
    match audioFile r with
    | Some audioFile =>
        tryCatch
          (set (setAppState AppState.ANALYZING) ;;
           audioBase64 <- await (fileToBase64 (FileBlob audioFile)) ;;
           finalPrompt <-
             await (generatePromptFromMusic audioBase64 (fileType audioFile)
                                            (audioContext r)) ;;
           set (setTextPrompt finalPrompt) ;;
           Return (Some finalPrompt : option jsstring))
          (fun err =>
             set (setError (Some (messageOr err
               (lit "An unknown error occurred during audio analysis.")))) ;;
             set (setAppState AppState.ERROR) ;;
             Return None)
    | None => Return (Some (textPrompt r))
    end ;;
  match analysed with
  | None => Return tt
  | Some finalPrompt =>
      if negb (truthy (trim finalPrompt)) then
        set (setError (Some (lit
          "A prompt is required to generate an image. Please type one or provide an audio file."))) ;;
        set (setAppState AppState.IDLE)
      else
        tryCatch
          (set (setAppState AppState.GENERATING) ;;
           imageBase64 <- await (generateImage finalPrompt (generationFilter r)) ;;
           t <- now ;;
           let newImage := {| id := t; base64 := imageBase64; prompt := finalPrompt |} in
           set (setImageHistory [newImage]) ;;
           set (setActiveImageIndex (Some 0%nat)) ;;
           set (setAppState AppState.IDLE))
          (fun err =>
             set (setError (Some (messageOr err
               (lit "An unknown error occurred during image generation.")))) ;;
             set (setAppState AppState.ERROR))
  end.

(** The prompt recorded for an edited image. *)
Definition editedPrompt (previous editPrompt : jsstring) (filter : FilterType) : jsstring :=
  let newPrompt := previous ++ [10; 10] ++ lit "---" in
  let newPrompt :=
    if negb (isUnspecified filter)
    then newPrompt ++ [10] ++ lit "Filter: " ++ filterTag filter
    else newPrompt in
  let newPrompt :=
    if truthy editPrompt
    then newPrompt ++ [10] ++ lit "Edit: " ++ editPrompt
    else newPrompt in
  newPrompt.

Definition handleEdit (r : State) (editPrompt : jsstring) (filter : FilterType)
    (remixImageFile : option File) : Async State unit :=
  match activeImage r with
  | None => Return tt
  | Some activeImage =>
      set (setError None) ;;
      set (setAppState AppState.EDITING) ;;
      tryFinally
        (tryCatch
           (remixImage <-
              match remixImageFile with
              | Some remixImageFile =>
                  b64 <- await (fileToBase64 (FileBlob remixImageFile)) ;;
                  Return (Some (b64 : jsstring, fileType remixImageFile))
              | None => Return None
              end ;;
            newImageBase64 <-
              await (editImage (base64 activeImage) (lit "image/jpeg")
                               editPrompt filter remixImage) ;;
            let newPrompt := editedPrompt (prompt activeImage) editPrompt filter in
            t <- now ;;
            let newImage := {| id := t; base64 := newImageBase64; prompt := newPrompt |} in
            let newHistory := imageHistory r ++ [newImage] in
            set (setImageHistory newHistory) ;;
            set (setActiveImageIndex (Some (length newHistory - 1)%nat)))
           (fun err =>
              set (setError (Some (messageOr err
                (lit "An unknown error occurred during image editing.")))) ;;
              set (setAppState AppState.ERROR)))
        (set (setAppState AppState.IDLE))
  end.

(** [ImageDisplay.handleSubmit]: the edit form only calls [onEdit] when
    there is something to apply and no edit is running. *)
Definition canSubmit (editPrompt : jsstring) (selectedFilter : FilterType) : bool :=
  negb (match trim editPrompt with [] => true | _ => false end)
  || negb (isUnspecified selectedFilter).

Definition handleSubmit (r : State) (editPrompt : jsstring) (selectedFilter : FilterType)
    (remixFile : option File) : Async State unit :=
  if canSubmit editPrompt selectedFilter
     && negb (match appState r with AppState.EDITING => true | _ => false end)
  then handleEdit r editPrompt selectedFilter remixFile
  else Return tt.

End CreatorStudio.

(** ** components/VisualStoryboard.tsx: the storyboard pipeline *)

Module VisualStoryboard.

Inductive StoryboardState : Type := IDLE | PROCESSING | FINISHED | ERROR.

Definition MIN_FILE_SIZE : N := 1 * 1024 * 1024.

(** [interface StoryboardImage extends ImageData] *)
Record StoryboardImage : Type := {
  image : ImageData;
  fileName : jsstring
}.

Record State : Type := {
  storyboardState : StoryboardState;
  error : option jsstring;
  progressMessage : jsstring;
  images : list StoryboardImage;
  summary : jsstring
}.

Definition setStoryboardState (v : StoryboardState) (s : State) : State :=
  {| storyboardState := v; error := error s; progressMessage := progressMessage s;
     images := images s; summary := summary s |}.

Definition setError (v : option jsstring) (s : State) : State :=
  {| storyboardState := storyboardState s; error := v;
     progressMessage := progressMessage s; images := images s; summary := summary s |}.

Definition setProgressMessage (v : jsstring) (s : State) : State :=
  {| storyboardState := storyboardState s; error := error s; progressMessage := v;
     images := images s; summary := summary s |}.

Definition setImages (v : list StoryboardImage) (s : State) : State :=
  {| storyboardState := storyboardState s; error := error s;
     progressMessage := progressMessage s; images := v; summary := summary s |}.

Definition setSummary (v : jsstring) (s : State) : State :=
  {| storyboardState := storyboardState s; error := error s;
     progressMessage := progressMessage s; images := images s; summary := v |}.

Definition initial : State :=
  {| storyboardState := IDLE; error := None; progressMessage := [];
     images := []; summary := [] |}.

(** [resetState] also clears the file input element, which is not part
    of the state. *)
Definition resetState : Async State unit :=
  set (setStoryboardState IDLE) ;;
  set (setError None) ;;
  set (setProgressMessage []) ;;
  set (setImages []) ;;
  set (setSummary []).

(** The thresholds on [audio.duration], in seconds. *)
Definition numSegmentsFor (duration : number) : N :=
  if geZ duration (30 * 60) then 7
  else if gtZ duration (5 * 60) then 5
  else if gtZ duration (2 * 60) then 4
  else 3.

(** The first loop of [processFile]: contiguous byte ranges of the file. *)
Definition sliceSegments (file : File) (numSegments : N) : list Blob :=
  let segmentSize := fileSize file / numSegments in
  (fun i : nat =>
     let start := N.of_nat i * segmentSize in
     let stop := if N.of_nat i =? numSegments - 1 then fileSize file
                 else start + segmentSize in
     Slice (FileBlob file) start stop (fileType file))
  <$> seq 0 (N.to_nat numSegments).

Definition progress (segmentNumber numSegments : N) (what : jsstring) : jsstring :=
  lit "[" ++ ofN segmentNumber ++ lit "/" ++ ofN numSegments ++ lit "] " ++ what.

Definition sceneFileName (segmentNumber : N) : jsstring :=
  lit "scene_" ++ padStart 2 48 (ofN segmentNumber) ++ lit ".jpg".

(** The second loop of [processFile], from index [i] on, with the local
    array [generatedImages] built so far. *)
Fixpoint generateScenes (file : File) (numSegments : N) (segments : list Blob)
    (i : nat) (generatedImages : list StoryboardImage) : Async State unit :=
  match segments with
  | [] => Return tt
  | segment :: rest =>
      let segmentNumber := N.of_nat i + 1 in
      set (setProgressMessage
             (progress segmentNumber numSegments (lit "Analyzing audio segment..."))) ;;
      audioBase64 <- await (fileToBase64 segment) ;;
      prompt <- await (generatePromptFromAudioSegment audioBase64 (fileType file)
                                                      segmentNumber numSegments) ;;
      set (setProgressMessage
             (progress segmentNumber numSegments (lit "Generating image..."))) ;;
      imageBase64 <- await (generateImage prompt raphaelite_digital_art) ;;
      t <- now ;;
      let newImage :=
        {| image := {| id := t + N.of_nat i; base64 := imageBase64; prompt := prompt |};
           fileName := sceneFileName segmentNumber |} in
      let generatedImages := generatedImages ++ [newImage] in
      set (setImages generatedImages) ;;
      generateScenes file numSegments rest (S i) generatedImages
  end.

Definition processFile (file : File) : Async State unit :=
  resetState ;;
  if fileSize file <? MIN_FILE_SIZE then
    set (setError (Some (lit "File is too small. Minimum size is 1MB."))) ;;
    set (setStoryboardState ERROR)
  else if MAX_FILE_SIZE <? fileSize file then
    set (setError (Some (lit "File is too large. Maximum size is "
                         ++ ofN MAX_FILE_SIZE_MB ++ lit "MB."))) ;;
    set (setStoryboardState ERROR)
  else
    set (setStoryboardState PROCESSING) ;;
    set (setProgressMessage (lit "Analyzing audio duration...")) ;;
    tryCatch
      (duration <- await (getAudioDuration (FileBlob file)) ;;
       let numSegments := numSegmentsFor duration in
       let segments := sliceSegments file numSegments in
       generateScenes file numSegments segments 0 [] ;;
       set (setProgressMessage (lit "Generating story summary...")) ;;
       fullAudioBase64 <- await (fileToBase64 (FileBlob file)) ;;
       storySummary <-
         await (generateStorySummaryFromAudio fullAudioBase64 (fileType file)) ;;
       set (setSummary storySummary) ;;
       set (setProgressMessage []) ;;
       set (setStoryboardState FINISHED))
      (fun err =>
         set (setError (Some (messageOr err
           (lit "An unknown error occurred during processing.")))) ;;
         set (setStoryboardState ERROR)).

(** [handleFileChange]: the file input hands its first file to [processFile]. *)
Definition handleFileChange (files : option File) : Async State unit :=
  match files with
  | Some file => processFile file
  | None => Return tt
  end.

End VisualStoryboard.

(** ** components/LiveSynesthesia.tsx: the live capture pipeline *)

Module LiveSynesthesia.

Inductive LiveState : Type := CONFIG | RECORDING | GENERATING | FINISHED | ERROR.
Inductive GenerationMode : Type := count | duration.

(** The options of the interval [select], in seconds. *)
Inductive IntervalOption : Type := every10 | every15 | every20 | every25 | every30.

Definition seconds (i : IntervalOption) : Z :=
  match i with
  | every10 => 10 | every15 => 15 | every20 => 20 | every25 => 25 | every30 => 30
  end.

(** [interface LiveImageData extends ImageData] *)
Record LiveImageData : Type := {
  image : ImageData;
  fileName : jsstring
}.

(** The configuration state, fixed during a run.  The numeric fields
    hold the result of [parseInt]: an integer, or NaN ([None]).
    [durationMinutes] is the [duration] state (in minutes), [duration]
    being also the name of a generation mode. *)
Record Config : Type := {
  context : Context;
  generationMode : GenerationMode;
  imageCount : option Z;
  durationMinutes : option Z;
  interval : IntervalOption
}.

(** [Math.floor((duration * 60) / interval)] is taken as the integer
    quotient.  The source computes it on doubles, which gives the same
    number for a duration of up to [2^45] minutes; beyond that the
    rounding of the product and of the quotient can make the two
    differ. *)
Definition totalImagesToGenerate (c : Config) : option Z :=
  match generationMode c with
  | count => imageCount c
  | duration =>
      match durationMinutes c with
      | Some d => Some ((d * 60) / seconds (interval c))%Z
      | None => None
      end
  end.

(** The values of one render that the callbacks created during that
    render keep seeing. *)
Record Closure : Type := {
  seenImages : list LiveImageData;
  seenTotal : option Z;
  seenContext : Context
}.

Inductive RecorderState : Type := recording | inactive.

(** Component state ([useState]) and refs ([useRef]).  The one-second
    countdown shown to the user is display-only and left out. *)
Record State : Type := {
  liveState : LiveState;
  error : option jsstring;
  config : Config;
  generatedImages : list LiveImageData;
  currentStatus : jsstring;
  intervalRef : option Closure;       (* the timer and its callback's closure *)
  audioChunksRef : list Blob;
  mediaRecorderRef : option RecorderState;
  isProcessingRef : bool;
  summaryRef : option jsstring
}.

Definition setLiveState (v : LiveState) (s : State) : State :=
  {| liveState := v; error := error s; config := config s;
     generatedImages := generatedImages s; currentStatus := currentStatus s;
     intervalRef := intervalRef s; audioChunksRef := audioChunksRef s;
     mediaRecorderRef := mediaRecorderRef s; isProcessingRef := isProcessingRef s;
     summaryRef := summaryRef s |}.

Definition setError (v : option jsstring) (s : State) : State :=
  {| liveState := liveState s; error := v; config := config s;
     generatedImages := generatedImages s; currentStatus := currentStatus s;
     intervalRef := intervalRef s; audioChunksRef := audioChunksRef s;
     mediaRecorderRef := mediaRecorderRef s; isProcessingRef := isProcessingRef s;
     summaryRef := summaryRef s |}.

(** [setGeneratedImages(prev => f prev)] *)
Definition setGeneratedImages (f : list LiveImageData -> list LiveImageData)
    (s : State) : State :=
  {| liveState := liveState s; error := error s; config := config s;
     generatedImages := f (generatedImages s); currentStatus := currentStatus s;
     intervalRef := intervalRef s; audioChunksRef := audioChunksRef s;
     mediaRecorderRef := mediaRecorderRef s; isProcessingRef := isProcessingRef s;
     summaryRef := summaryRef s |}.

Definition setCurrentStatus (v : jsstring) (s : State) : State :=
  {| liveState := liveState s; error := error s; config := config s;
     generatedImages := generatedImages s; currentStatus := v;
     intervalRef := intervalRef s; audioChunksRef := audioChunksRef s;
     mediaRecorderRef := mediaRecorderRef s; isProcessingRef := isProcessingRef s;
     summaryRef := summaryRef s |}.

Definition setIntervalRef (v : option Closure) (s : State) : State :=
  {| liveState := liveState s; error := error s; config := config s;
     generatedImages := generatedImages s; currentStatus := currentStatus s;
     intervalRef := v; audioChunksRef := audioChunksRef s;
     mediaRecorderRef := mediaRecorderRef s; isProcessingRef := isProcessingRef s;
     summaryRef := summaryRef s |}.

Definition setAudioChunksRef (v : list Blob) (s : State) : State :=
  {| liveState := liveState s; error := error s; config := config s;
     generatedImages := generatedImages s; currentStatus := currentStatus s;
     intervalRef := intervalRef s; audioChunksRef := v;
     mediaRecorderRef := mediaRecorderRef s; isProcessingRef := isProcessingRef s;
     summaryRef := summaryRef s |}.

Definition setMediaRecorderRef (v : option RecorderState) (s : State) : State :=
  {| liveState := liveState s; error := error s; config := config s;
     generatedImages := generatedImages s; currentStatus := currentStatus s;
     intervalRef := intervalRef s; audioChunksRef := audioChunksRef s;
     mediaRecorderRef := v; isProcessingRef := isProcessingRef s;
     summaryRef := summaryRef s |}.

Definition setIsProcessingRef (v : bool) (s : State) : State :=
  {| liveState := liveState s; error := error s; config := config s;
     generatedImages := generatedImages s; currentStatus := currentStatus s;
     intervalRef := intervalRef s; audioChunksRef := audioChunksRef s;
     mediaRecorderRef := mediaRecorderRef s; isProcessingRef := v;
     summaryRef := summaryRef s |}.

Definition setSummaryRef (v : option jsstring) (s : State) : State :=
  {| liveState := liveState s; error := error s; config := config s;
     generatedImages := generatedImages s; currentStatus := currentStatus s;
     intervalRef := intervalRef s; audioChunksRef := audioChunksRef s;
     mediaRecorderRef := mediaRecorderRef s; isProcessingRef := isProcessingRef s;
     summaryRef := v |}.

(** The component as first mounted, for a given configuration. *)
Definition initial (c : Config) : State :=
  {| liveState := CONFIG; error := None; config := c;
     generatedImages := []; currentStatus := [];
     intervalRef := None; audioChunksRef := [];
     mediaRecorderRef := None; isProcessingRef := false;
     summaryRef := None |}.

(** What the callbacks created while rendering [s] capture. *)
Definition render (s : State) : Closure :=
  {| seenImages := generatedImages s;
     seenTotal := totalImagesToGenerate (config s);
     seenContext := context (config s) |}.

Definition startLiveRecording : Async State unit :=
  tryCatch
    (stream <- await getUserMedia ;;
     set (setMediaRecorderRef (Some recording)) ;;
     set (setAudioChunksRef []))
    (fun err =>
       set (setError (Some (lit
         "Could not access microphone. Please ensure permissions are granted and refresh the page."))) ;;
       set (setLiveState ERROR)).

(** [mediaRecorder.ondataavailable] *)
Definition ondataavailable (data : Blob) (s : State) : State :=
  if 0 <? size data then setAudioChunksRef (audioChunksRef s ++ [data]) s else s.

Definition stopLiveRecording (s : State) : State :=
  let s :=
    match mediaRecorderRef s with
    | Some recording => setMediaRecorderRef (Some inactive) s
    | _ => s
    end in
  setIntervalRef None s.

Definition imageFileName (imageIndex : N) : jsstring :=
  lit "image_" ++ ofN imageIndex ++ lit ".jpeg".

Definition statusFor (what : jsstring) (imageIndex : N) (total : option Z) : jsstring :=
  what ++ ofN imageIndex ++ lit " of " ++ ofInt total ++ lit "...".

(** The [try] block of [processAudioChunk] with its handlers. *)
Definition processing (cl : Closure) (audioBlob : Blob) (imageIndex : N)
  : Async State unit :=
  tryFinally
    (tryCatch
       (audioBase64 <- await (fileToBase64 audioBlob) ;;
        prompt <- await (generateLivePrompt audioBase64 (type audioBlob) (seenContext cl)) ;;
        set (setCurrentStatus (statusFor (lit "Generating image ") imageIndex (seenTotal cl))) ;;
        imageBase64 <- await (generateImage prompt raphaelite_digital_art) ;;
        t <- now ;;
        let newImage :=
          {| image := {| id := t; base64 := imageBase64; prompt := prompt |};
             fileName := imageFileName imageIndex |} in
        set (setGeneratedImages (fun prev => prev ++ [newImage])))
       (fun err => Return tt))
    (set (setIsProcessingRef false)).

(** The interval callback: [cl] is the closure of the render that
    installed the timer, [s] the state when the timer fires. *)
Definition processAudioChunk (cl : Closure) (s : State) : Async State unit :=
  if isProcessingRef s || bool_decide (length (audioChunksRef s) = 0%nat) then Return tt
  else
    set (setIsProcessingRef true) ;;
    let audioBlob := NewBlob (audioChunksRef s) (lit "audio/webm") in
    set (setAudioChunksRef []) ;;
    if size audioBlob <? 1024 then
      set (setIsProcessingRef false)
    else
      let imageIndex := N.of_nat (length (seenImages cl)) + 1 in
      set (setCurrentStatus
             (statusFor (lit "Analyzing sound for image ") imageIndex (seenTotal cl))) ;;
      processing cl audioBlob imageIndex.

Definition startFlow : Async State unit :=
  set (setError None) ;;
  set (setGeneratedImages (fun _ => [])) ;;
  set (setLiveState RECORDING) ;;
  startLiveRecording.

Definition handleStop (r : State) : Async State unit :=
  set stopLiveRecording ;;
  if bool_decide (0 < length (generatedImages r))%nat
  then set (setLiveState GENERATING)
  else set (setLiveState CONFIG).

Definition generateSummary (cl : Closure) : Async State unit :=
  if bool_decide (length (seenImages cl) = 0%nat) then
    set (setLiveState FINISHED)
  else
    set (setCurrentStatus (lit "Creating your story summary...")) ;;
    tryFinally
      (tryCatch
         (let prompts := (fun img => prompt (image img)) <$> seenImages cl in
          summary <- await (generateSummaryMarkdown prompts (seenContext cl)) ;;
          set (setSummaryRef (Some summary)))
         (fun err =>
            set (setError (Some (lit
              "Could not generate summary. You can still download the images."))) ;;
            set (setSummaryRef (Some (lit "Summary generation failed.")))))
      (set (setLiveState FINISHED) ;;
       set (setCurrentStatus [])).

Definition resetFlow : Async State unit :=
  set (setLiveState CONFIG) ;;
  set (setGeneratedImages (fun _ => [])) ;;
  set (setError None) ;;
  set (setCurrentStatus []) ;;
  set (setSummaryRef None).

(** *** Effects and the event loop

    The component together with the promises it is waiting on.  One
    event is one browser task: the handler runs up to its next await,
    the state updates it made are rendered together, and the effects
    whose dependencies changed run after that render. *)

Record Task : Type := {
  call : Call;
  resume : Result (retType call) -> Async State unit
}.

Record Machine : Type := {
  state : State;
  tasks : list Task
}.

Definition mounted (c : Config) : Machine :=
  {| state := initial c; tasks := [] |}.

Definition launch (now : N) (script : Async State unit) (m : Machine)
  : Machine * list Call :=
  match advance now script (state m) with
  | (s, Finished _) => ({| state := s; tasks := tasks m |}, [])
  | (s, Waiting c k) =>
      ({| state := s; tasks := tasks m ++ [{| call := c; resume := k |}] |}, [c])
  end.

#[global] Instance LiveState_eq_dec : EqDecision LiveState.
Proof. solve_decision. Defined.
#[global] Instance ImageData_eq_dec : EqDecision ImageData.
Proof. solve_decision. Defined.
#[global] Instance LiveImageData_eq_dec : EqDecision LiveImageData.
Proof. solve_decision. Defined.

(** [generatedImages.length >= totalImagesToGenerate] *)
Definition reached (images : list LiveImageData) (total : option Z) : bool :=
  match total with
  | Some t => (t <=? Z.of_nat (length images))%Z
  | None => false
  end.

(** The three [useEffect]s, after a render of [cur] that follows a render
    of [prev]: clean-ups first, then the bodies in source order, each
    only if one of its dependencies changed.  Of the dependencies, only
    [liveState] and [generatedImages] change during a run: the interval,
    the context and the target are configuration, and the callbacks
    created with [useCallback] change with them. *)
Definition effects (prev cur : State) : Async State unit :=
  let liveStateChanged := negb (bool_decide (liveState prev = liveState cur)) in
  let imagesChanged :=
    negb (bool_decide (generatedImages prev = generatedImages cur)) in
  (* clean-up of the timer effect, deps [liveState, interval] *)
  (if liveStateChanged && bool_decide (liveState prev = RECORDING)
   then set stopLiveRecording else Return tt) ;;
  (* timer effect: the interval runs this render's [processAudioChunk] *)
  (if liveStateChanged && bool_decide (liveState cur = RECORDING)
   then set (setIntervalRef (Some (render cur))) else Return tt) ;;
  (* target effect, deps [generatedImages, totalImagesToGenerate, liveState] *)
  (if (liveStateChanged || imagesChanged)
      && bool_decide (liveState cur = RECORDING)
      && reached (generatedImages cur) (totalImagesToGenerate (config cur))
   then set stopLiveRecording ;; set (setLiveState GENERATING)
   else Return tt) ;;
  (* summary effect, deps [liveState, generateSummary] *)
  (if (liveStateChanged || imagesChanged) && bool_decide (liveState cur = GENERATING)
   then generateSummary (render cur) else Return tt).

Fixpoint commit (rounds : nat) (now : N) (prev : State) (m : Machine)
  : Machine * list Call :=
  match rounds with
  | O => (m, [])
  | S rounds' =>
      let cur := state m in
      let '(m1, calls1) := launch now (effects prev cur) m in
      let '(m2, calls2) := commit rounds' now cur m1 in
      (m2, calls1 ++ calls2)
  end.

(** What the environment can do to the mounted component. *)
Inductive Event : Type :=
| clickStart                       (* the Start the Flow button *)
| clickStop                        (* the Stop Flow button *)
| clickReset                       (* the Start New Flow button *)
| timerFires                       (* the interval timer *)
| dataAvailable (data : Blob)      (* the recorder delivers audio *)
| settles (i : nat) (answer : forall c : Call, Result (retType c)).
    (* the i-th pending promise settles as the environment answers *)

Definition startEnabled (s : State) : bool :=
  (bool_decide (liveState s = CONFIG) || bool_decide (liveState s = ERROR))
  && truthy (location (context (config s)))
  && truthy (activity (context (config s)))
  && truthy (age (context (config s))).

Definition handle (now : N) (ev : Event) (m : Machine) : Machine * list Call :=
  let s := state m in
  match ev with
  | clickStart =>
      if startEnabled s then launch now startFlow m else (m, [])
  | clickStop =>
      if bool_decide (liveState s = RECORDING) then launch now (handleStop s) m
      else (m, [])
  | clickReset =>
      if bool_decide (liveState s = FINISHED) then launch now resetFlow m
      else (m, [])
  | timerFires =>
      match intervalRef s with
      | Some cl => launch now (processAudioChunk cl s) m
      | None => (m, [])
      end
  | dataAvailable data =>
      match mediaRecorderRef s with
      | Some _ => ({| state := ondataavailable data s; tasks := tasks m |}, [])
      | None => (m, [])
      end
  | settles i answer =>
      match tasks m !! i with
      | Some t =>
          launch now (resume t (answer (call t)))
                 {| state := s; tasks := delete i (tasks m) |}
      | None => (m, [])
      end
  end.

(** One event at wall-clock time [now]; the calls it issues. *)
Definition step (now : N) (ev : Event) (m : Machine) : Machine * list Call :=
  let '(m1, calls1) := handle now ev m in
  let '(m2, calls2) := commit 3 now (state m) m1 in
  (m2, calls1 ++ calls2).

Fixpoint run (trace : list (N * Event)) (m : Machine) : Machine * list Call :=
  match trace with
  | [] => (m, [])
  | (now, ev) :: rest =>
      let '(m1, calls1) := step now ev m in
      let '(m2, calls2) := run rest m1 in
      (m2, calls1 ++ calls2)
  end.

End LiveSynesthesia.

(** ** services/geminiService.ts: what the facade makes of a response

    Each exported function awaits [ai.models.generateContent] inside one
    [try] block and turns the response, or the failure, into its own
    result.  The functions below are those bodies as functions of the
    outcome of the request. *)

Module JSString.

Fixpoint startsWith (pattern s : jsstring) : bool :=
  match pattern, s with
  | [], _ => true
  | p :: pattern', c :: s' => (p =? c) && startsWith pattern' s'
  | _ :: _, [] => false
  end.

(** [s.replace(pattern, replacement)] for a string pattern and a
    replacement without [$]: the first occurrence only. *)
Fixpoint replace (pattern replacement s : jsstring) : jsstring :=
  if startsWith pattern s then replacement ++ drop (length pattern) s
  else match s with
       | [] => []
       | c :: s' => c :: replace pattern replacement s'
       end.

(** [s.split(separator)] for a one-character separator. *)
Fixpoint split (separator : N) (s : jsstring) : list jsstring :=
  match s with
  | [] => [[]]
  | c :: s' =>
      if c =? separator then [] :: split separator s'
      else match split separator s' with
           | piece :: pieces => (c :: piece) :: pieces
           | [] => [[c]]
           end
  end.

(** [pieces.join(separator)] *)
Fixpoint join (separator : jsstring) (pieces : list jsstring) : jsstring :=
  match pieces with
  | [] => []
  | [piece] => piece
  | piece :: rest => piece ++ separator ++ join separator rest
  end.

(** Truthiness of an optional string: [undefined] and the empty string
    are falsy. *)
Definition truthyOpt (x : option jsstring) : bool :=
  match x with Some s => truthy s | None => false end.

(** The string read from an optional field known to be truthy. *)
Definition valueOf (x : option jsstring) : jsstring := default [] x.

End JSString.

(** The fields of [GenerateContentResponse] the facade reads.  Optional
    fields are options; a safety rating is taken to carry its category
    and its probability. *)
Module GenAI.

Record SafetyRating : Type := {
  category : jsstring;
  probability : jsstring
}.

Record PromptFeedback : Type := {
  blockReason : option jsstring;
  safetyRatings : option (list SafetyRating)
}.

Record InlineData : Type := {
  data : option jsstring;
  mimeType : option jsstring
}.

Record Part : Type := {
  partText : option jsstring;          (* [part.text] *)
  inlineData : option InlineData
}.

Record Content : Type := {
  parts : option (list Part)
}.

Record Candidate : Type := {
  content : option Content;
  finishReason : option jsstring;
  ratings : option (list SafetyRating)  (* [candidate.safetyRatings] *)
}.

Record GenerateContentResponse : Type := {
  text : option jsstring;
  promptFeedback : option PromptFeedback;
  candidates : option (list Candidate)
}.

End GenAI.

Module Facade.
Import JSString GenAI.

(** [rating.category.replace('HARM_CATEGORY_', '')]: [rating.probability] *)
Definition ratingDetail (rating : SafetyRating) : jsstring :=
  replace (lit "HARM_CATEGORY_") [] (category rating) ++ lit ": " ++ probability rating.

(** [safetyRatings?.map(...).join(', ')] *)
Definition safetyDetails (ratings : option (list SafetyRating)) : option jsstring :=
  match ratings with
  | Some rs => Some (join (lit ", ") (ratingDetail <$> rs))
  | None => None
  end.

Definition withDetails (message : jsstring) (details : option jsstring) : jsstring :=
  if truthyOpt details then message ++ lit " Details: " ++ valueOf details
  else message.

Definition createErrorMessage (response : GenerateContentResponse)
    (defaultMessage : jsstring) : jsstring :=
  let feedbackReason :=
    match promptFeedback response with
    | Some feedback => blockReason feedback
    | None => None
    end in
  let firstCandidate :=
    match candidates response with
    | Some cs => cs !! 0%nat
    | None => None
    end in
  let finish :=
    match firstCandidate with
    | Some candidate => finishReason candidate
    | None => None
    end in
  if truthyOpt feedbackReason then
    withDetails
      (lit "Prompt was blocked. Reason: " ++ valueOf feedbackReason ++ lit ".")
      (safetyDetails (match promptFeedback response with
                      | Some feedback => safetyRatings feedback
                      | None => None
                      end))
  else if truthyOpt finish && negb (bool_decide (valueOf finish = lit "STOP")) then
    withDetails
      (lit "Generation stopped unexpectedly. Reason: " ++ valueOf finish ++ lit ".")
      (safetyDetails (match firstCandidate with
                      | Some candidate => ratings candidate
                      | None => None
                      end))
  else defaultMessage.

(** [catch (error) { throw new Error(error.message || unexpected) }] *)
Definition rethrow {T} (error : thrown) (unexpected : jsstring) : Result T :=
  Rejected (ErrorObject (messageOr error unexpected)).

(** The common body of the six functions that return text: [failure] is
    the default message for a response without text, [unexpected] the
    message of the [catch] block. *)
Definition textResult (failure unexpected : jsstring)
    (outcome : Result GenerateContentResponse) : Result jsstring :=
  match outcome with
  | Rejected error => rethrow error unexpected
  | Resolved response =>
      if negb (truthyOpt (text response))
      then rethrow (ErrorObject (createErrorMessage response failure)) unexpected
      else Resolved (trim (valueOf (text response)))
  end.

Definition generatePromptFromMusic : Result GenerateContentResponse -> Result jsstring :=
  textResult (lit "Model failed to return a valid prompt from the audio.")
             (lit "Failed to analyze music. Please try another file.").

Definition transcribeAudioToPrompt : Result GenerateContentResponse -> Result jsstring :=
  textResult (lit "Model failed to understand the recording.")
             (lit "Failed to understand audio. Please try recording again.").

Definition generateLivePrompt : Result GenerateContentResponse -> Result jsstring :=
  textResult (lit "Model failed to generate a live prompt from the audio.")
             (lit "Failed to analyze live audio. Please try again.").

Definition generateSummaryMarkdown : Result GenerateContentResponse -> Result jsstring :=
  textResult (lit "Model failed to generate a summary.")
             (lit "Failed to generate summary. Please try again.").

Definition generatePromptFromAudioSegment (segmentNumber : N)
  : Result GenerateContentResponse -> Result jsstring :=
  textResult (lit "Model failed to generate a prompt for segment " ++ ofN segmentNumber ++ lit ".")
             (lit "Failed to analyze segment " ++ ofN segmentNumber ++ lit ".").

Definition generateStorySummaryFromAudio
  : Result GenerateContentResponse -> Result jsstring :=
  textResult (lit "Model failed to generate a summary for the story.")
             (lit "Failed to generate story summary.").

(** The [for] loop over [candidate.content.parts]: the data of the first
    part that has some. *)
Fixpoint firstInlineData (ps : list Part) : option jsstring :=
  match ps with
  | [] => None
  | part :: rest =>
      let payload :=
        match inlineData part with
        | Some inline => data inline
        | None => None
        end in
      if truthyOpt payload then payload else firstInlineData rest
  end.

(** The common body of [generateImage] and [editImage]. *)
Definition imageResult (noCandidate noImage unexpected : jsstring)
    (outcome : Result GenerateContentResponse) : Result jsstring :=
  match outcome with
  | Rejected error => rethrow error unexpected
  | Resolved response =>
      match candidates response with
      | None | Some [] =>
          rethrow (ErrorObject (createErrorMessage response noCandidate)) unexpected
      | Some (candidate :: _) =>
          let found :=
            match content candidate with
            | Some c =>
                match parts c with
                | Some ps => firstInlineData ps
                | None => None
                end
            | None => None
            end in
          match found with
          | Some payload => Resolved payload
          | None => rethrow (ErrorObject (createErrorMessage response noImage)) unexpected
          end
      end
  end.

Definition generateImage : Result GenerateContentResponse -> Result jsstring :=
  imageResult (lit "No image was generated. The prompt may have been rejected.")
              (lit "The model generated a response, but it did not contain image data.")
              (lit "Failed to generate image due to an unknown error.").

Definition editImage : Result GenerateContentResponse -> Result jsstring :=
  imageResult (lit "No image was generated from the edit.")
              (lit "Edit did not produce an image.")
              (lit "Failed to edit image. Please try a different edit prompt.").

(** [fileToBase64]: [reader.onload] resolves with
    [result.split(',')[1]], which is [undefined] ([None]) for a result
    without a comma. *)
Definition onload (result : jsstring) : option jsstring :=
  split 44 result !! 1%nat.

End Facade.

(** ** components/VisualStoryboard.tsx: [getAudioDuration]

    The probe settles on the first of two events of the [Audio]
    element. *)

Module AudioProbe.

Inductive MediaEvent : Type :=
| loadedmetadata (duration : number)
| mediaError.

Definition getAudioDuration (ev : MediaEvent) : Result number :=
  match ev with
  | loadedmetadata duration => Resolved duration
  | mediaError => Rejected (StringValue (lit "Could not read audio file metadata."))
  end.

End AudioProbe.

(** ** Arithmetic on numbers

    A JavaScript number is a binary64 value, and an arithmetic operation
    returns a double nearest to the exact result (of two nearest ones the
    even one, which nothing below depends on; results beyond the finite
    range are not considered). *)

Module Double.

(** Two to the power [e], for an exponent of either sign. *)
Definition twoTo (e : Z) : Q :=
  if (0 <=? e)%Z then inject_Z (2 ^ e) else (1 / inject_Z (2 ^ (- e)))%Q.

(** The finite doubles: a significand below [2^53] times a power of two. *)
Definition isDouble (x : Q) : Prop :=
  exists m e : Z,
    (Z.abs m < 2 ^ 53)%Z /\ (-1074 <= e <= 971)%Z /\ (x == inject_Z m * twoTo e)%Q.

(** [f] is a double nearest to the exact value [x]. *)
Definition nearest (x f : Q) : Prop :=
  isDouble f /\ forall g, isDouble g -> (Qabs (x - f) <= Qabs (x - g))%Q.

(** [Math.floor((duration * 60) / interval)] evaluates to [t]: the
    product and the quotient are each rounded to a nearest double. *)
Definition floorOfQuotient (duration interval : Q) (t : Z) : Prop :=
  exists product quotient : Q,
    nearest (duration * 60)%Q product /\
    nearest (product / interval)%Q quotient /\
    t = Qfloor quotient.

End Double.

(** * Properties *)

(** ** Vocabulary of the statements *)

(** A string that neither starts nor ends with a white space character. *)
Definition notWhiteSpace (c : option N) : bool :=
  match c with Some c => negb (isWhiteSpace c) | None => true end.

Definition edgesClean (s : jsstring) : bool :=
  notWhiteSpace (head s) && notWhiteSpace (last s).

(** The style suffix of the claims: [. Style: <phrase>.] *)
Definition styleSuffix (filter : FilterType) : jsstring :=
  lit ". Style: " ++ geminiService.filterStyles filter ++ lit ".".

(** The lineage of an edited image with bracketed lines, and with plain
    lines: previous prompt, separator, a filter line when a style is
    chosen, an edit line when the edit text is not empty. *)
Definition lineageBracketed (previous e : jsstring) (s : FilterType) : jsstring :=
  previous ++ [10; 10] ++ lit "---"
  ++ (if isUnspecified s then [] else [10] ++ lit "[Filter: " ++ filterTag s ++ lit "]")
  ++ (match e with [] => [] | _ => [10] ++ lit "[Edit: " ++ e ++ lit "]" end).

Definition lineagePlain (previous e : jsstring) (s : FilterType) : jsstring :=
  previous ++ [10; 10] ++ lit "---"
  ++ (if isUnspecified s then [] else [10] ++ lit "Filter: " ++ filterTag s)
  ++ (match e with [] => [] | _ => [10] ++ lit "Edit: " ++ e end).

(** An environment in which every call succeeds: string-valued calls
    resolve to [text], the duration probe to [d]. *)
Definition answerAll (text : jsstring) (d : number) (c : Call) : Result (retType c) :=
  match c with
  | getAudioDuration _ => Resolved d
  | getUserMedia => Resolved tt
  | fileToBase64 _ | generatePromptFromMusic _ _ _ | transcribeAudioToPrompt _ _ _
  | generateLivePrompt _ _ _ | generateSummaryMarkdown _ _ | generateImage _ _
  | editImage _ _ _ _ _ | generatePromptFromAudioSegment _ _ _ _
  | generateStorySummaryFromAudio _ _ => Resolved text
  end.

Definition allSucceed (text : jsstring) (d : number) : Oracle :=
  {| respond := fun _ => answerAll text d; clock := fun n => N.of_nat n |}.

(** A session showing one generated image. *)
Definition oneImageSession (p : jsstring) : CreatorStudio.State :=
  CreatorStudio.setActiveImageIndex (Some 0%nat)
    (CreatorStudio.setImageHistory
       [{| id := 1; base64 := lit "aW1n"; prompt := p |}] CreatorStudio.initial).

(** A session with a typed prompt and no audio source. *)
Definition typedPrompt (p : jsstring) : CreatorStudio.State :=
  CreatorStudio.setTextPrompt p CreatorStudio.initial.

(** Audio files of given sizes. *)
Definition audioOfSize (bytes : N) : File :=
  {| name := lit "story.mp3"; fileSize := bytes; fileType := lit "audio/mpeg" |}.

(** The state in which the storyboard stops on a validation error. *)
Definition storyboardRejected (message : jsstring) : VisualStoryboard.State :=
  {| VisualStoryboard.storyboardState := VisualStoryboard.ERROR;
     VisualStoryboard.error := Some message;
     VisualStoryboard.progressMessage := [];
     VisualStoryboard.images := [];
     VisualStoryboard.summary := [] |}.

(** A call that, if it asks for the interpretation of a storyboard
    segment, names [total] as the number of segments. *)
Definition namesTotal (total : N) (c : Call) : Prop :=
  match c with
  | generatePromptFromAudioSegment _ _ _ totalSegments => totalSegments = total
  | _ => True
  end.

(** *** Live capture: the promises a capture can be waiting on *)

(** The calls made while a tick's audio is processed: the read of the
    extracted blob, then the two service requests. *)
Definition isStageCall (c : Call) : bool :=
  match c with
  | generateLivePrompt _ _ _ | generateImage _ _ => true
  | _ => false
  end.

Definition isTickCall (c : Call) : bool :=
  match c with
  | fileToBase64 _ => true
  | _ => isStageCall c
  end.

Definition isMicCall (c : Call) : bool :=
  match c with getUserMedia => true | _ => false end.

(** State updates that leave the in-flight flag and the audio buffer alone. *)
Definition keepsRefs (f : LiveSynesthesia.State -> LiveSynesthesia.State) : Prop :=
  forall s,
    LiveSynesthesia.isProcessingRef (f s) = LiveSynesthesia.isProcessingRef s /\
    LiveSynesthesia.audioChunksRef (f s) = LiveSynesthesia.audioChunksRef s.

(** State updates that leave the flag alone and keep or empty the buffer. *)
Definition keepsOrEmpties (f : LiveSynesthesia.State -> LiveSynesthesia.State) : Prop :=
  forall s,
    LiveSynesthesia.isProcessingRef (f s) = LiveSynesthesia.isProcessingRef s /\
    (LiveSynesthesia.audioChunksRef (f s) = LiveSynesthesia.audioChunksRef s \/
     LiveSynesthesia.audioChunksRef (f s) = []).

(** The rest of a tick's processing: it only awaits stage calls, a
    rejected call leads straight to the release of the flag, and every
    path ends by releasing the flag. *)
Inductive TickScript : Async LiveSynesthesia.State unit -> Prop :=
| tick_release :
    TickScript (Update (LiveSynesthesia.setIsProcessingRef false) (Return tt))
| tick_update f k :
    keepsRefs f -> TickScript k -> TickScript (Update f k)
| tick_now k :
    (forall t, TickScript (k t)) -> TickScript (Now k)
| tick_await c k :
    isStageCall c = true ->
    (forall e, k (Rejected e)
               = Update (LiveSynesthesia.setIsProcessingRef false) (Return tt)) ->
    (forall v, TickScript (k (Resolved v))) ->
    TickScript (Await c k).

(** What [generateSummary] does when its request is rejected. *)
Definition summaryFallback : Async LiveSynesthesia.State unit :=
  Update (LiveSynesthesia.setError (Some (lit
            "Could not generate summary. You can still download the images.")))
    (Update (LiveSynesthesia.setSummaryRef (Some (lit "Summary generation failed.")))
       (Update (LiveSynesthesia.setLiveState LiveSynesthesia.FINISHED)
          (Update (LiveSynesthesia.setCurrentStatus []) (Return tt)))).

(** Scripts that never touch the flag or the buffer and await neither a
    tick call nor the microphone; the request they may await falls back
    to [summaryFallback] when rejected. *)
Inductive Calm : Async LiveSynesthesia.State unit -> Prop :=
| calm_return : Calm (Return tt)
| calm_throw e : Calm (Throw e)
| calm_update f k : keepsRefs f -> Calm k -> Calm (Update f k)
| calm_now k : (forall t, Calm (k t)) -> Calm (Now k)
| calm_await c k :
    isTickCall c = false -> isMicCall c = false ->
    (forall e, k (Rejected e) = summaryFallback) ->
    (forall r, Calm (k r)) -> Calm (Await c k).

(** The rest of [startLiveRecording] once the microphone request has
    settled: no further await. *)
Inductive MicDone : Async LiveSynesthesia.State unit -> Prop :=
| mic_return : MicDone (Return tt)
| mic_throw e : MicDone (Throw e)
| mic_update f k : keepsOrEmpties f -> MicDone k -> MicDone (Update f k).

Definition TickTask (t : LiveSynesthesia.Task) : Prop :=
  isTickCall (LiveSynesthesia.call t) = true /\
  (forall e, LiveSynesthesia.resume t (Rejected e)
             = Update (LiveSynesthesia.setIsProcessingRef false) (Return tt)) /\
  (forall v, TickScript (LiveSynesthesia.resume t (Resolved v))).

Definition MicTask (t : LiveSynesthesia.Task) : Prop :=
  isMicCall (LiveSynesthesia.call t) = true /\
  forall r, MicDone (LiveSynesthesia.resume t r).

Definition CalmTask (t : LiveSynesthesia.Task) : Prop :=
  isTickCall (LiveSynesthesia.call t) = false /\
  isMicCall (LiveSynesthesia.call t) = false /\
  (forall e, LiveSynesthesia.resume t (Rejected e) = summaryFallback) /\
  forall r, Calm (LiveSynesthesia.resume t r).

Definition knownTask (t : LiveSynesthesia.Task) : Prop :=
  TickTask t \/ MicTask t \/ CalmTask t.

(** The number of pending promises that belong to a tick's processing. *)
Definition ticksInFlight (m : LiveSynesthesia.Machine) : nat :=
  length (List.filter (fun t => isTickCall (LiveSynesthesia.call t))
                      (LiveSynesthesia.tasks m)).


(** The invariant of the event loop: every pending promise comes from the
    component's own code, and the flag is set exactly while one tick is
    being processed. *)
Definition consistent (m : LiveSynesthesia.Machine) : Prop :=
  Forall knownTask (LiveSynesthesia.tasks m) /\
  ticksInFlight m
  = if LiveSynesthesia.isProcessingRef (LiveSynesthesia.state m) then 1%nat else 0%nat.

(** The machines a mounted component can reach. *)
Definition reachable (m : LiveSynesthesia.Machine) : Prop :=
  exists (c : LiveSynesthesia.Config) (trace : list (N * LiveSynesthesia.Event)),
    fst (LiveSynesthesia.run trace (LiveSynesthesia.mounted c)) = m.

(** The chunk lists handed to a processing attempt, in order. *)
Definition extractions (calls : list Call) : list (list Blob) :=
  flat_map (fun c => match c with
                     | fileToBase64 (NewBlob parts _) => [parts]
                     | _ => []
                     end) calls.

(** The chunks the recorder delivered during a trace, in order. *)
Definition delivered (trace : list (N * LiveSynesthesia.Event)) : list Blob :=
  flat_map (fun e => match snd e with
                     | LiveSynesthesia.dataAvailable data => [data]
                     | _ => []
                     end) trace.


(** [s'] has the flag and the buffer of [s]. *)
Definition sameRefs (s s' : LiveSynesthesia.State) : Prop :=
  LiveSynesthesia.isProcessingRef s' = LiveSynesthesia.isProcessingRef s /\
  LiveSynesthesia.audioChunksRef s' = LiveSynesthesia.audioChunksRef s.

(** The blob a tick builds from the buffer. *)
Definition tickBlob (s : LiveSynesthesia.State) : Blob :=
  NewBlob (LiveSynesthesia.audioChunksRef s) (lit "audio/webm").

(** The shapes a handler's effect on the machine can take. *)
Inductive Transition (s : LiveSynesthesia.State) (ts : list LiveSynesthesia.Task)
  : LiveSynesthesia.Event -> LiveSynesthesia.Machine -> list Call -> Prop :=
| tr_nothing ev :
    Transition s ts ev {| LiveSynesthesia.state := s; LiveSynesthesia.tasks := ts |} []
| tr_calm ev s' new calls :
    sameRefs s s' -> Forall CalmTask new ->
    Forall (fun c => isTickCall c = false) calls ->
    Transition s ts ev
      {| LiveSynesthesia.state := s'; LiveSynesthesia.tasks := ts ++ new |} calls
| tr_start s' t :
    sameRefs s s' -> MicTask t ->
    Transition s ts LiveSynesthesia.clickStart
      {| LiveSynesthesia.state := s'; LiveSynesthesia.tasks := ts ++ [t] |}
      [getUserMedia]
| tr_data data :
    Transition s ts (LiveSynesthesia.dataAvailable data)
      {| LiveSynesthesia.state := LiveSynesthesia.ondataavailable data s;
         LiveSynesthesia.tasks := ts |} []
| tr_extract s' t :
    is_Some (LiveSynesthesia.intervalRef s) ->
    LiveSynesthesia.isProcessingRef s = false ->
    LiveSynesthesia.audioChunksRef s <> [] ->
    1024 <= size (tickBlob s) ->
    LiveSynesthesia.isProcessingRef s' = true ->
    LiveSynesthesia.audioChunksRef s' = [] ->
    TickTask t ->
    LiveSynesthesia.call t = fileToBase64 (tickBlob s) ->
    Transition s ts LiveSynesthesia.timerFires
      {| LiveSynesthesia.state := s'; LiveSynesthesia.tasks := ts ++ [t] |}
      [fileToBase64 (tickBlob s)]
| tr_discard s' :
    is_Some (LiveSynesthesia.intervalRef s) ->
    LiveSynesthesia.isProcessingRef s = false ->
    LiveSynesthesia.audioChunksRef s <> [] ->
    size (tickBlob s) < 1024 ->
    LiveSynesthesia.isProcessingRef s' = false ->
    LiveSynesthesia.audioChunksRef s' = [] ->
    Transition s ts LiveSynesthesia.timerFires
      {| LiveSynesthesia.state := s'; LiveSynesthesia.tasks := ts |} []
| tr_tick_done i t answer s' :
    ts !! i = Some t -> TickTask t ->
    LiveSynesthesia.isProcessingRef s' = false ->
    LiveSynesthesia.audioChunksRef s' = LiveSynesthesia.audioChunksRef s ->
    Transition s ts (LiveSynesthesia.settles i answer)
      {| LiveSynesthesia.state := s'; LiveSynesthesia.tasks := delete i ts |} []
| tr_tick_next i t answer s' t' :
    ts !! i = Some t -> TickTask t ->
    sameRefs s s' -> TickTask t' -> isStageCall (LiveSynesthesia.call t') = true ->
    Transition s ts (LiveSynesthesia.settles i answer)
      {| LiveSynesthesia.state := s'; LiveSynesthesia.tasks := delete i ts ++ [t'] |}
      [LiveSynesthesia.call t']
| tr_mic_done i t answer s' :
    ts !! i = Some t -> MicTask t ->
    LiveSynesthesia.isProcessingRef s' = LiveSynesthesia.isProcessingRef s ->
    (LiveSynesthesia.audioChunksRef s' = LiveSynesthesia.audioChunksRef s \/
     LiveSynesthesia.audioChunksRef s' = []) ->
    Transition s ts (LiveSynesthesia.settles i answer)
      {| LiveSynesthesia.state := s'; LiveSynesthesia.tasks := delete i ts |} []
| tr_calm_settled i t answer s' new calls :
    ts !! i = Some t -> CalmTask t ->
    sameRefs s s' -> Forall CalmTask new ->
    Forall (fun c => isTickCall c = false) calls ->
    Transition s ts (LiveSynesthesia.settles i answer)
      {| LiveSynesthesia.state := s';
         LiveSynesthesia.tasks := delete i ts ++ new |} calls.

(** The number of tick promises in a task list. *)
Definition ticks (ts : list LiveSynesthesia.Task) : nat :=
  length (List.filter (fun t => isTickCall (LiveSynesthesia.call t)) ts).



(** *** A concrete capture session *)

Definition atHome : Context :=
  {| location := lit "home"; areaType := lit "Urban"; timeOfDay := lit "Afternoon";
     activity := lit "reading"; gender := lit "Prefer not to say"; age := lit "30" |}.

Definition fiveImages : LiveSynesthesia.Config :=
  {| LiveSynesthesia.context := atHome;
     LiveSynesthesia.generationMode := LiveSynesthesia.count;
     LiveSynesthesia.imageCount := Some 5%Z;
     LiveSynesthesia.durationMinutes := Some 1%Z;
     LiveSynesthesia.interval := LiveSynesthesia.every15 |}.

(** Two kilobytes of recorded audio. *)
Definition chunk (timecode : N) : Blob := RecordedChunk timecode 2048 (lit "audio/webm").

Definition resolves (text : string) (c : Call) : Result (retType c) :=
  answerAll (lit text) (Finite 0) c.

Definition rejects (message : string) (c : Call) : Result (retType c) :=
  Rejected (ErrorObject (lit message)).

(** The flow is started, the microphone is granted, audio arrives and the
    first tick extracts it: its processing is in flight. *)
Definition firstTickInFlight : list (N * LiveSynesthesia.Event) :=
  [(1, LiveSynesthesia.clickStart);
   (2, LiveSynesthesia.settles 0 (resolves "stream"));
   (3, LiveSynesthesia.dataAvailable (chunk 0));
   (4, LiveSynesthesia.timerFires)].

(** The three calls of the tick in flight succeed. *)
Definition tickCompletes : list (N * LiveSynesthesia.Event) :=
  [(5, LiveSynesthesia.settles 0 (resolves "YXVkaW8="));
   (6, LiveSynesthesia.settles 0 (resolves "a quiet room"));
   (7, LiveSynesthesia.settles 0 (resolves "aW1hZ2U="))].

(** Two ticks, each processed to the end. *)
Definition twoTicksProcessed : list (N * LiveSynesthesia.Event) :=
  firstTickInFlight ++ tickCompletes
  ++ [(8, LiveSynesthesia.dataAvailable (chunk 1)); (9, LiveSynesthesia.timerFires)]
  ++ tickCompletes.

(** One image is captured, then the user stops the flow: the summary
    request is in flight. *)
Definition summaryInFlight : list (N * LiveSynesthesia.Event) :=
  firstTickInFlight ++ tickCompletes ++ [(8, LiveSynesthesia.clickStop)].





Definition machineAfter (trace : list (N * LiveSynesthesia.Event)) : LiveSynesthesia.Machine :=
  fst (LiveSynesthesia.run trace (LiveSynesthesia.mounted fiveImages)).

(** A storyboard environment in which only the summary request fails. *)
Definition onlySummaryFails : Oracle :=
  {| respond := fun _ c =>
       match c with
       | generateStorySummaryFromAudio _ _ =>
           Rejected (ErrorObject (lit "Failed to generate story summary."))
       | _ => answerAll (lit "eA==") (Finite 60) c
       end;
     clock := fun n => N.of_nat n |}.

(** The call the [i]-th pending promise is waiting on. *)
Definition pendingCall (m : LiveSynesthesia.Machine) (i : nat) : option Call :=
  LiveSynesthesia.call <$> LiveSynesthesia.tasks m !! i.

(** A capture aiming at a single image. *)
Definition oneImage : LiveSynesthesia.Config :=
  {| LiveSynesthesia.context := atHome;
     LiveSynesthesia.generationMode := LiveSynesthesia.count;
     LiveSynesthesia.imageCount := Some 1%Z;
     LiveSynesthesia.durationMinutes := Some 1%Z;
     LiveSynesthesia.interval := LiveSynesthesia.every15 |}.


(** ** Vocabulary of the further properties *)

(** A safety rating as the service reports it, with the prefix of its
    category, and the way a message shows it. *)
Definition harmRating (rated : jsstring * jsstring) : GenAI.SafetyRating :=
  {| GenAI.category := lit "HARM_CATEGORY_" ++ fst rated;
     GenAI.probability := snd rated |}.

Definition harmRatings (rated : option (list (jsstring * jsstring)))
  : option (list GenAI.SafetyRating) :=
  match rated with
  | Some rs => Some (harmRating <$> rs)
  | None => None
  end.

Definition shownRating (rated : jsstring * jsstring) : jsstring :=
  fst rated ++ lit ": " ++ snd rated.

Definition shownRatings (rated : option (list (jsstring * jsstring))) : jsstring :=
  match rated with
  | Some ((_ :: _) as rs) =>
      lit " Details: " ++ JSString.join (lit ", ") (shownRating <$> rs)
  | _ => []
  end.

(** A part of a response that carries image data. *)
Definition carriesImage (part : GenAI.Part) : bool :=
  JSString.truthyOpt
    (match GenAI.inlineData part with
     | Some inline => GenAI.data inline
     | None => None
     end).

(** A result that, when it is a failure, is an [Error] whose message is
    not empty, so that [err.message || fallback] is that message. *)
Definition carriesMessage (r : Result jsstring) : Prop :=
  match r with
  | Resolved _ => True
  | Rejected e =>
      exists m, e = ErrorObject m /\ m <> [] /\
                forall fallback, messageOr e fallback = m
  end.

(** A string without a comma, like a base64 payload. *)
Definition noComma (s : jsstring) : bool := forallb (fun c => negb (c =? 44)) s.

(** Byte ranges of [whole] that follow one another from [from] to [to]:
    each range starts where the previous one stops. *)
Fixpoint chained (whole : Blob) (mime : jsstring) (from to : N) (segments : list Blob)
  : Prop :=
  match segments with
  | [] => from = to
  | segment :: rest =>
      exists stop, segment = Slice whole from stop mime /\
                   from <= stop <= to /\
                   chained whole mime stop to rest
  end.

Definition totalSize (blobs : list Blob) : N := foldr (fun b acc => size b + acc) 0 blobs.

(** The file names of a storyboard, in order. *)
Definition sceneNames : list jsstring :=
  [lit "scene_01.jpg"; lit "scene_02.jpg"; lit "scene_03.jpg"; lit "scene_04.jpg";
   lit "scene_05.jpg"; lit "scene_06.jpg"; lit "scene_07.jpg"].

Definition inRange (file : File) : bool :=
  (VisualStoryboard.MIN_FILE_SIZE <=? fileSize file) && (fileSize file <=? MAX_FILE_SIZE).

(** An environment in which the audio element cannot read the file. *)
Definition unreadableAudio : Oracle :=
  {| respond := fun _ c =>
       match c return Result (retType c) with
       | getAudioDuration _ => AudioProbe.getAudioDuration AudioProbe.mediaError
       | c => answerAll (lit "dGV4dA==") (Finite 200) c
       end;
     clock := fun n => N.of_nat n |}.

(** The callbacks an [AudioInput] handler invoked, run in order by the
    session that rendered [r]. *)
Fixpoint deliver (r : CreatorStudio.State) (calls : list AudioInput.PropCall)
  : Async CreatorStudio.State unit :=
  match calls with
  | [] => Return tt
  | c :: rest => bind (CreatorStudio.audioInputProp r c) (fun _ => deliver r rest)
  end.

(** An edit request that asks for nothing: no edit text and no style. *)
Definition vacuousEdit (c : Call) : bool :=
  match c with
  | editImage _ _ prompt filter _ =>
      negb (truthy (trim prompt)) && isUnspecified filter
  | _ => false
  end.

Definition promptRequired : jsstring :=
  lit "A prompt is required to generate an image. Please type one or provide an audio file.".

(** The component state after one event, and the calls the event issued. *)
Definition stateAfter (now : N) (ev : LiveSynesthesia.Event) (m : LiveSynesthesia.Machine)
  : LiveSynesthesia.State :=
  LiveSynesthesia.state (fst (LiveSynesthesia.step now ev m)).

Definition callsAfter (now : N) (ev : LiveSynesthesia.Event) (m : LiveSynesthesia.Machine)
  : list Call :=
  snd (LiveSynesthesia.step now ev m).

Definition pendingAfter (now : N) (ev : LiveSynesthesia.Event) (m : LiveSynesthesia.Machine)
  : list Call :=
  LiveSynesthesia.call <$> LiveSynesthesia.tasks (fst (LiveSynesthesia.step now ev m)).

Definition pending (m : LiveSynesthesia.Machine) : list Call :=
  LiveSynesthesia.call <$> LiveSynesthesia.tasks m.

(** The prompts of the images of a capture, in order. *)
Definition promptsOf (images : list LiveSynesthesia.LiveImageData) : list jsstring :=
  (fun img => prompt (LiveSynesthesia.image img)) <$> images.

(** The closure of the render that enters RECORDING: no image yet. *)
Definition freshClosure (c : LiveSynesthesia.Config) : LiveSynesthesia.Closure :=
  {| LiveSynesthesia.seenImages := [];
     LiveSynesthesia.seenTotal := LiveSynesthesia.totalImagesToGenerate c;
     LiveSynesthesia.seenContext := LiveSynesthesia.context c |}.

Definition microphoneDenied : jsstring :=
  lit "Could not access microphone. Please ensure permissions are granted and refresh the page.".

(** The state [startFlow] leaves when it awaits the microphone. *)
Definition started (s : LiveSynesthesia.State) : LiveSynesthesia.State :=
  LiveSynesthesia.setLiveState LiveSynesthesia.RECORDING
    (LiveSynesthesia.setGeneratedImages (fun _ => [])
       (LiveSynesthesia.setError None s)).

(** A capture whose recorder has delivered a hundred bytes so far. *)
Definition shortAudioBuffered : list (N * LiveSynesthesia.Event) :=
  [(1, LiveSynesthesia.clickStart);
   (2, LiveSynesthesia.settles 0 (resolves "stream"));
   (3, LiveSynesthesia.dataAvailable (RecordedChunk 0 100 (lit "audio/webm")))].

(** One image captured, the capture still running. *)
Definition oneImageCaptured : list (N * LiveSynesthesia.Event) :=
  firstTickInFlight ++ tickCompletes.

(** *** Live capture: what holds in every state the component reaches *)

Definition namedFirst (img : LiveSynesthesia.LiveImageData) : Prop :=
  LiveSynesthesia.fileName img = lit "image_1.jpeg".

(** [s'] continues [s]: same timer and configuration, RECORDING not
    entered, images only appended, and named [image_1.jpeg] if those
    before were. *)
Definition continues (s s' : LiveSynesthesia.State) : Prop :=
  LiveSynesthesia.intervalRef s' = LiveSynesthesia.intervalRef s /\
  LiveSynesthesia.config s' = LiveSynesthesia.config s /\
  (LiveSynesthesia.liveState s' = LiveSynesthesia.RECORDING ->
   LiveSynesthesia.liveState s = LiveSynesthesia.RECORDING) /\
  LiveSynesthesia.generatedImages s `prefix_of` LiveSynesthesia.generatedImages s' /\
  (Forall namedFirst (LiveSynesthesia.generatedImages s) ->
   Forall namedFirst (LiveSynesthesia.generatedImages s')).

(** Scripts all of whose updates continue the state they find. *)
Inductive Quiet : Async LiveSynesthesia.State unit -> Prop :=
| quiet_return r : Quiet (Return r)
| quiet_throw e : Quiet (Throw e)
| quiet_update f k : (forall s, continues s (f s)) -> Quiet k -> Quiet (Update f k)
| quiet_now k : (forall t, Quiet (k t)) -> Quiet (Now k)
| quiet_await c k : (forall r, Quiet (k r)) -> Quiet (Await c k).

Definition QuietTask (t : LiveSynesthesia.Task) : Prop :=
  forall r, Quiet (LiveSynesthesia.resume t r).

(** The timer is installed exactly while RECORDING, and its callback is
    the one of the render that entered RECORDING. *)
Definition timerMatches (s : LiveSynesthesia.State) : Prop :=
  match LiveSynesthesia.intervalRef s with
  | Some cl =>
      LiveSynesthesia.liveState s = LiveSynesthesia.RECORDING /\
      cl = freshClosure (LiveSynesthesia.config s)
  | None => LiveSynesthesia.liveState s <> LiveSynesthesia.RECORDING
  end.

Definition steady (m : LiveSynesthesia.Machine) : Prop :=
  timerMatches (LiveSynesthesia.state m) /\
  Forall namedFirst (LiveSynesthesia.generatedImages (LiveSynesthesia.state m)) /\
  Forall QuietTask (LiveSynesthesia.tasks m).

(** Between a handler and the effects of its render: the timer still
    matches the state [prev] rendered before, unless the handler has
    cleared it on leaving RECORDING. *)
Definition pendingRender (prev cur : LiveSynesthesia.State) : Prop :=
  match LiveSynesthesia.intervalRef cur with
  | Some cl =>
      LiveSynesthesia.liveState prev = LiveSynesthesia.RECORDING /\
      cl = freshClosure (LiveSynesthesia.config cur)
  | None =>
      LiveSynesthesia.liveState prev = LiveSynesthesia.RECORDING ->
      LiveSynesthesia.liveState cur <> LiveSynesthesia.RECORDING
  end /\
  (LiveSynesthesia.liveState cur = LiveSynesthesia.RECORDING ->
   LiveSynesthesia.liveState prev <> LiveSynesthesia.RECORDING ->
   LiveSynesthesia.generatedImages cur = []) /\
  Forall namedFirst (LiveSynesthesia.generatedImages cur).

(** The number of renders the effects can still cause from a state. *)
Definition rounds (l : LiveSynesthesia.LiveState) : nat :=
  match l with
  | LiveSynesthesia.RECORDING => 2
  | LiveSynesthesia.GENERATING => 1
  | _ => 0
  end.

(** The buttons that begin a session anew. *)
Definition beginsAnew (ev : LiveSynesthesia.Event) : bool :=
  match ev with
  | LiveSynesthesia.clickStart | LiveSynesthesia.clickReset => true
  | _ => false
  end.

(** A run, started when [n] calls had been answered, that stops at the
    first rejected call: that call is the last one issued and its
    rejection is the outcome of the run. *)
Definition stopsAtFailure {St R} (o : Oracle) (n : nat)
    (x : St * Result R * list Call) : Prop :=
  forall (k : nat) (c : Call) (e : thrown),
    callsIssued x !! k = Some c ->
    respond o (n + k) c = Rejected e ->
    length (callsIssued x) = S k /\ completion x = Rejected e.
(** ** String trimming *)

Lemma trimStart_split (s : jsstring) :
  exists lead, s = lead ++ trimStart s /\ forallb isWhiteSpace lead = true.
Proof.
  induction s as [|c s [lead [Hs Hl]]]; simpl.
  - exists []. done.
  - destruct (isWhiteSpace c) eqn:Hc.
    + exists (c :: lead). simpl. rewrite Hc, Hl. split; [congruence | done].
    + exists []. done.
Qed.

Lemma trimStart_head (s : jsstring) :
  match trimStart s with c :: _ => isWhiteSpace c = false | [] => True end.
Proof.
  induction s as [|c s IH]; simpl; [done|].
  destruct (isWhiteSpace c) eqn:Hc; [exact IH | exact Hc].
Qed.

Lemma forallb_rev_true {A} (f : A -> bool) (l : list A) :
  forallb f l = true -> forallb f (rev l) = true.
Proof.
  rewrite !forallb_forall. intros H x Hx. apply H. by apply in_rev.
Qed.

Lemma trimEnd_split (s : jsstring) :
  exists trail, s = trimEnd s ++ trail /\ forallb isWhiteSpace trail = true.
Proof.
  unfold trimEnd. destruct (trimStart_split (rev s)) as [lead [Hs Hl]].
  exists (rev lead). split; [|by apply forallb_rev_true].
  rewrite <- rev_app_distr, <- Hs. by rewrite rev_involutive.
Qed.

Lemma last_rev_head {A} (l : list A) : last (rev l) = head l.
Proof.
  destruct l as [|x l]; simpl; [done|]. by rewrite last_snoc.
Qed.

Lemma trimEnd_last (s : jsstring) :
  match last (trimEnd s) with Some c => isWhiteSpace c = false | None => True end.
Proof.
  unfold trimEnd. rewrite last_rev_head.
  pose proof (trimStart_head (rev s)) as H.
  destruct (trimStart (rev s)); simpl; done.
Qed.

Lemma trim_split (s : jsstring) :
  exists lead trail,
    s = lead ++ trim s ++ trail /\
    forallb isWhiteSpace lead = true /\ forallb isWhiteSpace trail = true /\
    edgesClean (trim s) = true.
Proof.
  unfold trim.
  destruct (trimStart_split s) as [lead [Hs Hl]].
  destruct (trimEnd_split (trimStart s)) as [trail [Ht Htl]].
  exists lead, trail. repeat split; try done.
  - by rewrite <- Ht.
  - unfold edgesClean, notWhiteSpace. apply andb_true_intro. split.
    + pose proof (trimStart_head s) as Hh.
      destruct (trimEnd (trimStart s)) as [|c t] eqn:E; [done|].
      rewrite Ht in Hh. simpl in Hh. simpl. by rewrite Hh.
    + pose proof (trimEnd_last (trimStart s)) as Hlast.
      destruct (last (trimEnd (trimStart s))); [by rewrite Hlast | done].
Qed.

Lemma trimStart_clean (s : jsstring) :
  notWhiteSpace (head s) = true -> trimStart s = s.
Proof.
  destruct s as [|c s]; simpl; [done|].
  by destruct (isWhiteSpace c).
Qed.

Lemma trim_clean (s : jsstring) : edgesClean s = true -> trim s = s.
Proof.
  unfold edgesClean, trim, trimEnd. intros [Hh Hl]%andb_prop.
  rewrite (trimStart_clean s Hh).
  rewrite trimStart_clean; [apply rev_involutive|].
  by rewrite <- last_rev_head, rev_involutive.
Qed.

(** ** C2: style suffix formatting *)

(** C2 (as amended): with style [unspecified] the prompt is returned
    unchanged; with any other style the result is the prompt stripped of
    its leading and trailing white space, followed by exactly one
    [. Style: <phrase>.] suffix, the phrase being that of the one table
    [filterStyles]; both [generateImage] and [editImage] send the text
    formatted by this same function. *)
Theorem formatPromptWithFilter_trims_then_appends
    (prompt : jsstring) (filter : FilterType) :
  geminiService.formatPromptWithFilter prompt unspecified = prompt /\
  (filter <> unspecified ->
   exists lead core trail,
     prompt = lead ++ core ++ trail /\
     forallb isWhiteSpace lead = true /\
     forallb isWhiteSpace trail = true /\
     edgesClean core = true /\
     geminiService.formatPromptWithFilter prompt filter = core ++ styleSuffix filter) /\
  (filter <> unspecified -> edgesClean prompt = true ->
   geminiService.formatPromptWithFilter prompt filter = prompt ++ styleSuffix filter) /\
  geminiService.generateImage_parts prompt filter
    = [geminiService.textPart (geminiService.formatPromptWithFilter prompt filter)] /\
  (forall image mime remix,
     In (geminiService.textPart (geminiService.formatPromptWithFilter prompt filter))
        (geminiService.editImage_parts image mime prompt filter remix)).
Proof.
  split; [reflexivity|].
  split; [|split; [|split]].
  - intros Hf.
    destruct (trim_split prompt) as (lead & trail & Hp & Hl & Ht & Hc).
    exists lead, (trim prompt), trail. repeat split; try done.
    unfold geminiService.formatPromptWithFilter, styleSuffix.
    destruct filter; done.
  - intros Hf Hc.
    unfold geminiService.formatPromptWithFilter, styleSuffix.
    rewrite (trim_clean prompt Hc). destruct filter; done.
  - reflexivity.
  - intros image mime [[b m]|]; simpl; auto.
Qed.

Lemma formatPromptWithFilter_trims_then_appends_witness :
  photorealistic <> unspecified /\
  edgesClean (lit "a red fox") = true /\
  geminiService.formatPromptWithFilter (lit "a red fox") photorealistic
  = lit "a red fox" ++ styleSuffix photorealistic.
Proof.
  split; [discriminate|]. split; [reflexivity|].
  apply (formatPromptWithFilter_trims_then_appends (lit "a red fox") photorealistic);
    [discriminate | reflexivity].
Defined.

(** C2 as stated fails: a prompt with surrounding white space is not
    extended, it is trimmed first. *)
Lemma formatPromptWithFilter_not_plain_append :
  geminiService.formatPromptWithFilter (lit " a cat ") Anime
    <> lit " a cat " ++ styleSuffix Anime
  /\ geminiService.formatPromptWithFilter (lit " a cat ") Anime
    = lit "a cat. Style: vibrant anime style, clean line art, cel shaded.".
Proof. split; [discriminate | reflexivity]. Qed.

(** ** C4 and C7: the single-image history *)

Lemma editedPrompt_plain (previous e : jsstring) (s : FilterType) :
  CreatorStudio.editedPrompt previous e s = lineagePlain previous e s.
Proof.
  unfold CreatorStudio.editedPrompt, lineagePlain.
  destruct (isUnspecified s), e; simpl; by rewrite <- ?app_assoc, ?app_nil_r.
Qed.

(** What a successful edit leaves behind. *)
Lemma handleEdit_success
    (r : CreatorStudio.State) (selected : ImageData) (e : jsstring)
    (s : FilterType) (remix : option File) (o : Oracle) :
  CreatorStudio.activeImage r = Some selected ->
  CreatorStudio.error
    (finalState (exec o (CreatorStudio.handleEdit r e s remix) 0 r)) = None ->
  exists newImage,
    CreatorStudio.imageHistory
      (finalState (exec o (CreatorStudio.handleEdit r e s remix) 0 r))
      = CreatorStudio.imageHistory r ++ [newImage] /\
    prompt newImage = lineagePlain (prompt selected) e s /\
    CreatorStudio.activeImageIndex
      (finalState (exec o (CreatorStudio.handleEdit r e s remix) 0 r))
      = Some (length (CreatorStudio.imageHistory r)) /\
    CreatorStudio.activeImage
      (finalState (exec o (CreatorStudio.handleEdit r e s remix) 0 r))
      = Some newImage.
Proof.
  intros Hsel. unfold CreatorStudio.handleEdit. rewrite Hsel.
  destruct remix as [f|]; cbn.
  - destruct (respond o 0%nat (fileToBase64 (FileBlob f))) as [b|err]; cbn;
      [|discriminate].
    destruct (respond o 1%nat _) as [img|err]; cbn; [|discriminate].
    intros _. eexists. repeat split.
    + apply editedPrompt_plain.
    + f_equal. rewrite length_app. simpl. lia.
    + rewrite length_app. simpl.
      replace (length (CreatorStudio.imageHistory r) + 1 - 1)%nat
        with (length (CreatorStudio.imageHistory r) + 0)%nat by lia.
      by rewrite lookup_app_r, Nat.add_0_r, Nat.sub_diag by lia.
  - destruct (respond o 0%nat _) as [img|err]; cbn; [|discriminate].
    intros _. eexists. repeat split.
    + apply editedPrompt_plain.
    + f_equal. rewrite length_app. simpl. lia.
    + rewrite length_app. simpl.
      replace (length (CreatorStudio.imageHistory r) + 1 - 1)%nat
        with (length (CreatorStudio.imageHistory r) + 0)%nat by lia.
      by rewrite lookup_app_r, Nat.add_0_r, Nat.sub_diag by lia.
Qed.

(** C4 (as amended): a successful edit of the selected entry appends one
    entry whose prompt is the previous prompt, the separator, a line
    [Filter: <s>] only when the style is not [unspecified] and a line
    [Edit: <e>] only when the edit text is not empty (no brackets around
    either line), and selects the new entry. *)
Theorem handleEdit_appends_plain_lineage
    (r : CreatorStudio.State) (selected : ImageData) (e : jsstring)
    (s : FilterType) (remix : option File) (o : Oracle) :
  CreatorStudio.activeImage r = Some selected ->
  CreatorStudio.error
    (finalState (exec o (CreatorStudio.handleEdit r e s remix) 0 r)) = None ->
  exists newImage,
    CreatorStudio.imageHistory
      (finalState (exec o (CreatorStudio.handleEdit r e s remix) 0 r))
      = CreatorStudio.imageHistory r ++ [newImage] /\
    prompt newImage = lineagePlain (prompt selected) e s /\
    CreatorStudio.activeImageIndex
      (finalState (exec o (CreatorStudio.handleEdit r e s remix) 0 r))
      = Some (length (CreatorStudio.imageHistory r)) /\
    CreatorStudio.activeImage
      (finalState (exec o (CreatorStudio.handleEdit r e s remix) 0 r))
      = Some newImage.
Proof. apply handleEdit_success. Qed.

Lemma handleEdit_appends_plain_lineage_witness :
  exists newImage,
    CreatorStudio.imageHistory
      (finalState (exec (allSucceed (lit "ZWRpdA==") (Finite 0))
         (CreatorStudio.handleEdit (oneImageSession (lit "a fox")) (lit "add snow")
            Anime None) 0 (oneImageSession (lit "a fox"))))
      = CreatorStudio.imageHistory (oneImageSession (lit "a fox")) ++ [newImage] /\
    prompt newImage = lineagePlain (lit "a fox") (lit "add snow") Anime.
Proof.
  destruct (handleEdit_appends_plain_lineage (oneImageSession (lit "a fox"))
              {| id := 1; base64 := lit "aW1n"; prompt := lit "a fox" |}
              (lit "add snow") Anime None (allSucceed (lit "ZWRpdA==") (Finite 0))
              eq_refl eq_refl) as (newImage & Hh & Hp & _).
  exists newImage. split; [exact Hh | exact Hp].
Defined.

(** C4 as stated fails: the recorded lines carry no brackets. *)
Lemma handleEdit_lineage_has_no_brackets :
  (prompt <$> CreatorStudio.imageHistory
     (finalState (exec (allSucceed (lit "ZWRpdA==") (Finite 0))
        (CreatorStudio.handleEdit (oneImageSession (lit "a fox")) (lit "add snow")
           Anime None) 0 (oneImageSession (lit "a fox")))))
    = [lit "a fox";
       lit "a fox" ++ [10; 10] ++ lit "---" ++ [10] ++ lit "Filter: Anime"
                   ++ [10] ++ lit "Edit: add snow"]
  /\ lit "a fox" ++ [10; 10] ++ lit "---" ++ [10] ++ lit "Filter: Anime"
                 ++ [10] ++ lit "Edit: add snow"
     <> lineageBracketed (lit "a fox") (lit "add snow") Anime.
Proof. split; [reflexivity | discriminate]. Qed.

(** C7: from a typed, non-empty prompt, a successful generation leaves a
    history of exactly one selected root entry, and a successful edit
    right after it yields a history of length two whose second prompt
    starts with the whole prompt of the first. *)
Theorem createFromText_then_editActive
    (r : CreatorStudio.State) (o1 o2 : Oracle)
    (e : jsstring) (s : FilterType) (remix : option File) :
  CreatorStudio.audioFile r = None ->
  CreatorStudio.textPrompt r <> [] ->
  CreatorStudio.error
    (finalState (exec o1 (CreatorStudio.handleGeneration r) 0 r)) = None ->
  exists root,
    CreatorStudio.imageHistory
      (finalState (exec o1 (CreatorStudio.handleGeneration r) 0 r)) = [root] /\
    prompt root = CreatorStudio.textPrompt r /\
    CreatorStudio.activeImageIndex
      (finalState (exec o1 (CreatorStudio.handleGeneration r) 0 r)) = Some 0%nat /\
    (CreatorStudio.error
       (finalState (exec o2
          (CreatorStudio.handleEdit
             (finalState (exec o1 (CreatorStudio.handleGeneration r) 0 r)) e s remix)
          0 (finalState (exec o1 (CreatorStudio.handleGeneration r) 0 r)))) = None ->
     exists second,
       CreatorStudio.imageHistory
         (finalState (exec o2
            (CreatorStudio.handleEdit
               (finalState (exec o1 (CreatorStudio.handleGeneration r) 0 r)) e s remix)
            0 (finalState (exec o1 (CreatorStudio.handleGeneration r) 0 r))))
         = [root; second] /\
       prompt root `prefix_of` prompt second /\
       CreatorStudio.activeImageIndex
         (finalState (exec o2
            (CreatorStudio.handleEdit
               (finalState (exec o1 (CreatorStudio.handleGeneration r) 0 r)) e s remix)
            0 (finalState (exec o1 (CreatorStudio.handleGeneration r) 0 r))))
         = Some 1%nat).
Proof.
  intros Haudio Hne.
  assert (Hgen : forall s1,
            s1 = finalState (exec o1 (CreatorStudio.handleGeneration r) 0 r) ->
            CreatorStudio.error s1 = None ->
            exists root,
              CreatorStudio.imageHistory s1 = [root] /\
              prompt root = CreatorStudio.textPrompt r /\
              CreatorStudio.activeImageIndex s1 = Some 0%nat).
  { intros s1 ->. unfold CreatorStudio.handleGeneration. rewrite Haudio. cbn.
    destruct (truthy (trim (CreatorStudio.textPrompt r))); cbn; [|discriminate].
    destruct (respond o1 0%nat _) as [img|err]; cbn; [|discriminate].
    intros _. eexists. repeat split. }
  intros Hok.
  destruct (Hgen _ eq_refl Hok) as (root & Hhist & Hprompt & Hidx).
  exists root. repeat split; try done.
  intros Hok2.
  set (s1 := finalState (exec o1 (CreatorStudio.handleGeneration r) 0 r)) in *.
  assert (Hsel : CreatorStudio.activeImage s1 = Some root).
  { unfold CreatorStudio.activeImage. by rewrite Hidx, Hhist. }
  destruct (handleEdit_success s1 root e s remix o2 Hsel Hok2)
    as (second & Hh2 & Hp2 & Hi2 & _).
  exists second. rewrite Hh2, Hi2, Hhist. repeat split.
  rewrite Hp2. unfold lineagePlain. by eexists.
Qed.

Lemma createFromText_then_editActive_witness :
  exists root second,
    CreatorStudio.imageHistory
      (finalState (exec (allSucceed (lit "ZWRpdA==") (Finite 0))
         (CreatorStudio.handleEdit
            (finalState (exec (allSucceed (lit "aW1n") (Finite 0))
               (CreatorStudio.handleGeneration (typedPrompt (lit "a fox"))) 0
               (typedPrompt (lit "a fox"))))
            (lit "add snow") unspecified None) 0
         (finalState (exec (allSucceed (lit "aW1n") (Finite 0))
            (CreatorStudio.handleGeneration (typedPrompt (lit "a fox"))) 0
            (typedPrompt (lit "a fox"))))))
      = [root; second] /\
    prompt root `prefix_of` prompt second.
Proof.
  destruct (createFromText_then_editActive (typedPrompt (lit "a fox"))
              (allSucceed (lit "aW1n") (Finite 0))
              (allSucceed (lit "ZWRpdA==") (Finite 0))
              (lit "add snow") unspecified None eq_refl ltac:(discriminate) eq_refl)
    as (root & _ & _ & _ & Hedit).
  destruct (Hedit eq_refl) as (second & Hh & Hp & _).
  exists root, second. split; [exact Hh | exact Hp].
Defined.

(** ** C8: size bounds are checked before any call *)

Lemma hundredthsOfMB_nearest (bytes : N) :
  2097152 * hundredthsOfMB bytes <= 200 * bytes + 1048576
  /\ 200 * bytes + 1048576 < 2097152 * (hundredthsOfMB bytes + 1).
Proof.
  unfold hundredthsOfMB. split.
  - apply N.Div0.mul_div_le.
  - rewrite N.add_1_r. apply N.mul_succ_div_gt. discriminate.
Qed.

(** C8 (as amended): an audio file larger than 20 MB is refused by the
    file-selection and recording guards of the single-image session and
    by the storyboard before any call is issued; so is a storyboard file
    smaller than 1 MB.  The single-image messages report the size (in MB,
    rounded to two decimals) and the bound; the storyboard messages
    report the bound only. *)
Theorem out_of_range_audio_is_refused_without_calls (file : File) :
  (MAX_FILE_SIZE < fileSize file ->
   (forall current,
      AudioInput.handleFileChange current (Some file)
      = {| AudioInput.fileName := []; AudioInput.inputReset := true;
           AudioInput.propCalls :=
             [AudioInput.onError
                (lit "File is too large (" ++ toFixed2MB (fileSize file)
                 ++ lit "MB). Max size is 20MB.")] |}) /\
   AudioInput.handleRecordingDone file
   = {| AudioInput.fileName := []; AudioInput.inputReset := false;
        AudioInput.propCalls :=
          [AudioInput.onError
             (lit "Recording is too large (" ++ toFixed2MB (fileSize file)
              ++ lit "MB). Max size is 20MB.")] |} /\
   toFixed2MB (fileSize file)
   = ofN (hundredthsOfMB (fileSize file) / 100) ++ lit "."
     ++ padStart 2 48 (ofN (hundredthsOfMB (fileSize file) mod 100)) /\
   2097152 * hundredthsOfMB (fileSize file) <= 200 * fileSize file + 1048576 /\
   200 * fileSize file + 1048576 < 2097152 * (hundredthsOfMB (fileSize file) + 1) /\
   (forall r o message,
      exec o (CreatorStudio.audioInputProp r (AudioInput.onError message)) 0 r
      = (CreatorStudio.setError (Some message) r, Resolved tt, [])) /\
   (forall o s,
      exec o (VisualStoryboard.processFile file) 0 s
      = (storyboardRejected (lit "File is too large. Maximum size is 20MB."),
         Resolved tt, []))) /\
  (fileSize file < VisualStoryboard.MIN_FILE_SIZE ->
   forall o s,
     exec o (VisualStoryboard.processFile file) 0 s
     = (storyboardRejected (lit "File is too small. Minimum size is 1MB."),
        Resolved tt, [])).
Proof.
  split.
  - intros Hbig.
    assert (Hltb : (MAX_FILE_SIZE <? fileSize file) = true) by by apply N.ltb_lt.
    assert (Hmin : (fileSize file <? VisualStoryboard.MIN_FILE_SIZE) = false).
    { apply N.ltb_ge. unfold VisualStoryboard.MIN_FILE_SIZE, MAX_FILE_SIZE in *. lia. }
    repeat split.
    + intros current. unfold AudioInput.handleFileChange. by rewrite Hltb.
    + unfold AudioInput.handleRecordingDone. by rewrite Hltb.
    + apply hundredthsOfMB_nearest.
    + apply hundredthsOfMB_nearest.
    + intros o s. unfold VisualStoryboard.processFile. cbn.
      rewrite Hmin, Hltb. reflexivity.
  - intros Hsmall o s.
    unfold VisualStoryboard.processFile. cbn.
    apply N.ltb_lt in Hsmall. rewrite Hsmall. reflexivity.
Qed.

Lemma out_of_range_audio_is_refused_without_calls_witness :
  MAX_FILE_SIZE < fileSize (audioOfSize 22020096) /\
  AudioInput.handleRecordingDone (audioOfSize 22020096)
  = {| AudioInput.fileName := []; AudioInput.inputReset := false;
       AudioInput.propCalls :=
         [AudioInput.onError
            (lit "Recording is too large (" ++ toFixed2MB (fileSize (audioOfSize 22020096))
             ++ lit "MB). Max size is 20MB.")] |} /\
  fileSize (audioOfSize 4096) < VisualStoryboard.MIN_FILE_SIZE /\
  exec (allSucceed (lit "eA==") (Finite 0))
       (VisualStoryboard.processFile (audioOfSize 4096)) 0 VisualStoryboard.initial
  = (storyboardRejected (lit "File is too small. Minimum size is 1MB."), Resolved tt, []).
Proof.
  split; [reflexivity|]. split.
  - apply (out_of_range_audio_is_refused_without_calls (audioOfSize 22020096)).
    reflexivity.
  - split; [reflexivity|].
    apply (out_of_range_audio_is_refused_without_calls (audioOfSize 4096)).
    reflexivity.
Defined.

(** C8 as stated fails for the storyboard: its message is the same for
    every oversized file, so it does not report the offending size. *)
Lemma storyboard_message_omits_the_size :
  VisualStoryboard.error
    (finalState (exec (allSucceed (lit "eA==") (Finite 0))
       (VisualStoryboard.processFile (audioOfSize 22020096)) 0
       VisualStoryboard.initial))
  = Some (lit "File is too large. Maximum size is 20MB.")
  /\ VisualStoryboard.error
       (finalState (exec (allSucceed (lit "eA==") (Finite 0))
          (VisualStoryboard.processFile (audioOfSize 31457280)) 0
          VisualStoryboard.initial))
     = Some (lit "File is too large. Maximum size is 20MB.")
  /\ toFixed2MB 22020096 = lit "21.00"
  /\ toFixed2MB 31457280 = lit "30.00".
Proof. repeat split; reflexivity. Qed.

(** ** Running resumptions: sequencing laws *)

Lemma exec_bind {St A B} (o : Oracle) (m : Async St A) (f : A -> Async St B)
    (n : nat) (s : St) :
  exec o (bind m f) n s =
  match exec o m n s with
  | (s', Resolved a, calls) =>
      let '(s'', r, calls') := exec o (f a) (n + length calls) s' in
      (s'', r, calls ++ calls')
  | (s', Rejected e, calls) => (s', Rejected e, calls)
  end.
Proof.
  revert n s. induction m as [a|e|g k IH|k IH|c k IH]; intros n s; simpl.
  - rewrite Nat.add_0_r. destruct (exec o (f a) n s) as [[??]?]. reflexivity.
  - reflexivity.
  - apply IH.
  - apply IH.
  - rewrite IH.
    destruct (exec o (k (respond o n c)) (S n) s) as [[s' [a|e]] calls]; simpl; [|done].
    rewrite ?Nat.add_succ_r. simpl.
    destruct (exec o (f a) (S (n + length calls)) s') as [[??]?]. reflexivity.
Qed.

Lemma exec_tryCatch {St A} (o : Oracle) (m : Async St A) (h : thrown -> Async St A)
    (n : nat) (s : St) :
  exec o (tryCatch m h) n s =
  match exec o m n s with
  | (s', Resolved a, calls) => (s', Resolved a, calls)
  | (s', Rejected e, calls) =>
      let '(s'', r, calls') := exec o (h e) (n + length calls) s' in
      (s'', r, calls ++ calls')
  end.
Proof.
  revert n s. induction m as [a|e|g k IH|k IH|c k IH]; intros n s; simpl.
  - reflexivity.
  - rewrite Nat.add_0_r. destruct (exec o (h e) n s) as [[??]?]. reflexivity.
  - apply IH.
  - apply IH.
  - rewrite IH.
    destruct (exec o (k (respond o n c)) (S n) s) as [[s' [a|e]] calls]; simpl; [done|].
    rewrite ?Nat.add_succ_r. simpl.
    destruct (exec o (h e) (S (n + length calls)) s') as [[??]?]. reflexivity.
Qed.

Lemma exec_set {St} (o : Oracle) (f : St -> St) (n : nat) (s : St) :
  exec o (set f) n s = (f s, Resolved tt, []).
Proof. reflexivity. Qed.

Lemma exec_await_resolved {St} (o : Oracle) (c : Call) (v : retType c) (n : nat) (s : St) :
  respond o n c = Resolved v ->
  exec o (await c) n s = (s, Resolved v, [c]).
Proof. intros H. simpl. by rewrite H. Qed.

Lemma exec_await_rejected {St} (o : Oracle) (c : Call) (e : thrown) (n : nat) (s : St) :
  respond o n c = Rejected e ->
  exec o (await (St:=St) c) n s = (s, Rejected e, [c]).
Proof. intros H. simpl. by rewrite H. Qed.

(** ** The storyboard loop *)

Section Scenes.
Import VisualStoryboard.
Variable o : Oracle.
Variable file : File.
Variable total : N.

(** While every call succeeds, the loop issues three calls per segment
    and appends one image per segment, named by its ordinal. *)
Lemma generateScenes_all_succeed (segments : list Blob) :
  forall (i : nat) (built : list StoryboardImage) (n : nat) (s : State),
    (forall k c, (n <= k < n + 3 * length segments)%nat ->
                 exists v, respond o k c = Resolved v) ->
    images s = built ->
    exists (s' : State) (calls : list Call) (new : list StoryboardImage),
      exec o (generateScenes file total segments i built) n s
        = (s', Resolved tt, calls) /\
      length calls = (3 * length segments)%nat /\
      images s' = built ++ new /\
      fileName <$> new
        = (fun j : nat => sceneFileName (N.of_nat (i + j) + 1))
            <$> seq 0 (length segments) /\
      storyboardState s' = storyboardState s /\
      error s' = error s /\
      summary s' = summary s.
Proof.
  induction segments as [|segment rest IH]; intros i built n s Hok Himg.
  - exists s, [], []. simpl. rewrite app_nil_r. done.
  - simpl generateScenes.
    destruct (Hok n (fileToBase64 segment) ltac:(simpl; lia)) as [b64 Hb].
    destruct (Hok (S n)
                (generatePromptFromAudioSegment b64 (fileType file)
                   (N.of_nat i + 1) total) ltac:(simpl; lia)) as [p Hp].
    destruct (Hok (S (S n)) (generateImage p raphaelite_digital_art)
                ltac:(simpl; lia)) as [img Himage].
    cbn [exec bind set await]. rewrite Hb. cbn [exec bind]. rewrite Hp.
    cbn [exec bind set await]. rewrite Himage. cbn [exec bind now set].
    match goal with
    | |- context [exec o (generateScenes file total rest (S i) ?b) ?m ?st] =>
        destruct (IH (S i) b m st) as (s' & calls & new & He & Hlen & Hi & Hn & Hs & Her & Hsum)
    end.
    { intros k c Hk. apply Hok. simpl in *. lia. }
    { reflexivity. }
    rewrite He.
    eexists s', _, (_ :: new). split; [reflexivity|].
    repeat split.
    + simpl. rewrite Hlen. lia.
    + rewrite Hi. by rewrite <- app_assoc.
    + rewrite (fmap_cons fileName), Hn. cbn [length seq]. rewrite fmap_cons.
      f_equal.
      * cbn [fileName]. by rewrite Nat.add_0_r.
      * rewrite <- fmap_S_seq, <- list_fmap_compose.
        apply list_fmap_ext. intros ? j ?. simpl. by rewrite Nat.add_succ_r.
    + by rewrite Hs.
    + by rewrite Her.
    + by rewrite Hsum.
Qed.
End Scenes.

Lemma callsIssued_bind_set {St B} (o : Oracle) (f : St -> St) (k : unit -> Async St B)
    (n : nat) (s : St) :
  exec o (bind (set f) k) n s = exec o (k tt) n (f s).
Proof. reflexivity. Qed.

Lemma exec_bind_await {St B} (o : Oracle) (c : Call) (k : retType c -> Async St B)
    (n : nat) (s : St) :
  exec o (bind (await c) k) n s =
  match respond o n c with
  | Resolved v =>
      let '(s', r, calls) := exec o (k v) (S n) s in (s', r, c :: calls)
  | Rejected e => (s, Rejected e, [c])
  end.
Proof. simpl. by destruct (respond o n c). Qed.

Section ScenesCalls.
Import VisualStoryboard.
Variable o : Oracle.
Variable file : File.
Variable total : N.

(** Whatever the outcomes, every interpretation request of the loop
    names the same total. *)
Lemma generateScenes_calls_name_total (segments : list Blob) :
  forall (i : nat) (built : list StoryboardImage) (n : nat) (s : State),
    Forall (namesTotal total)
           (callsIssued (exec o (generateScenes file total segments i built) n s)).
Proof.
  induction segments as [|segment rest IH]; intros i built n s.
  - constructor.
  - cbn [generateScenes].
    rewrite callsIssued_bind_set, exec_bind_await.
    destruct (respond o n (fileToBase64 segment)) as [b64|e];
      [|repeat constructor].
    rewrite exec_bind_await.
    destruct (respond o (S n) _) as [p|e]; [|repeat constructor].
    rewrite callsIssued_bind_set, exec_bind_await.
    destruct (respond o (S (S n)) _) as [img|e]; [|repeat constructor].
    cbn [bind now exec]. rewrite callsIssued_bind_set.
    match goal with
    | |- context [exec o (generateScenes file total rest (S i) ?b) ?m ?st] =>
        pose proof (IH (S i) b m st) as Hrest;
        destruct (exec o (generateScenes file total rest (S i) b) m st) as [[s' r] calls]
    end.
    repeat constructor. exact Hrest.
Qed.
End ScenesCalls.

Lemma length_sliceSegments (file : File) (n : N) :
  length (VisualStoryboard.sliceSegments file n) = N.to_nat n.
Proof. unfold VisualStoryboard.sliceSegments. by rewrite length_fmap, length_seq. Qed.

(** ** C1: the number of storyboard segments *)

Lemma numSegmentsFor_long (q : Q) :
  (1800 <= q)%Q -> VisualStoryboard.numSegmentsFor (Finite q) = 7.
Proof.
  intros H. unfold VisualStoryboard.numSegmentsFor, geZ.
  replace (Qle_bool (inject_Z (30 * 60)) q) with true; [done|].
  symmetry. by apply Qle_bool_iff.
Qed.

Lemma Qle_bool_false (x y : Q) : (y < x)%Q -> Qle_bool x y = false.
Proof.
  intros H. destruct (Qle_bool x y) eqn:E; [|done].
  apply Qle_bool_iff in E. exfalso. eapply Qlt_not_le; eauto.
Qed.

Lemma numSegmentsFor_medium (q : Q) :
  (300 < q)%Q -> (q < 1800)%Q -> VisualStoryboard.numSegmentsFor (Finite q) = 5.
Proof.
  intros H1 H2. unfold VisualStoryboard.numSegmentsFor, geZ, gtZ.
  rewrite (Qle_bool_false (inject_Z (30 * 60)) q) by exact H2.
  by rewrite (Qle_bool_false q (inject_Z (5 * 60))) by exact H1.
Qed.

Lemma numSegmentsFor_short (q : Q) :
  (120 < q)%Q -> (q <= 300)%Q -> VisualStoryboard.numSegmentsFor (Finite q) = 4.
Proof.
  intros H1 H2. unfold VisualStoryboard.numSegmentsFor, geZ, gtZ.
  rewrite (Qle_bool_false (inject_Z (30 * 60)) q)
    by (eapply Qle_lt_trans; [exact H2 | reflexivity]).
  replace (Qle_bool q (inject_Z (5 * 60))) with true
    by (symmetry; by apply Qle_bool_iff).
  by rewrite (Qle_bool_false q (inject_Z (2 * 60))) by exact H1.
Qed.

Lemma numSegmentsFor_shortest (q : Q) :
  (q <= 120)%Q -> VisualStoryboard.numSegmentsFor (Finite q) = 3.
Proof.
  intros H. unfold VisualStoryboard.numSegmentsFor, geZ, gtZ.
  rewrite (Qle_bool_false (inject_Z (30 * 60)) q)
    by (eapply Qle_lt_trans; [exact H | reflexivity]).
  replace (Qle_bool q (inject_Z (5 * 60))) with true
    by (symmetry; apply Qle_bool_iff; eapply Qle_trans; [exact H | discriminate]).
  by replace (Qle_bool q (inject_Z (2 * 60))) with true
    by (symmetry; by apply Qle_bool_iff).
Qed.

Arguments lit : simpl never.

Ltac all_calls :=
  cbn; rewrite ?app_nil_r;
  repeat first [ assumption | apply Forall_app; split | constructor ].

Section StoryboardRun.
Import VisualStoryboard.
Variable o : Oracle.
Variable file : File.
Variable d : number.
Hypothesis accepted : MIN_FILE_SIZE <= fileSize file <= MAX_FILE_SIZE.
Hypothesis probed : respond o 0%nat (getAudioDuration (FileBlob file)) = Resolved d.

Let count : nat := N.to_nat (numSegmentsFor d).

Lemma processFile_calls_name_total (s : State) :
  Forall (namesTotal (numSegmentsFor d)) (callsIssued (exec o (processFile file) 0 s)).
Proof.
  destruct accepted as [Hmin Hmax].
  apply N.ltb_ge in Hmin. apply N.ltb_ge in Hmax.
  unfold processFile. rewrite Hmin, Hmax.
  cbn [resetState bind set exec tryCatch await]. rewrite probed.
  cbn [bind]. rewrite exec_tryCatch, exec_bind.
  match goal with
  | |- context [exec o (generateScenes ?f ?t ?segs ?i ?b) ?m ?st] =>
      pose proof (generateScenes_calls_name_total o f t segs i b m st) as Hloop;
      destruct (exec o (generateScenes f t segs i b) m st) as [[s1 [[]|e]] calls]
  end; unfold callsIssued in *; cbn [snd] in *.
  - cbn [exec].
    destruct (respond o _ (fileToBase64 (FileBlob file))) as [b64|e].
    + cbn [bind exec].
      match goal with
      | |- context [respond o ?k (generateStorySummaryFromAudio ?a ?b)] =>
          destruct (respond o k (generateStorySummaryFromAudio a b)) as [sm|e]
      end; all_calls.
    + all_calls.
  - all_calls.
Qed.

(** When the probe and every call up to the summary request succeed:
    one image per segment, then the outcome of the summary decides. *)
Lemma processFile_after_scenes (s : State) :
  (forall k c, (1 <= k < 2 + 3 * count)%nat -> exists v, respond o k c = Resolved v) ->
  exists (new : list StoryboardImage) (b64 : jsstring),
    length new = count /\
    fileName <$> new = (fun j : nat => sceneFileName (N.of_nat j + 1)) <$> seq 0 count /\
    images (finalState (exec o (processFile file) 0 s)) = new /\
    match respond o (2 + 3 * count)%nat
                  (generateStorySummaryFromAudio b64 (fileType file)) with
    | Resolved text =>
        storyboardState (finalState (exec o (processFile file) 0 s)) = FINISHED /\
        error (finalState (exec o (processFile file) 0 s)) = None /\
        summary (finalState (exec o (processFile file) 0 s)) = text
    | Rejected e =>
        storyboardState (finalState (exec o (processFile file) 0 s)) = ERROR /\
        error (finalState (exec o (processFile file) 0 s))
          = Some (messageOr e (lit "An unknown error occurred during processing.")) /\
        summary (finalState (exec o (processFile file) 0 s)) = []
    end.
Proof.
  intros Hok.
  destruct accepted as [Hmin Hmax].
  apply N.ltb_ge in Hmin. apply N.ltb_ge in Hmax.
  unfold processFile. rewrite Hmin, Hmax.
  cbn [resetState bind set exec tryCatch await]. rewrite probed.
  cbn [bind]. rewrite exec_tryCatch, exec_bind.
  match goal with
  | |- context [exec o (generateScenes ?f ?t ?segs ?i ?b) ?m ?st] =>
      destruct (generateScenes_all_succeed o f t segs i b m st)
        as (s1 & calls & new & He & Hlen & Hi & Hn & Hs & Her & Hsum)
  end.
  { intros k c Hk. apply Hok. rewrite length_sliceSegments in Hk. fold count in Hk. lia. }
  { reflexivity. }
  rewrite He. rewrite length_sliceSegments in *. fold count in Hlen, Hn.
  destruct (Hok (1 + 3 * count)%nat (fileToBase64 (FileBlob file)) ltac:(lia)) as [b64 Hb].
  exists new, b64.
  cbn [exec].
  replace (1 + length calls)%nat with (1 + 3 * count)%nat by lia.
  rewrite Hb. cbn [bind exec].
  replace (S (1 + 3 * count)) with (2 + 3 * count)%nat by lia.
  assert (Hcount : length new = count).
  { apply (f_equal length) in Hn. by rewrite !length_fmap, length_seq in Hn. }
  simpl in Hi. 
  destruct (respond o (2 + 3 * count)%nat _) as [text|e]; cbn.
  - repeat split; done.
  - repeat split; done.
Qed.
End StoryboardRun.

(** C1: the number of segments is the threshold function of the audio
    duration (7 from 1800 s on, 5 above 300 s, 4 above 120 s, 3
    otherwise), with the stated values at the boundaries; for every
    accepted file the pipeline slices the file into that many segments,
    names that total in every interpretation request, and produces that
    many images when all its calls succeed. *)
Theorem segment_count_is_a_function_of_duration :
  (forall q : Q, (1800 <= q)%Q -> VisualStoryboard.numSegmentsFor (Finite q) = 7) /\
  (forall q : Q, (300 < q)%Q -> (q < 1800)%Q ->
     VisualStoryboard.numSegmentsFor (Finite q) = 5) /\
  (forall q : Q, (120 < q)%Q -> (q <= 300)%Q ->
     VisualStoryboard.numSegmentsFor (Finite q) = 4) /\
  (forall q : Q, (q <= 120)%Q -> VisualStoryboard.numSegmentsFor (Finite q) = 3) /\
  VisualStoryboard.numSegmentsFor PosInfinity = 7 /\
  VisualStoryboard.numSegmentsFor NaN = 3 /\
  VisualStoryboard.numSegmentsFor (Finite 120) = 3 /\
  VisualStoryboard.numSegmentsFor (Finite 121) = 4 /\
  VisualStoryboard.numSegmentsFor (Finite 300) = 4 /\
  VisualStoryboard.numSegmentsFor (Finite 301) = 5 /\
  VisualStoryboard.numSegmentsFor (Finite 1799) = 5 /\
  VisualStoryboard.numSegmentsFor (Finite 1800) = 7 /\
  (forall (file : File) (o : Oracle) (d : number) (s : VisualStoryboard.State),
     VisualStoryboard.MIN_FILE_SIZE <= fileSize file <= MAX_FILE_SIZE ->
     respond o 0%nat (getAudioDuration (FileBlob file)) = Resolved d ->
     length (VisualStoryboard.sliceSegments file (VisualStoryboard.numSegmentsFor d))
       = N.to_nat (VisualStoryboard.numSegmentsFor d) /\
     Forall (namesTotal (VisualStoryboard.numSegmentsFor d))
            (callsIssued (exec o (VisualStoryboard.processFile file) 0 s)) /\
     ((forall k c, exists v, respond o k c = Resolved v) ->
      VisualStoryboard.storyboardState
        (finalState (exec o (VisualStoryboard.processFile file) 0 s))
        = VisualStoryboard.FINISHED /\
      length (VisualStoryboard.images
                (finalState (exec o (VisualStoryboard.processFile file) 0 s)))
        = N.to_nat (VisualStoryboard.numSegmentsFor d))).
Proof.
  split; [exact numSegmentsFor_long|].
  split; [exact numSegmentsFor_medium|].
  split; [exact numSegmentsFor_short|].
  split; [exact numSegmentsFor_shortest|].
  do 8 (split; [reflexivity|]).
  intros file o d s Hacc Hd.
  split; [apply length_sliceSegments|].
  split; [by apply processFile_calls_name_total|].
  intros Hok.
  destruct (processFile_after_scenes o file d Hacc Hd s) as (new & b64 & Hlen & _ & Hi & Hend).
  { intros k c _. apply Hok. }
  destruct (Hok (2 + 3 * N.to_nat (VisualStoryboard.numSegmentsFor d))%nat
              (generateStorySummaryFromAudio b64 (fileType file))) as [text Ht].
  rewrite Ht in Hend. destruct Hend as (Hfin & _ & _).
  split; [exact Hfin|]. by rewrite Hi.
Qed.

Lemma segment_count_is_a_function_of_duration_witness :
  VisualStoryboard.MIN_FILE_SIZE <= fileSize (audioOfSize 2097152) <= MAX_FILE_SIZE /\
  (301 < 1800)%Q /\
  VisualStoryboard.numSegmentsFor (Finite 301) = 5 /\
  length (VisualStoryboard.images
            (finalState (exec (allSucceed (lit "eA==") (Finite 301))
               (VisualStoryboard.processFile (audioOfSize 2097152)) 0
               VisualStoryboard.initial)))
    = N.to_nat (VisualStoryboard.numSegmentsFor (Finite 301)).
Proof.
  assert (Hacc : VisualStoryboard.MIN_FILE_SIZE <= fileSize (audioOfSize 2097152)
                 <= MAX_FILE_SIZE) by (split; discriminate).
  destruct segment_count_is_a_function_of_duration
    as (_ & Hmedium & _ & _ & _ & _ & _ & _ & _ & _ & _ & _ & Hrun).
  split; [exact Hacc|]. split; [reflexivity|].
  split; [apply Hmedium; reflexivity|].
  destruct (Hrun (audioOfSize 2097152) (allSucceed (lit "eA==") (Finite 301))
              (Finite 301) VisualStoryboard.initial Hacc eq_refl) as (_ & _ & Hall).
  apply Hall. intros k c. destruct c; eexists; reflexivity.
Defined.

(** ** Live capture: scripts and the refs they touch *)

Section LiveScripts.
Import LiveSynesthesia.

Lemma keeps_setLiveState v : keepsRefs (setLiveState v).
Proof. intros s. split; reflexivity. Qed.
Lemma keeps_setError v : keepsRefs (setError v).
Proof. intros s. split; reflexivity. Qed.
Lemma keeps_setGeneratedImages f : keepsRefs (setGeneratedImages f).
Proof. intros s. split; reflexivity. Qed.
Lemma keeps_setCurrentStatus v : keepsRefs (setCurrentStatus v).
Proof. intros s. split; reflexivity. Qed.
Lemma keeps_setIntervalRef v : keepsRefs (setIntervalRef v).
Proof. intros s. split; reflexivity. Qed.
Lemma keeps_setMediaRecorderRef v : keepsRefs (setMediaRecorderRef v).
Proof. intros s. split; reflexivity. Qed.
Lemma keeps_setSummaryRef v : keepsRefs (setSummaryRef v).
Proof. intros s. split; reflexivity. Qed.
Lemma keeps_stopLiveRecording : keepsRefs stopLiveRecording.
Proof.
  intros s. unfold stopLiveRecording.
  destruct (mediaRecorderRef s) as [[]|]; split; reflexivity.
Qed.

Lemma keepsRefs_keepsOrEmpties f : keepsRefs f -> keepsOrEmpties f.
Proof. intros H s. destruct (H s). auto. Qed.

Lemma empties_setAudioChunksRef : keepsOrEmpties (setAudioChunksRef []).
Proof. intros s. split; [reflexivity | right; reflexivity]. Qed.
End LiveScripts.

Create HintDb live.
#[local] Hint Resolve keeps_setLiveState keeps_setError keeps_setGeneratedImages
  keeps_setCurrentStatus keeps_setIntervalRef keeps_setMediaRecorderRef
  keeps_setSummaryRef keeps_stopLiveRecording keepsRefs_keepsOrEmpties
  empties_setAudioChunksRef : live.

Ltac calm :=
  repeat first
    [ apply calm_return
    | apply calm_throw
    | apply calm_update; [solve [auto with live] |]
    | apply calm_now; intros ?
    | apply calm_await;
      [reflexivity | reflexivity | intros ?; reflexivity | intros [?|?]; cbn] ].

Ltac tick_script :=
  repeat first
    [ apply tick_release
    | apply tick_update; [solve [auto with live] |]
    | apply tick_now; intros ?
    | apply tick_await; [reflexivity | intros ?; reflexivity | intros ?; cbn] ].

Section LiveHandlers.
Import LiveSynesthesia.

Lemma generateSummary_calm cl : Calm (generateSummary cl).
Proof. unfold generateSummary. case_bool_decide; cbn; calm. Qed.

Lemma effects_calm prev cur : Calm (effects prev cur).
Proof.
  unfold effects.
  destruct (negb (bool_decide (liveState prev = liveState cur)));
    destruct (negb (bool_decide (generatedImages prev = generatedImages cur)));
    destruct (bool_decide (liveState prev = RECORDING));
    destruct (bool_decide (liveState cur = RECORDING));
    destruct (bool_decide (liveState cur = GENERATING));
    destruct (reached (generatedImages cur) (totalImagesToGenerate (config cur)));
    cbn; calm; try apply generateSummary_calm.
Qed.

Lemma handleStop_calm r : Calm (handleStop r).
Proof. unfold handleStop. case_bool_decide; cbn; calm. Qed.

Lemma resetFlow_calm : Calm resetFlow.
Proof. cbn. calm. Qed.

(** The first promise of a tick's processing. *)
Lemma processing_starts cl blob idx :
  exists k,
    processing cl blob idx = Await (fileToBase64 blob) k /\
    TickTask {| call := fileToBase64 blob; resume := k |}.
Proof.
  eexists. split; [reflexivity|].
  split; [reflexivity|]. split; [intros e; reflexivity|].
  intros v. cbn. tick_script.
Qed.

(** [startFlow] up to its await of the microphone. *)
Lemma startFlow_starts :
  exists k,
    startFlow
    = Update (setError None)
        (Update (setGeneratedImages (fun _ => []))
           (Update (setLiveState RECORDING) (Await getUserMedia k))) /\
    MicTask {| call := getUserMedia; resume := k |}.
Proof.
  eexists. split; [reflexivity|]. split; [reflexivity|].
  intros [v|e]; cbn; repeat (constructor; auto with live).
Qed.
End LiveHandlers.

(** ** Live capture: one handler, one transition *)

Section LiveLaunch.
Import LiveSynesthesia.

Lemma sameRefs_refl s : sameRefs s s.
Proof. by split. Qed.

Lemma sameRefs_trans s1 s2 s3 : sameRefs s1 s2 -> sameRefs s2 s3 -> sameRefs s1 s3.
Proof. intros [H1 H2] [H3 H4]. split; congruence. Qed.

Lemma sameRefs_keeps f s : keepsRefs f -> sameRefs s (f s).
Proof. intros H. exact (H s). Qed.

Lemma launch_finished now script (s s' : State) ts r :
  advance now script s = (s', Finished r) ->
  launch now script {| state := s; tasks := ts |}
  = ({| state := s'; tasks := ts |}, []).
Proof. unfold launch. cbn [state tasks]. by intros ->. Qed.

Lemma launch_waiting now script (s s' : State) ts c k :
  advance now script s = (s', Waiting c k) ->
  launch now script {| state := s; tasks := ts |}
  = ({| state := s'; tasks := ts ++ [{| call := c; resume := k |}] |}, [c]).
Proof. unfold launch. cbn [state tasks]. by intros ->. Qed.

Lemma advance_calm script :
  Calm script ->
  forall now s,
    match advance now script s with
    | (s', Finished _) => sameRefs s s'
    | (s', Waiting c k) =>
        sameRefs s s' /\ CalmTask {| call := c; resume := k |}
    end.
Proof.
  induction 1 as [|e|f k Hf Hk IH|k Hk IH|c k Hc Hm Hrej Hk IH]; intros now s; cbn.
  - apply sameRefs_refl.
  - apply sameRefs_refl.
  - specialize (IH now (f s)).
    destruct (advance now k (f s)) as [s' [r|c' k']].
    + eapply sameRefs_trans; [by apply sameRefs_keeps | exact IH].
    + destruct IH as [IH1 IH2]. split; [|exact IH2].
      eapply sameRefs_trans; [by apply sameRefs_keeps | exact IH1].
  - apply IH.
  - split; [apply sameRefs_refl|]. by repeat split.
Qed.

Lemma advance_tick script :
  TickScript script ->
  forall now s,
    match advance now script s with
    | (s', Finished _) =>
        isProcessingRef s' = false /\ audioChunksRef s' = audioChunksRef s
    | (s', Waiting c k) =>
        sameRefs s s' /\ isStageCall c = true /\
        TickTask {| call := c; resume := k |}
    end.
Proof.
  induction 1 as [|f k Hf Hk IH|k Hk IH|c k Hc Hrej Hk IH]; intros now s; cbn.
  - by split.
  - specialize (IH now (f s)). destruct (Hf s) as [Hf1 Hf2].
    destruct (advance now k (f s)) as [s' [r|c' k']].
    + destruct IH as [IH1 IH2]. split; congruence.
    + destruct IH as ([IH1 IH2] & IH3 & IH4).
      split; [split; congruence|]. by split.
  - apply IH.
  - split; [apply sameRefs_refl|]. split; [done|].
    split; [|by split].
    cbn. by destruct c.
Qed.

Lemma advance_mic script :
  MicDone script ->
  forall now s,
    exists s' r,
      advance now script s = (s', Finished r) /\
      isProcessingRef s' = isProcessingRef s /\
      (audioChunksRef s' = audioChunksRef s \/ audioChunksRef s' = []).
Proof.
  induction 1 as [|e|f k Hf Hk IH]; intros now s; cbn.
  - eexists _, _. split; [reflexivity|]. auto.
  - eexists _, _. split; [reflexivity|]. auto.
  - destruct (IH now (f s)) as (s' & r & He & Hflag & Hbuf).
    destruct (Hf s) as [Hf1 Hf2].
    exists s', r. split; [done|]. split; [congruence|].
    destruct Hbuf as [Hbuf|Hbuf]; [|by right].
    destruct Hf2 as [Hf2|Hf2]; [left|right]; congruence.
Qed.

(** Launching a calm script: refs kept, at most one calm promise more. *)
Lemma launch_calm now script s ts :
  Calm script ->
  exists s' new calls,
    launch now script {| state := s; tasks := ts |}
    = ({| state := s'; tasks := ts ++ new |}, calls) /\
    sameRefs s s' /\ Forall CalmTask new /\
    Forall (fun c => isTickCall c = false) calls.
Proof.
  intros Hc. pose proof (advance_calm script Hc now s) as Ha.
  destruct (advance now script s) as [s' [r|c k]] eqn:E.
  - exists s', [], []. rewrite app_nil_r.
    split; [by eapply launch_finished|]. split; [exact Ha|]. split; constructor.
  - destruct Ha as [Hs Ht]. exists s', [{| call := c; resume := k |}], [c].
    split; [by apply launch_waiting|]. split; [exact Hs|].
    split; (constructor; [|constructor]); [exact Ht | apply Ht].
Qed.

Lemma commit_calm rounds : forall now prev s ts,
  exists s' new calls,
    commit rounds now prev {| state := s; tasks := ts |}
    = ({| state := s'; tasks := ts ++ new |}, calls) /\
    sameRefs s s' /\ Forall CalmTask new /\
    Forall (fun c => isTickCall c = false) calls.
Proof.
  induction rounds as [|rounds IH]; intros now prev s ts.
  - exists s, [], []. rewrite app_nil_r. cbn.
    split; [done|]. split; [apply sameRefs_refl|]. split; constructor.
  - cbn [commit state].
    destruct (launch_calm now (effects prev s) s ts (effects_calm prev s))
      as (s1 & new1 & calls1 & E1 & Hs1 & Hn1 & Hc1).
    rewrite E1.
    destruct (IH now s s1 (ts ++ new1)) as (s2 & new2 & calls2 & E2 & Hs2 & Hn2 & Hc2).
    rewrite E2. exists s2, (new1 ++ new2), (calls1 ++ calls2).
    rewrite app_assoc. split; [done|].
    split; [by eapply sameRefs_trans|].
    split; by apply Forall_app.
Qed.

(** When neither [liveState] nor the image list changed, no effect runs. *)
Lemma commit_idle rounds : forall now prev s ts,
  liveState prev = liveState s ->
  generatedImages prev = generatedImages s ->
  commit rounds now prev {| state := s; tasks := ts |}
  = ({| state := s; tasks := ts |}, []).
Proof.
  induction rounds as [|rounds IH]; intros now prev s ts Hl Hg; [done|].
  cbn [commit state]. unfold effects.
  rewrite (bool_decide_eq_true_2 _ Hl), (bool_decide_eq_true_2 _ Hg). cbn.
  unfold launch. cbn. by rewrite IH.
Qed.
End LiveLaunch.

Section LiveHandle.
Import LiveSynesthesia.

(** Every handler run is one of the transitions. *)
Lemma handle_transition now ev s ts :
  Forall knownTask ts ->
  Transition s ts ev
    (fst (handle now ev {| state := s; tasks := ts |}))
    (snd (handle now ev {| state := s; tasks := ts |})).
Proof.
  intros Hknown. destruct ev as [| | | |data|i answer]; cbn [handle state tasks].
  - (* clickStart *)
    destruct (startEnabled s); [|apply tr_nothing].
    destruct startFlow_starts as (k & -> & Hmic).
    erewrite launch_waiting by reflexivity. cbn [fst snd].
    apply tr_start; [|exact Hmic].
    by split.
  - (* clickStop *)
    case_bool_decide; [|apply tr_nothing].
    destruct (launch_calm now (handleStop s) s ts (handleStop_calm s))
      as (s' & new & calls & -> & Hs & Hn & Hc).
    by apply tr_calm.
  - (* clickReset *)
    case_bool_decide; [|apply tr_nothing].
    destruct (launch_calm now resetFlow s ts resetFlow_calm)
      as (s' & new & calls & -> & Hs & Hn & Hc).
    by apply tr_calm.
  - (* timerFires *)
    destruct (intervalRef s) as [cl|] eqn:Hint; [|apply tr_nothing].
    unfold processAudioChunk.
    destruct (isProcessingRef s) eqn:Hflag; [apply tr_nothing|].
    case_bool_decide as Hempty; [apply tr_nothing|]. cbn [orb].
    fold (tickBlob s).
    destruct (size (tickBlob s) <? 1024) eqn:Hsize.
    + erewrite launch_finished by reflexivity. cbn [fst snd].
      apply tr_discard;
        [by rewrite Hint | done | by destruct (audioChunksRef s)
        | by apply N.ltb_lt | done | done].
    + destruct (processing_starts cl (tickBlob s)
                  (N.of_nat (length (seenImages cl)) + 1)) as (k & Hk & Htask).
      cbn [bind set]. rewrite Hk.
      erewrite launch_waiting by reflexivity. cbn [fst snd].
      apply tr_extract;
        [by rewrite Hint | done | by destruct (audioChunksRef s)
        | by apply N.ltb_ge | done | done | done | done].
  - (* dataAvailable *)
    destruct (mediaRecorderRef s); [apply tr_data | apply tr_nothing].
  - (* settles *)
    destruct (ts !! i) as [t|] eqn:Ht; [|apply tr_nothing].
    pose proof (Forall_lookup_1 _ _ _ _ Hknown Ht) as [Htick|[Hmic|Hcalm]].
    + destruct Htick as (Hcall & Hrej & Hres).
      destruct (answer (call t)) as [v|e].
      * pose proof (advance_tick _ (Hres v) now s) as Ha.
        destruct (advance now (resume t (Resolved v)) s) as [s' [r|c k]] eqn:E.
        -- erewrite launch_finished by exact E. cbn [fst snd].
           eapply tr_tick_done; try done. apply Ha. apply Ha.
        -- erewrite launch_waiting by exact E. cbn [fst snd].
           destruct Ha as (Hs & Hstage & Htask).
           eapply (tr_tick_next s ts i t answer s' {| call := c; resume := k |});
             try done.
      * rewrite Hrej. erewrite launch_finished by reflexivity. cbn [fst snd].
        eapply tr_tick_done; try done.
    + destruct Hmic as (Hcall & Hdone).
      destruct (advance_mic _ (Hdone (answer (call t))) now s)
        as (s' & r & E & Hflag & Hbuf).
      erewrite launch_finished by exact E. cbn [fst snd].
      eapply tr_mic_done; try done.
    + pose proof Hcalm as (Hcall & Hnomic & Hrej & Hk).
      destruct (launch_calm now (resume t (answer (call t))) s (delete i ts)
                  (Hk _)) as (s' & new & calls & -> & Hs & Hn & Hc).
      cbn [fst snd]. eapply tr_calm_settled; try done.
Qed.
End LiveHandle.

(** ** Live capture: the invariant *)

Ltac by_cases_lia :=
  repeat match goal with
         | |- context [if ?b then _ else _] => destruct b
         | H : context [if ?b then _ else _] |- _ => destruct b
         end;
  cbn in *; try discriminate; lia.

Section LiveInvariant.
Import LiveSynesthesia.

Lemma ticks_app ts1 ts2 : ticks (ts1 ++ ts2) = (ticks ts1 + ticks ts2)%nat.
Proof. unfold ticks. by rewrite List.filter_app, length_app. Qed.

Lemma ticks_none ts :
  Forall (fun t => isTickCall (call t) = false) ts -> ticks ts = 0%nat.
Proof.
  unfold ticks. induction 1 as [|t ts Ht _ IH]; [done|].
  cbn. by rewrite Ht.
Qed.

Lemma ticks_calm ts : Forall CalmTask ts -> ticks ts = 0%nat.
Proof.
  intros H. apply ticks_none. eapply Forall_impl; [exact H|].
  by intros t (Ht & _).
Qed.

Lemma mic_call_not_tick c : isMicCall c = true -> isTickCall c = false.
Proof. by destruct c. Qed.

Lemma stage_call_is_tick c : isStageCall c = true -> isTickCall c = true.
Proof. by destruct c. Qed.

Lemma ticks_delete ts : forall i t,
  ts !! i = Some t ->
  ticks ts = ((if isTickCall (call t) then 1 else 0) + ticks (delete i ts))%nat.
Proof.
  induction ts as [|t' ts IH]; intros [|i] t Ht; try done.
  - cbn in Ht. injection Ht as ->. unfold ticks. cbn.
    by destruct (isTickCall (call t)).
  - cbn in Ht. specialize (IH i t Ht). unfold ticks in *. cbn.
    destruct (isTickCall (call t')); cbn; rewrite IH;
      destruct (isTickCall (call t)); reflexivity.
Qed.

Lemma ondataavailable_flag data s :
  isProcessingRef (ondataavailable data s) = isProcessingRef s.
Proof. unfold ondataavailable. by destruct (0 <? size data). Qed.

Lemma transition_consistent s ts ev m1 calls :
  consistent {| state := s; tasks := ts |} ->
  Transition s ts ev m1 calls ->
  consistent m1.
Proof.
  intros [Hknown Hcount]. unfold consistent, ticksInFlight in *.
  cbn [state tasks] in *. fold (ticks ts) in Hcount.
  destruct 1 as [ev|ev s' new calls [Hf _] Hnew _|s' t [Hf _] Hmic| data
                |s' t _ Hflag _ _ Hflag' _ Htask _
                |s' _ Hflag _ _ Hflag' _
                |i t answer s' Hi Htask Hflag' _
                |i t answer s' t' Hi Htask [Hf _] Htask' Hstage
                |i t answer s' Hi Hmic Hf _
                |i t answer s' new calls Hi Hcalm [Hf _] Hnew _];
    cbn [state tasks]; fold (ticks ts).
  - done.
  - split.
    + apply Forall_app. split; [done|].
      eapply Forall_impl; [exact Hnew|]. intros ? ?. unfold knownTask. auto.
    + fold (ticks (ts ++ new)). rewrite ticks_app, (ticks_calm new Hnew), Hf. by_cases_lia.
  - split.
    + apply Forall_app. split; [done|]. apply Forall_singleton. unfold knownTask. auto.
    + fold (ticks (ts ++ [t])). rewrite ticks_app, Hf.
      rewrite (ticks_none [t]); [by_cases_lia|].
      apply Forall_singleton. apply mic_call_not_tick. apply Hmic.
  - split; [done|]. by rewrite ondataavailable_flag.
  - split.
    + apply Forall_app. split; [done|]. apply Forall_singleton. unfold knownTask. auto.
    + fold (ticks (ts ++ [t])). rewrite ticks_app, Hflag'.
      rewrite Hflag in Hcount. rewrite Hcount.
      unfold ticks. cbn [List.filter]. destruct Htask as [Ht _]. by rewrite Ht.
  - split; [done|]. rewrite Hflag'. by rewrite Hflag in Hcount.
  - split; [by apply Forall_delete|].
    fold (ticks (delete i ts)). rewrite Hflag'.
    rewrite (ticks_delete ts i t Hi) in Hcount.
    destruct Htask as [Ht _]. rewrite Ht in Hcount. by_cases_lia.
  - split.
    + apply Forall_app. split; [by apply Forall_delete|].
      apply Forall_singleton. unfold knownTask. auto.
    + fold (ticks (delete i ts ++ [t'])). rewrite ticks_app, Hf.
      rewrite (ticks_delete ts i t Hi) in Hcount.
      destruct Htask as [Ht _]. rewrite Ht in Hcount.
      unfold ticks at 2. cbn. rewrite (stage_call_is_tick _ Hstage). cbn.
      by_cases_lia.
  - split; [by apply Forall_delete|].
    fold (ticks (delete i ts)). rewrite Hf.
    rewrite (ticks_delete ts i t Hi) in Hcount.
    destruct Hmic as [Hm _]. by rewrite (mic_call_not_tick _ Hm) in Hcount.
  - split.
    + apply Forall_app. split; [by apply Forall_delete|].
      eapply Forall_impl; [exact Hnew|]. intros ? ?. unfold knownTask. auto.
    + fold (ticks (delete i ts ++ new)).
      rewrite ticks_app, (ticks_calm new Hnew), Hf.
      rewrite (ticks_delete ts i t Hi) in Hcount.
      destruct Hcalm as [Ht _]. rewrite Ht in Hcount. by_cases_lia.
Qed.

(** The shape of one step: a handler transition, then calm effects. *)
Lemma step_shape now ev s ts :
  Forall knownTask ts ->
  exists s1 ts1 calls1 s2 new calls2,
    handle now ev {| state := s; tasks := ts |}
      = ({| state := s1; tasks := ts1 |}, calls1) /\
    Transition s ts ev {| state := s1; tasks := ts1 |} calls1 /\
    commit 3 now s {| state := s1; tasks := ts1 |}
      = ({| state := s2; tasks := ts1 ++ new |}, calls2) /\
    step now ev {| state := s; tasks := ts |}
      = ({| state := s2; tasks := ts1 ++ new |}, calls1 ++ calls2) /\
    sameRefs s1 s2 /\ Forall CalmTask new /\
    Forall (fun c => isTickCall c = false) calls2.
Proof.
  intros Hknown. pose proof (handle_transition now ev s ts Hknown) as Htr.
  unfold step. cbn [state].
  destruct (handle now ev {| state := s; tasks := ts |}) as [[s1 ts1] calls1].
  cbn [fst snd] in Htr.
  destruct (commit_calm 3 now s s1 ts1) as (s2 & new & calls2 & E & Hs & Hn & Hc).
  exists s1, ts1, calls1, s2, new, calls2. rewrite E.
  split; [reflexivity|]. split; [exact Htr|].
  split; [reflexivity|]. split; [reflexivity|]. auto.
Qed.

Lemma consistent_calm_more s1 ts1 s2 new :
  consistent {| state := s1; tasks := ts1 |} ->
  sameRefs s1 s2 -> Forall CalmTask new ->
  consistent {| state := s2; tasks := ts1 ++ new |}.
Proof.
  intros [Hknown Hcount] [Hf _] Hnew. unfold consistent, ticksInFlight in *.
  cbn [state tasks] in *. split.
  - apply Forall_app. split; [done|].
    eapply Forall_impl; [exact Hnew|]. intros ? ?. unfold knownTask. auto.
  - fold (ticks (ts1 ++ new)). fold (ticks ts1) in Hcount.
    rewrite ticks_app, (ticks_calm new Hnew), Hf. by_cases_lia.
Qed.

Lemma step_consistent now ev m :
  consistent m -> consistent (fst (step now ev m)).
Proof.
  destruct m as [s ts]. intros Hc.
  destruct (step_shape now ev s ts (proj1 Hc))
    as (s1 & ts1 & calls1 & s2 & new & calls2 & _ & Htr & _ & -> & Hs & Hn & _).
  cbn [fst]. eapply consistent_calm_more; [|exact Hs|exact Hn].
  by eapply transition_consistent.
Qed.

Lemma run_consistent trace : forall m,
  consistent m -> consistent (fst (run trace m)).
Proof.
  induction trace as [|[now ev] rest IH]; intros m Hc; [done|].
  cbn [run]. pose proof (step_consistent now ev m Hc) as H1.
  destruct (step now ev m) as [m1 calls1]. cbn [fst] in H1.
  specialize (IH m1 H1). by destruct (run rest m1) as [m2 calls2].
Qed.

Lemma mounted_consistent c : consistent (mounted c).
Proof. split; [constructor | reflexivity]. Qed.

Lemma reachable_consistent m : reachable m -> consistent m.
Proof.
  intros (c & trace & <-). apply run_consistent, mounted_consistent.
Qed.
End LiveInvariant.

(** ** Live capture: ticks and the audio buffer *)

Section LiveBuffer.
Import LiveSynesthesia.

Lemma ticks_positive ts i t :
  ts !! i = Some t -> isTickCall (call t) = true -> (1 <= ticks ts)%nat.
Proof. intros Hi Ht. rewrite (ticks_delete ts i t Hi), Ht. lia. Qed.

Lemma tick_in_flight_sets_flag m i t :
  consistent m -> tasks m !! i = Some t -> isTickCall (call t) = true ->
  isProcessingRef (state m) = true.
Proof.
  intros [_ Hcount] Hi Ht. pose proof (ticks_positive _ _ _ Hi Ht) as Hpos.
  unfold ticksInFlight in Hcount. fold (ticks (tasks m)) in Hcount.
  destruct (isProcessingRef (state m)); [done | lia].
Qed.

Lemma pending_tick_sets_flag m i c :
  consistent m -> pendingCall m i = Some c -> isTickCall c = true ->
  isProcessingRef (state m) = true.
Proof.
  unfold pendingCall. intros Hc Hi Ht.
  destruct (tasks m !! i) as [t|] eqn:E; [|done].
  injection Hi as <-. by eapply tick_in_flight_sets_flag.
Qed.

(** A tick that finds the flag set changes nothing and issues no call. *)
Lemma step_skips_tick now m :
  isProcessingRef (state m) = true -> step now timerFires m = (m, []).
Proof.
  destruct m as [s ts]. cbn [state]. intros Hflag.
  unfold step. cbn [handle state tasks].
  destruct (intervalRef s) as [cl|].
  - unfold processAudioChunk. rewrite Hflag. cbn [orb].
    erewrite launch_finished by reflexivity.
    by rewrite commit_idle.
  - by rewrite commit_idle.
Qed.

(** A tick that finds the flag clear and at least 1 KB buffered starts
    processing the whole buffer. *)
Lemma step_extracts now m cl :
  isProcessingRef (state m) = false ->
  intervalRef (state m) = Some cl ->
  audioChunksRef (state m) <> [] ->
  1024 <= size (tickBlob (state m)) ->
  snd (step now timerFires m) = [fileToBase64 (tickBlob (state m))] /\
  audioChunksRef (state (fst (step now timerFires m))) = [] /\
  isProcessingRef (state (fst (step now timerFires m))) = true.
Proof.
  destruct m as [s ts]. cbn [state]. intros Hflag Hint Hne Hsize.
  unfold step. cbn [handle state tasks]. rewrite Hint.
  unfold processAudioChunk. rewrite Hflag. cbn [orb].
  rewrite bool_decide_eq_false_2 by by destruct (audioChunksRef s).
  fold (tickBlob s).
  apply N.ltb_ge in Hsize. rewrite Hsize.
  destruct (processing_starts cl (tickBlob s)
              (N.of_nat (length (seenImages cl)) + 1)) as (k & Hk & _).
  cbn [bind set]. rewrite Hk.
  erewrite launch_waiting by reflexivity.
  rewrite commit_idle by reflexivity. by cbn.
Qed.

(** A tick that finds less than 1 KB buffered drops it. *)
Lemma step_discards now s ts cl :
  isProcessingRef s = false ->
  intervalRef s = Some cl ->
  audioChunksRef s <> [] ->
  size (tickBlob s) < 1024 ->
  step now timerFires {| state := s; tasks := ts |}
  = ({| state := setAudioChunksRef [] s; tasks := ts |}, []).
Proof.
  intros Hflag Hint Hne Hsize.
  unfold step. cbn [handle state tasks]. rewrite Hint.
  unfold processAudioChunk. rewrite Hflag. cbn [orb].
  rewrite bool_decide_eq_false_2 by by destruct (audioChunksRef s).
  fold (tickBlob s).
  apply N.ltb_lt in Hsize. rewrite Hsize.
  erewrite launch_finished by reflexivity.
  rewrite commit_idle by reflexivity.
  destruct s. cbn in *. by subst.
Qed.

Lemma extractions_app calls1 calls2 :
  extractions (calls1 ++ calls2) = extractions calls1 ++ extractions calls2.
Proof. apply flat_map_app. Qed.

Lemma extractions_none calls :
  Forall (fun c => isTickCall c = false) calls -> extractions calls = [].
Proof.
  induction 1 as [|c calls Hc _ IH]; [done|].
  unfold extractions in *. cbn [flat_map]. rewrite IH. by destruct c.
Qed.

Lemma extractions_stage c : isStageCall c = true -> extractions [c] = [].
Proof. by destruct c. Qed.

Lemma ondataavailable_buffer data s :
  audioChunksRef (ondataavailable data s) = audioChunksRef s \/
  audioChunksRef (ondataavailable data s) = audioChunksRef s ++ [data].
Proof. unfold ondataavailable. destruct (0 <? size data); auto. Qed.

(** One handler: what was extracted and what is still buffered were in
    the buffer before or have just been delivered. *)
Lemma transition_accounts s ts now ev m1 calls :
  Transition s ts ev m1 calls ->
  concat (extractions calls) ++ audioChunksRef (state m1)
    `sublist_of` audioChunksRef s ++ delivered [(now, ev)].
Proof.
  destruct 1 as [ev|ev s' new calls [_ Hb] _ Hcalls|s' t [_ Hb] _| data
                |s' t _ _ _ _ _ Hb' _ _
                |s' _ _ _ _ _ Hb'
                |i t answer s' _ _ _ Hb
                |i t answer s' t' _ _ [_ Hb] _ Hstage
                |i t answer s' _ _ _ Hb
                |i t answer s' new calls _ _ [_ Hb] _ Hcalls];
    cbn [state].
  - by apply sublist_inserts_r.
  - rewrite (extractions_none calls Hcalls), Hb. by apply sublist_inserts_r.
  - rewrite Hb. by apply sublist_inserts_r.
  - cbn. destruct (ondataavailable_buffer data s) as [-> | ->];
      [by apply sublist_inserts_r | done].
  - unfold tickBlob. cbn. rewrite Hb', !app_nil_r. done.
  - rewrite Hb'. cbn. apply sublist_nil_l.
  - rewrite Hb. by apply sublist_inserts_r.
  - rewrite (extractions_stage _ Hstage), Hb. by apply sublist_inserts_r.
  - destruct Hb as [-> | ->]; [by apply sublist_inserts_r | apply sublist_nil_l].
  - rewrite (extractions_none calls Hcalls), Hb. by apply sublist_inserts_r.
Qed.

Lemma step_accounts now ev m :
  consistent m ->
  concat (extractions (snd (step now ev m)))
    ++ audioChunksRef (state (fst (step now ev m)))
    `sublist_of` audioChunksRef (state m) ++ delivered [(now, ev)].
Proof.
  destruct m as [s ts]. intros Hc.
  destruct (step_shape now ev s ts (proj1 Hc))
    as (s1 & ts1 & calls1 & s2 & new & calls2 & _ & Htr & _ & -> & [_ Hb] & _ & Hc2).
  cbn [fst snd state].
  rewrite extractions_app, (extractions_none calls2 Hc2), app_nil_r, Hb.
  exact (transition_accounts s ts now ev _ _ Htr).
Qed.

Lemma delivered_cons e rest : delivered (e :: rest) = delivered [e] ++ delivered rest.
Proof. unfold delivered. cbn [flat_map]. by rewrite app_nil_r. Qed.

Lemma run_accounts trace : forall m,
  consistent m ->
  concat (extractions (snd (run trace m)))
    ++ audioChunksRef (state (fst (run trace m)))
    `sublist_of` audioChunksRef (state m) ++ delivered trace.
Proof.
  induction trace as [|[now ev] rest IH]; intros m Hc.
  - cbn. by rewrite app_nil_r.
  - cbn [run].
    pose proof (step_accounts now ev m Hc) as H1.
    pose proof (step_consistent now ev m Hc) as Hc1.
    destruct (step now ev m) as [m1 calls1]. cbn [fst snd] in *.
    specialize (IH m1 Hc1).
    destruct (run rest m1) as [m2 calls2]. cbn [fst snd] in *.
    rewrite extractions_app, concat_app, <- app_assoc.
    rewrite delivered_cons.
    etransitivity; [apply sublist_app; [reflexivity | exact IH]|].
    rewrite !app_assoc. apply sublist_app; [exact H1 | reflexivity].
Qed.
End LiveBuffer.

Section LivePrefix.
Import LiveSynesthesia.







End LivePrefix.

(** ** C5, C9, C10: ticks of the live capture *)

(** C5: while the processing of a tick is in flight, a tick that fires
    changes nothing, extracts nothing and issues no call; at most one
    tick is ever being processed; and over any run the chunks handed to
    processing attempts, taken together and in order, form a sublist of
    the chunks the recorder delivered, so no chunk is handed over twice. *)
Theorem tick_processing_is_mutually_exclusive :
  (forall m : LiveSynesthesia.Machine,
     reachable m ->
     (ticksInFlight m <= 1)%nat /\
     forall i c,
       pendingCall m i = Some c ->
       isTickCall c = true ->
       forall now,
         LiveSynesthesia.step now LiveSynesthesia.timerFires m = (m, [])) /\
  (forall (c : LiveSynesthesia.Config) (trace : list (N * LiveSynesthesia.Event)),
     concat (extractions (snd (LiveSynesthesia.run trace (LiveSynesthesia.mounted c))))
       `sublist_of` delivered trace).
Proof.
  split.
  - intros m Hreach. pose proof (reachable_consistent m Hreach) as Hc. split.
    + destruct Hc as [_ ->].
      by destruct (LiveSynesthesia.isProcessingRef (LiveSynesthesia.state m)); lia.
    + intros i c Hi Ht now. apply step_skips_tick.
      by eapply pending_tick_sets_flag.
  - intros c trace.
    pose proof (run_accounts trace (LiveSynesthesia.mounted c) (mounted_consistent c)) as H.
    cbn [LiveSynesthesia.mounted LiveSynesthesia.state LiveSynesthesia.initial
         LiveSynesthesia.audioChunksRef app] in H.
    etransitivity; [|exact H]. by apply sublist_inserts_r.
Qed.

Lemma machineAfter_reachable trace : reachable (machineAfter trace).
Proof. by exists fiveImages, trace. Qed.

Lemma tick_processing_is_mutually_exclusive_witness :
  reachable (machineAfter firstTickInFlight) /\
  pendingCall (machineAfter firstTickInFlight) 0
  = Some (fileToBase64 (NewBlob [chunk 0] (lit "audio/webm"))) /\
  LiveSynesthesia.step 5 LiveSynesthesia.timerFires (machineAfter firstTickInFlight)
  = (machineAfter firstTickInFlight, []).
Proof.
  split; [apply machineAfter_reachable|].
  split; [reflexivity|].
  destruct tick_processing_is_mutually_exclusive as [Hskip _].
  destruct (Hskip (machineAfter firstTickInFlight)
              (machineAfter_reachable firstTickInFlight)) as [_ H].
  exact (H 0%nat (fileToBase64 (NewBlob [chunk 0] (lit "audio/webm"))) eq_refl eq_refl 5).
Defined.



(** C9: when a call of a tick's processing is rejected, the only change
    to the machine is that the flag is released and the promise is gone:
    no image is appended, [liveState] and [error] stay as they were, no
    call is issued; no tick remains in flight, and the next tick that
    finds at least 1 KB buffered starts processing it. *)
Theorem tick_failure_is_swallowed (m : LiveSynesthesia.Machine) (i : nat)
    (c : Call) (answer : forall c : Call, Result (retType c))
    (e : thrown) (now : N) :
  reachable m ->
  pendingCall m i = Some c ->
  isTickCall c = true ->
  answer c = Rejected e ->
  LiveSynesthesia.step now (LiveSynesthesia.settles i answer) m
  = ({| LiveSynesthesia.state :=
          LiveSynesthesia.setIsProcessingRef false (LiveSynesthesia.state m);
        LiveSynesthesia.tasks := delete i (LiveSynesthesia.tasks m) |}, []) /\
  LiveSynesthesia.generatedImages
    (LiveSynesthesia.state (fst (LiveSynesthesia.step now (LiveSynesthesia.settles i answer) m)))
  = LiveSynesthesia.generatedImages (LiveSynesthesia.state m) /\
  LiveSynesthesia.liveState
    (LiveSynesthesia.state (fst (LiveSynesthesia.step now (LiveSynesthesia.settles i answer) m)))
  = LiveSynesthesia.liveState (LiveSynesthesia.state m) /\
  LiveSynesthesia.error
    (LiveSynesthesia.state (fst (LiveSynesthesia.step now (LiveSynesthesia.settles i answer) m)))
  = LiveSynesthesia.error (LiveSynesthesia.state m) /\
  LiveSynesthesia.isProcessingRef
    (LiveSynesthesia.state (fst (LiveSynesthesia.step now (LiveSynesthesia.settles i answer) m)))
  = false /\
  ticksInFlight (fst (LiveSynesthesia.step now (LiveSynesthesia.settles i answer) m))
  = 0%nat /\
  (forall now' cl,
     LiveSynesthesia.intervalRef (LiveSynesthesia.state m) = Some cl ->
     LiveSynesthesia.audioChunksRef (LiveSynesthesia.state m) <> [] ->
     1024 <= size (tickBlob (LiveSynesthesia.state m)) ->
     snd (LiveSynesthesia.step now' LiveSynesthesia.timerFires
            (fst (LiveSynesthesia.step now (LiveSynesthesia.settles i answer) m)))
     = [fileToBase64 (tickBlob (LiveSynesthesia.state m))]).
Proof.
  intros Hreach Hi Ht Hans.
  pose proof (reachable_consistent m Hreach) as Hc.
  unfold pendingCall in Hi.
  destruct (LiveSynesthesia.tasks m !! i) as [t|] eqn:Hi'; [|done].
  injection Hi as <-. rename Hi' into Hi.
  assert (Hrej : LiveSynesthesia.resume t (Rejected e)
                 = Update (LiveSynesthesia.setIsProcessingRef false) (Return tt)).
  { destruct (Forall_lookup_1 _ _ _ _ (proj1 Hc) Hi) as [Htick|[Hmic|Hcalm]].
    - apply Htick.
    - destruct Hmic as [Hmic _]. apply mic_call_not_tick in Hmic. congruence.
    - destruct Hcalm as [Hcalm _]. congruence. }
  assert (Hstep : LiveSynesthesia.step now (LiveSynesthesia.settles i answer) m
                  = ({| LiveSynesthesia.state :=
                          LiveSynesthesia.setIsProcessingRef false (LiveSynesthesia.state m);
                        LiveSynesthesia.tasks := delete i (LiveSynesthesia.tasks m) |}, [])).
  { unfold LiveSynesthesia.step. cbn [LiveSynesthesia.handle].
    rewrite Hi, Hans, Hrej.
    erewrite launch_finished by reflexivity.
    by rewrite commit_idle. }
  pose proof (step_consistent now (LiveSynesthesia.settles i answer) m Hc) as Hc'.
  rewrite Hstep in *. cbn [fst] in *.
  repeat split.
  - destruct Hc' as [_ Hcount]. exact Hcount.
  - intros now' cl Hint Hne Hsize.
    exact (proj1 (step_extracts now'
                    {| LiveSynesthesia.state :=
                         LiveSynesthesia.setIsProcessingRef false (LiveSynesthesia.state m);
                       LiveSynesthesia.tasks := delete i (LiveSynesthesia.tasks m) |}
                    cl eq_refl Hint Hne Hsize)).
Qed.

Lemma tick_failure_is_swallowed_witness :
  LiveSynesthesia.step 5 (LiveSynesthesia.settles 0 (rejects "Failed to analyze live audio."))
    (machineAfter firstTickInFlight)
  = ({| LiveSynesthesia.state :=
          LiveSynesthesia.setIsProcessingRef false
            (LiveSynesthesia.state (machineAfter firstTickInFlight));
        LiveSynesthesia.tasks := delete 0%nat (LiveSynesthesia.tasks (machineAfter firstTickInFlight)) |},
     []).
Proof.
  exact (proj1 (tick_failure_is_swallowed (machineAfter firstTickInFlight) 0%nat
                  (fileToBase64 (NewBlob [chunk 0] (lit "audio/webm")))
                  (rejects "Failed to analyze live audio.")
                  (ErrorObject (lit "Failed to analyze live audio.")) 5
                  (machineAfter_reachable firstTickInFlight) eq_refl eq_refl eq_refl)).
Defined.

(** ** C6: file names of the live images *)

(** C6 fails on the code: the interval keeps calling the
    [processAudioChunk] of the render that installed it, which sees an
    empty image list, so every image is named [image_1.jpeg]. *)
Lemma live_images_are_all_named_image_1 :
  LiveSynesthesia.fileName
    <$> LiveSynesthesia.generatedImages
          (LiveSynesthesia.state (machineAfter twoTicksProcessed))
  = [lit "image_1.jpeg"; lit "image_1.jpeg"]
  /\ (fun img => prompt (LiveSynesthesia.image img))
       <$> LiveSynesthesia.generatedImages
             (LiveSynesthesia.state (machineAfter twoTicksProcessed))
     = [lit "a quiet room"; lit "a quiet room"]
  /\ LiveSynesthesia.liveState (LiveSynesthesia.state (machineAfter twoTicksProcessed))
     = LiveSynesthesia.RECORDING.
Proof. repeat split; vm_compute; reflexivity. Qed.

(** ** C3: a failing summary request *)

Section LiveSummary.
Import LiveSynesthesia.

Lemma stopLiveRecording_frame s :
  liveState (stopLiveRecording s) = liveState s /\
  error (stopLiveRecording s) = error s /\
  summaryRef (stopLiveRecording s) = summaryRef s /\
  generatedImages (stopLiveRecording s) = generatedImages s.
Proof.
  unfold stopLiveRecording. by destruct (mediaRecorderRef s) as [[]|].
Qed.

(** Once [liveState] is [FINISHED], the effects start nothing. *)
Lemma commit_finished rounds : forall now prev s ts,
  liveState s = FINISHED ->
  exists s2,
    commit rounds now prev {| state := s; tasks := ts |}
    = ({| state := s2; tasks := ts |}, []) /\
    liveState s2 = FINISHED /\ error s2 = error s /\
    summaryRef s2 = summaryRef s /\ generatedImages s2 = generatedImages s.
Proof.
  induction rounds as [|rounds IH]; intros now prev s ts Hfin.
  - by exists s.
  - cbn [commit state]. unfold effects. rewrite Hfin.
    rewrite (bool_decide_eq_false_2 (FINISHED = RECORDING)) by discriminate.
    rewrite (bool_decide_eq_false_2 (FINISHED = GENERATING)) by discriminate.
    rewrite !andb_false_r. cbn [andb].
    destruct (stopLiveRecording_frame s) as (H1 & H2 & H3 & H4).
    destruct (negb (bool_decide (liveState prev = FINISHED))
              && bool_decide (liveState prev = RECORDING)).
    + erewrite launch_finished by reflexivity.
      destruct (IH now s (stopLiveRecording s) ts) as (s2 & -> & ? & ? & ? & ?);
        [congruence|].
      exists s2. repeat split; congruence.
    + erewrite launch_finished by reflexivity.
      destruct (IH now s s ts Hfin) as (s2 & -> & ? & ? & ? & ?).
      by exists s2.
Qed.
End LiveSummary.

(** C3 (as amended): in the live capture, when the summary request is
    rejected the pipeline still reaches [FINISHED], with the placeholder
    summary and a notice in [error], and keeps its images; in the
    storyboard, when every segment succeeds and only the summary request
    is rejected, the pipeline ends in [ERROR] with that failure's message
    (the images produced so far stay in the state). *)
Theorem summary_failure_outcomes :
  (forall (m : LiveSynesthesia.Machine) (i : nat)
          (prompts : list jsstring) (ctx : Context)
          (answer : forall c : Call, Result (retType c)) (e : thrown) (now : N),
     reachable m ->
     pendingCall m i = Some (generateSummaryMarkdown prompts ctx) ->
     answer (generateSummaryMarkdown prompts ctx) = Rejected e ->
     LiveSynesthesia.liveState
       (LiveSynesthesia.state
          (fst (LiveSynesthesia.step now (LiveSynesthesia.settles i answer) m)))
     = LiveSynesthesia.FINISHED /\
     LiveSynesthesia.summaryRef
       (LiveSynesthesia.state
          (fst (LiveSynesthesia.step now (LiveSynesthesia.settles i answer) m)))
     = Some (lit "Summary generation failed.") /\
     LiveSynesthesia.error
       (LiveSynesthesia.state
          (fst (LiveSynesthesia.step now (LiveSynesthesia.settles i answer) m)))
     = Some (lit "Could not generate summary. You can still download the images.") /\
     LiveSynesthesia.generatedImages
       (LiveSynesthesia.state
          (fst (LiveSynesthesia.step now (LiveSynesthesia.settles i answer) m)))
     = LiveSynesthesia.generatedImages (LiveSynesthesia.state m)) /\
  (forall (file : File) (o : Oracle) (d : number) (e : thrown)
          (s : VisualStoryboard.State),
     VisualStoryboard.MIN_FILE_SIZE <= fileSize file <= MAX_FILE_SIZE ->
     respond o 0%nat (getAudioDuration (FileBlob file)) = Resolved d ->
     (forall k c, (1 <= k < 2 + 3 * N.to_nat (VisualStoryboard.numSegmentsFor d))%nat ->
                  exists v, respond o k c = Resolved v) ->
     (forall c, respond o (2 + 3 * N.to_nat (VisualStoryboard.numSegmentsFor d))%nat c
                = Rejected e) ->
     VisualStoryboard.storyboardState
       (finalState (exec o (VisualStoryboard.processFile file) 0 s))
     = VisualStoryboard.ERROR /\
     VisualStoryboard.error
       (finalState (exec o (VisualStoryboard.processFile file) 0 s))
     = Some (messageOr e (lit "An unknown error occurred during processing.")) /\
     length (VisualStoryboard.images
               (finalState (exec o (VisualStoryboard.processFile file) 0 s)))
     = N.to_nat (VisualStoryboard.numSegmentsFor d)).
Proof.
  split.
  - intros m i prompts ctx answer e now Hreach Hi Hans.
    pose proof (reachable_consistent m Hreach) as Hc.
    unfold pendingCall in Hi.
    destruct (LiveSynesthesia.tasks m !! i) as [t|] eqn:Hi'; [|done].
    injection Hi as Hcall. rename Hi' into Hi. rewrite <- Hcall in Hans.
    assert (Hrej : LiveSynesthesia.resume t (Rejected e) = summaryFallback).
    { destruct (Forall_lookup_1 _ _ _ _ (proj1 Hc) Hi) as [Htick|[Hmic|Hcalm]].
      - destruct Htick as [Htick _]. rewrite Hcall in Htick. discriminate.
      - destruct Hmic as [Hmic _]. rewrite Hcall in Hmic. discriminate.
      - apply Hcalm. }
    unfold LiveSynesthesia.step. cbn [LiveSynesthesia.handle].
    rewrite Hi, Hans, Hrej. unfold summaryFallback.
    erewrite launch_finished by reflexivity.
    match goal with
    | |- context [LiveSynesthesia.commit 3 now ?prev
                    {| LiveSynesthesia.state := ?s1; LiveSynesthesia.tasks := ?ts |}] =>
        destruct (commit_finished 3 now prev s1 ts eq_refl)
          as (s2 & -> & H1 & H2 & H3 & H4)
    end.
    cbn [fst LiveSynesthesia.state]. by rewrite H1, H2, H3, H4.
  - intros file o d e s Hacc Hd Hok Hfail.
    destruct (processFile_after_scenes o file d Hacc Hd s Hok)
      as (new & b64 & Hlen & _ & Hi & Hend).
    rewrite Hfail in Hend. destruct Hend as (H1 & H2 & _).
    by rewrite Hi.
Qed.

Lemma summary_failure_outcomes_witness :
  reachable (machineAfter summaryInFlight) /\
  LiveSynesthesia.liveState (LiveSynesthesia.state (machineAfter summaryInFlight))
  = LiveSynesthesia.GENERATING /\
  pendingCall (machineAfter summaryInFlight) 0
  = Some (generateSummaryMarkdown [lit "a quiet room"] atHome) /\
  LiveSynesthesia.liveState
    (LiveSynesthesia.state
       (fst (LiveSynesthesia.step 9
               (LiveSynesthesia.settles 0 (rejects "Failed to generate summary."))
               (machineAfter summaryInFlight))))
  = LiveSynesthesia.FINISHED.
Proof.
  split; [apply machineAfter_reachable|]. split; [reflexivity|].
  split; [reflexivity|].
  destruct summary_failure_outcomes as [Hlive _].
  exact (proj1 (Hlive (machineAfter summaryInFlight) 0%nat [lit "a quiet room"] atHome
                  (rejects "Failed to generate summary.")
                  (ErrorObject (lit "Failed to generate summary.")) 9
                  (machineAfter_reachable summaryInFlight) eq_refl eq_refl)).
Defined.

(** C3 as stated fails for the storyboard: with every segment succeeding
    and only the summary request rejected, the run ends in [ERROR]. *)
Lemma storyboard_summary_failure_is_fatal :
  VisualStoryboard.storyboardState
    (finalState (exec onlySummaryFails
       (VisualStoryboard.processFile (audioOfSize 2097152)) 0 VisualStoryboard.initial))
  = VisualStoryboard.ERROR
  /\ VisualStoryboard.storyboardState
       (finalState (exec onlySummaryFails
          (VisualStoryboard.processFile (audioOfSize 2097152)) 0 VisualStoryboard.initial))
     <> VisualStoryboard.FINISHED
  /\ VisualStoryboard.error
       (finalState (exec onlySummaryFails
          (VisualStoryboard.processFile (audioOfSize 2097152)) 0 VisualStoryboard.initial))
     = Some (lit "Failed to generate story summary.")
  /\ length (VisualStoryboard.images
               (finalState (exec onlySummaryFails
                  (VisualStoryboard.processFile (audioOfSize 2097152)) 0
                  VisualStoryboard.initial)))
     = 3%nat.
Proof. repeat split; vm_compute; (reflexivity || discriminate). Qed.

(** ** Two complete runs *)

(** A storyboard run in which every call succeeds: three scenes for a
    one-minute file, named by their ordinals, and twelve calls. *)
Example storyboard_run_of_three_scenes :
  VisualStoryboard.fileName
    <$> VisualStoryboard.images
          (finalState (exec (allSucceed (lit "eA==") (Finite 60))
             (VisualStoryboard.processFile (audioOfSize 2097152)) 0
             VisualStoryboard.initial))
  = [lit "scene_01.jpg"; lit "scene_02.jpg"; lit "scene_03.jpg"]
  /\ VisualStoryboard.storyboardState
       (finalState (exec (allSucceed (lit "eA==") (Finite 60))
          (VisualStoryboard.processFile (audioOfSize 2097152)) 0
          VisualStoryboard.initial))
     = VisualStoryboard.FINISHED
  /\ length (callsIssued (exec (allSucceed (lit "eA==") (Finite 60))
               (VisualStoryboard.processFile (audioOfSize 2097152)) 0
               VisualStoryboard.initial))
     = 12%nat
  /\ VisualStoryboard.sliceSegments (audioOfSize 2097152) 3
     = [Slice (FileBlob (audioOfSize 2097152)) 0 699050 (lit "audio/mpeg");
        Slice (FileBlob (audioOfSize 2097152)) 699050 1398100 (lit "audio/mpeg");
        Slice (FileBlob (audioOfSize 2097152)) 1398100 2097152 (lit "audio/mpeg")].
Proof. repeat split; vm_compute; reflexivity. Qed.

(** A live capture aiming at one image: the image that reaches the
    target stops the capture and starts the summary, whose result ends
    the run. *)
Example live_run_of_one_image :
  LiveSynesthesia.liveState
    (LiveSynesthesia.state
       (fst (LiveSynesthesia.run (firstTickInFlight ++ tickCompletes)
               (LiveSynesthesia.mounted oneImage))))
  = LiveSynesthesia.GENERATING
  /\ pendingCall
       (fst (LiveSynesthesia.run (firstTickInFlight ++ tickCompletes)
               (LiveSynesthesia.mounted oneImage))) 0
     = Some (generateSummaryMarkdown [lit "a quiet room"] atHome)
  /\ LiveSynesthesia.intervalRef
       (LiveSynesthesia.state
          (fst (LiveSynesthesia.run (firstTickInFlight ++ tickCompletes)
                  (LiveSynesthesia.mounted oneImage))))
     = None
  /\ LiveSynesthesia.liveState
       (LiveSynesthesia.state
          (fst (LiveSynesthesia.run
                  (firstTickInFlight ++ tickCompletes
                   ++ [(8, LiveSynesthesia.settles 0 (resolves "# A quiet room"))])
                  (LiveSynesthesia.mounted oneImage))))
     = LiveSynesthesia.FINISHED
  /\ LiveSynesthesia.summaryRef
       (LiveSynesthesia.state
          (fst (LiveSynesthesia.run
                  (firstTickInFlight ++ tickCompletes
                   ++ [(8, LiveSynesthesia.settles 0 (resolves "# A quiet room"))])
                  (LiveSynesthesia.mounted oneImage))))
     = Some (lit "# A quiet room").
Proof. repeat split; vm_compute; reflexivity. Qed.
(** ** The facade: responses and failures *)

Lemma replace_unfold (pattern replacement s : jsstring) :
  JSString.replace pattern replacement s =
  if JSString.startsWith pattern s
  then replacement ++ drop (length pattern) s
  else match s with
       | [] => []
       | c :: s' => c :: JSString.replace pattern replacement s'
       end.
Proof. by destruct s. Qed.

Lemma startsWith_app (pattern s : jsstring) :
  JSString.startsWith pattern (pattern ++ s) = true.
Proof.
  induction pattern as [|p pattern IH]; simpl; [done|].
  by rewrite N.eqb_refl, IH.
Qed.

Lemma replace_prefix (pattern replacement s : jsstring) :
  JSString.replace pattern replacement (pattern ++ s) = replacement ++ s.
Proof.
  rewrite replace_unfold, startsWith_app. by rewrite drop_app_length.
Qed.

Lemma ratingDetail_harmRating (rated : jsstring * jsstring) :
  Facade.ratingDetail (harmRating rated) = shownRating rated.
Proof.
  unfold Facade.ratingDetail, harmRating, shownRating. cbn [GenAI.category GenAI.probability].
  by rewrite replace_prefix.
Qed.

Lemma join_shown_truthy (r : jsstring * jsstring) (rs : list (jsstring * jsstring)) :
  truthy (JSString.join (lit ", ") (shownRating <$> (r :: rs))) = true.
Proof.
  destruct r as [k l]. cbn [fmap list_fmap JSString.join].
  destruct (shownRating <$> rs);
    unfold shownRating; cbn [fst snd]; by destruct k.
Qed.

Lemma safetyDetails_harmRatings (rated : option (list (jsstring * jsstring))) (message : jsstring) :
  Facade.withDetails message (Facade.safetyDetails (harmRatings rated))
  = message ++ shownRatings rated.
Proof.
  destruct rated as [[|r rs]|]; cbn [harmRatings Facade.safetyDetails shownRatings].
  - by rewrite app_nil_r.
  - unfold Facade.withDetails.
    rewrite <- list_fmap_compose.
    rewrite (list_fmap_ext (Facade.ratingDetail ∘ harmRating) shownRating (r :: rs))
      by (intros; apply ratingDetail_harmRating).
    cbn [JSString.truthyOpt JSString.valueOf default].
    by rewrite join_shown_truthy.
  - by rewrite app_nil_r.
Qed.

Lemma blocked_message (response : GenAI.GenerateContentResponse)
    (feedback : GenAI.PromptFeedback) (reason defaultMessage : jsstring)
    (rated : option (list (jsstring * jsstring))) :
  GenAI.promptFeedback response = Some feedback ->
  GenAI.blockReason feedback = Some reason ->
  reason <> [] ->
  GenAI.safetyRatings feedback = harmRatings rated ->
  Facade.createErrorMessage response defaultMessage
  = lit "Prompt was blocked. Reason: " ++ reason ++ lit "." ++ shownRatings rated.
Proof.
  intros Hf Hr Hne Hs. unfold Facade.createErrorMessage. rewrite Hf, Hr, Hs.
  destruct reason as [|c reason]; [done|]. cbn [JSString.truthyOpt truthy JSString.valueOf default].
  rewrite safetyDetails_harmRatings. by rewrite <- !app_assoc.
Qed.

(** A request refused by the service, for any of the functions that
    return text: the error thrown names the block reason as the service
    gave it, followed by the safety ratings without the prefix of their
    categories, whatever the candidates of the response say. *)
Theorem blocked_prompt_names_the_reason
    (response : GenAI.GenerateContentResponse) (feedback : GenAI.PromptFeedback)
    (reason failure unexpected : jsstring)
    (rated : option (list (jsstring * jsstring))) :
  JSString.truthyOpt (GenAI.text response) = false ->
  GenAI.promptFeedback response = Some feedback ->
  GenAI.blockReason feedback = Some reason ->
  reason <> [] ->
  GenAI.safetyRatings feedback = harmRatings rated ->
  Facade.textResult failure unexpected (Resolved response)
  = Rejected (ErrorObject
      (lit "Prompt was blocked. Reason: " ++ reason ++ lit "." ++ shownRatings rated)).
Proof.
  intros Ht Hf Hr Hne Hs. unfold Facade.textResult. rewrite Ht. cbn [negb].
  rewrite (blocked_message response feedback reason failure rated Hf Hr Hne Hs).
  reflexivity.
Qed.

Lemma blocked_prompt_names_the_reason_witness :
  Facade.generateLivePrompt
    (Resolved
       {| GenAI.text := None;
          GenAI.promptFeedback :=
            Some {| GenAI.blockReason := Some (lit "SAFETY");
                    GenAI.safetyRatings :=
                      Some [ {| GenAI.category := lit "HARM_CATEGORY_HARASSMENT";
                                GenAI.probability := lit "HIGH" |};
                             {| GenAI.category := lit "HARM_CATEGORY_HATE_SPEECH";
                                GenAI.probability := lit "LOW" |} ] |};
          GenAI.candidates := None |})
  = Rejected (ErrorObject (lit
      "Prompt was blocked. Reason: SAFETY. Details: HARASSMENT: HIGH, HATE_SPEECH: LOW")).
Proof.
  exact (blocked_prompt_names_the_reason
           {| GenAI.text := None;
              GenAI.promptFeedback :=
                Some {| GenAI.blockReason := Some (lit "SAFETY");
                        GenAI.safetyRatings :=
                          Some [ {| GenAI.category := lit "HARM_CATEGORY_HARASSMENT";
                                    GenAI.probability := lit "HIGH" |};
                                 {| GenAI.category := lit "HARM_CATEGORY_HATE_SPEECH";
                                    GenAI.probability := lit "LOW" |} ] |};
              GenAI.candidates := None |}
           {| GenAI.blockReason := Some (lit "SAFETY");
              GenAI.safetyRatings :=
                Some [ {| GenAI.category := lit "HARM_CATEGORY_HARASSMENT";
                          GenAI.probability := lit "HIGH" |};
                       {| GenAI.category := lit "HARM_CATEGORY_HATE_SPEECH";
                          GenAI.probability := lit "LOW" |} ] |}
           (lit "SAFETY")
           (lit "Model failed to generate a live prompt from the audio.")
           (lit "Failed to analyze live audio. Please try again.")
           (Some [(lit "HARASSMENT", lit "HIGH"); (lit "HATE_SPEECH", lit "LOW")])
           eq_refl eq_refl eq_refl ltac:(discriminate) eq_refl).
Defined.

Lemma withDetails_truthy (message : jsstring) (details : option jsstring) :
  truthy message = true -> truthy (Facade.withDetails message details) = true.
Proof.
  unfold Facade.withDetails. destruct (JSString.truthyOpt details); [|done].
  by destruct message.
Qed.

Lemma createErrorMessage_truthy (response : GenAI.GenerateContentResponse)
    (defaultMessage : jsstring) :
  truthy defaultMessage = true ->
  truthy (Facade.createErrorMessage response defaultMessage) = true.
Proof.
  intros Hd. unfold Facade.createErrorMessage.
  repeat match goal with
         | |- context [if ?b then _ else _] => destruct b
         end; try done; by apply withDetails_truthy.
Qed.

Lemma rethrow_carries_message (error : thrown) (unexpected : jsstring) :
  truthy unexpected = true ->
  carriesMessage (Facade.rethrow error unexpected).
Proof.
  intros Hu. unfold Facade.rethrow, carriesMessage.
  exists (messageOr error unexpected). split; [done|].
  assert (Hm : truthy (messageOr error unexpected) = true).
  { destruct error as [m| |]; simpl; [|done..]. by destruct (truthy m) eqn:E. }
  split.
  - by destruct (messageOr error unexpected).
  - intros fallback. simpl. by rewrite Hm.
Qed.

Lemma textResult_carries_message (failure unexpected : jsstring)
    (outcome : Result GenAI.GenerateContentResponse) :
  truthy unexpected = true ->
  carriesMessage (Facade.textResult failure unexpected outcome).
Proof.
  intros Hu. unfold Facade.textResult.
  destruct outcome as [response|error]; [|by apply rethrow_carries_message].
  destruct (negb _); [by apply rethrow_carries_message | done].
Qed.

Lemma imageResult_carries_message (noCandidate noImage unexpected : jsstring)
    (outcome : Result GenAI.GenerateContentResponse) :
  truthy unexpected = true ->
  carriesMessage (Facade.imageResult noCandidate noImage unexpected outcome).
Proof.
  intros Hu. unfold Facade.imageResult.
  destruct outcome as [response|error]; [|by apply rethrow_carries_message].
  destruct (GenAI.candidates response) as [[|candidate others]|];
    try by apply rethrow_carries_message.
  destruct (match GenAI.content candidate with Some _ => _ | None => _ end);
    [done | by apply rethrow_carries_message].
Qed.

(** Every failure of an exported function of the facade is an [Error]
    with a non-empty message, whatever made the request fail (an error
    without message, a rejected string, a response without content): a
    component that shows [err.message || fallback] shows that message,
    never its own fallback. *)
Theorem facade_failures_carry_a_message
    (outcome : Result GenAI.GenerateContentResponse) (segmentNumber : N) :
  carriesMessage (Facade.generatePromptFromMusic outcome) /\
  carriesMessage (Facade.transcribeAudioToPrompt outcome) /\
  carriesMessage (Facade.generateLivePrompt outcome) /\
  carriesMessage (Facade.generateSummaryMarkdown outcome) /\
  carriesMessage (Facade.generatePromptFromAudioSegment segmentNumber outcome) /\
  carriesMessage (Facade.generateStorySummaryFromAudio outcome) /\
  carriesMessage (Facade.generateImage outcome) /\
  carriesMessage (Facade.editImage outcome).
Proof.
  repeat split;
    first [ by apply textResult_carries_message
          | by apply imageResult_carries_message ].
Qed.

(** A text result is the text of the response without its surrounding
    white space, and it is produced only for a response whose text is
    not empty. *)
Theorem text_results_are_trimmed (failure unexpected : jsstring)
    (outcome : Result GenAI.GenerateContentResponse) (v : jsstring) :
  Facade.textResult failure unexpected outcome = Resolved v ->
  exists response raw lead trail,
    outcome = Resolved response /\
    GenAI.text response = Some raw /\
    raw = lead ++ v ++ trail /\
    raw <> [] /\
    forallb isWhiteSpace lead = true /\
    forallb isWhiteSpace trail = true /\
    edgesClean v = true.
Proof.
  unfold Facade.textResult, Facade.rethrow.
  destruct outcome as [response|error]; [|discriminate].
  destruct (GenAI.text response) as [raw|] eqn:Ht; cbn; [|discriminate].
  destruct (truthy raw) eqn:Hraw; cbn; [|discriminate].
  intros [= <-].
  destruct (trim_split raw) as (lead & trail & Hsplit & Hl & Htr & Hc).
  exists response, raw, lead, trail. repeat split; try done.
  by destruct raw.
Qed.

Lemma text_results_are_trimmed_witness :
  exists response raw lead trail,
    Resolved {| GenAI.text := Some (lit "  a quiet harbour at dawn ");
                GenAI.promptFeedback := None; GenAI.candidates := None |}
      = Resolved response /\
    GenAI.text response = Some raw /\
    raw = lead ++ lit "a quiet harbour at dawn" ++ trail /\
    raw <> [] /\
    forallb isWhiteSpace lead = true /\
    forallb isWhiteSpace trail = true /\
    edgesClean (lit "a quiet harbour at dawn") = true.
Proof.
  exact (text_results_are_trimmed
           (lit "Model failed to generate a summary.")
           (lit "Failed to generate summary. Please try again.")
           (Resolved {| GenAI.text := Some (lit "  a quiet harbour at dawn ");
                        GenAI.promptFeedback := None; GenAI.candidates := None |})
           (lit "a quiet harbour at dawn") eq_refl).
Defined.

Lemma firstInlineData_skips (before : list GenAI.Part) (rest : list GenAI.Part) :
  Forall (fun part => carriesImage part = false) before ->
  Facade.firstInlineData (before ++ rest) = Facade.firstInlineData rest.
Proof.
  induction 1 as [|part before Hp _ IH]; [done|].
  cbn [app Facade.firstInlineData]. unfold carriesImage in Hp. by rewrite Hp.
Qed.

(** The image returned by [generateImage] and [editImage] is the data of
    the first part of the first candidate that carries some: parts
    without data before it are skipped, and later parts, other
    candidates and the prompt feedback are not looked at. *)
Theorem image_is_the_first_inline_payload
    (response : GenAI.GenerateContentResponse)
    (candidate : GenAI.Candidate) (others : list GenAI.Candidate)
    (c : GenAI.Content) (before after : list GenAI.Part) (part : GenAI.Part)
    (inline : GenAI.InlineData) (payload noCandidate noImage unexpected : jsstring) :
  GenAI.candidates response = Some (candidate :: others) ->
  GenAI.content candidate = Some c ->
  GenAI.parts c = Some (before ++ part :: after) ->
  Forall (fun part => carriesImage part = false) before ->
  GenAI.inlineData part = Some inline ->
  GenAI.data inline = Some payload ->
  payload <> [] ->
  Facade.imageResult noCandidate noImage unexpected (Resolved response)
  = Resolved payload.
Proof.
  intros Hc Hct Hp Hb Hi Hd Hne. unfold Facade.imageResult.
  rewrite Hc, Hct, Hp, (firstInlineData_skips before _ Hb).
  cbn [Facade.firstInlineData]. rewrite Hi, Hd.
  by destruct payload.
Qed.

Lemma image_is_the_first_inline_payload_witness :
  Facade.generateImage
    (Resolved
       {| GenAI.text := Some (lit "Here is your image.");
          GenAI.promptFeedback := None;
          GenAI.candidates :=
            Some [ {| GenAI.content :=
                        Some {| GenAI.parts :=
                          Some [ {| GenAI.partText := Some (lit "Here is your image.");
                                    GenAI.inlineData := None |};
                                 {| GenAI.partText := None;
                                    GenAI.inlineData :=
                                      Some {| GenAI.data := Some (lit "aW1hZ2U=");
                                              GenAI.mimeType := Some (lit "image/png") |} |};
                                 {| GenAI.partText := None;
                                    GenAI.inlineData :=
                                      Some {| GenAI.data := Some (lit "b3RoZXI=");
                                              GenAI.mimeType := Some (lit "image/png") |} |} ] |};
                      GenAI.finishReason := Some (lit "STOP");
                      GenAI.ratings := None |} ] |})
  = Resolved (lit "aW1hZ2U=").
Proof.
  exact (image_is_the_first_inline_payload
           {| GenAI.text := Some (lit "Here is your image.");
              GenAI.promptFeedback := None;
              GenAI.candidates :=
                Some [ {| GenAI.content :=
                            Some {| GenAI.parts :=
                              Some [ {| GenAI.partText := Some (lit "Here is your image.");
                                        GenAI.inlineData := None |};
                                     {| GenAI.partText := None;
                                        GenAI.inlineData :=
                                          Some {| GenAI.data := Some (lit "aW1hZ2U=");
                                                  GenAI.mimeType := Some (lit "image/png") |} |};
                                     {| GenAI.partText := None;
                                        GenAI.inlineData :=
                                          Some {| GenAI.data := Some (lit "b3RoZXI=");
                                                  GenAI.mimeType := Some (lit "image/png") |} |} ] |};
                          GenAI.finishReason := Some (lit "STOP");
                          GenAI.ratings := None |} ] |}
           {| GenAI.content :=
                Some {| GenAI.parts :=
                  Some [ {| GenAI.partText := Some (lit "Here is your image.");
                            GenAI.inlineData := None |};
                         {| GenAI.partText := None;
                            GenAI.inlineData :=
                              Some {| GenAI.data := Some (lit "aW1hZ2U=");
                                      GenAI.mimeType := Some (lit "image/png") |} |};
                         {| GenAI.partText := None;
                            GenAI.inlineData :=
                              Some {| GenAI.data := Some (lit "b3RoZXI=");
                                      GenAI.mimeType := Some (lit "image/png") |} |} ] |};
              GenAI.finishReason := Some (lit "STOP");
              GenAI.ratings := None |}
           []
           {| GenAI.parts :=
                Some [ {| GenAI.partText := Some (lit "Here is your image.");
                          GenAI.inlineData := None |};
                       {| GenAI.partText := None;
                          GenAI.inlineData :=
                            Some {| GenAI.data := Some (lit "aW1hZ2U=");
                                    GenAI.mimeType := Some (lit "image/png") |} |};
                       {| GenAI.partText := None;
                          GenAI.inlineData :=
                            Some {| GenAI.data := Some (lit "b3RoZXI=");
                                    GenAI.mimeType := Some (lit "image/png") |} |} ] |}
           [ {| GenAI.partText := Some (lit "Here is your image.");
                GenAI.inlineData := None |} ]
           [ {| GenAI.partText := None;
                GenAI.inlineData :=
                  Some {| GenAI.data := Some (lit "b3RoZXI=");
                          GenAI.mimeType := Some (lit "image/png") |} |} ]
           {| GenAI.partText := None;
              GenAI.inlineData :=
                Some {| GenAI.data := Some (lit "aW1hZ2U=");
                        GenAI.mimeType := Some (lit "image/png") |} |}
           {| GenAI.data := Some (lit "aW1hZ2U=");
              GenAI.mimeType := Some (lit "image/png") |}
           (lit "aW1hZ2U=")
           (lit "No image was generated. The prompt may have been rejected.")
           (lit "The model generated a response, but it did not contain image data.")
           (lit "Failed to generate image due to an unknown error.")
           eq_refl eq_refl eq_refl
           ltac:(repeat constructor) eq_refl eq_refl ltac:(discriminate)).
Defined.

Lemma split_without_separator (separator : N) (s : jsstring) :
  separator ∉ s -> JSString.split separator s = [s].
Proof.
  induction s as [|c s IH]; [done|]. intros Hn.
  apply not_elem_of_cons in Hn as [Hc Hs]. cbn [JSString.split].
  rewrite (proj2 (N.eqb_neq c separator)) by done. by rewrite IH.
Qed.

Lemma split_at_first_separator (separator : N) (header rest : jsstring) :
  separator ∉ header ->
  JSString.split separator (header ++ separator :: rest)
  = header :: JSString.split separator rest.
Proof.
  induction header as [|c header IH]; intros Hn.
  - cbn [app JSString.split]. by rewrite N.eqb_refl.
  - apply not_elem_of_cons in Hn as [Hc Hs]. cbn [app JSString.split].
    rewrite (proj2 (N.eqb_neq c separator)) by done. by rewrite IH.
Qed.

Lemma noComma_spec (s : jsstring) : noComma s = true -> 44 ∉ s.
Proof.
  unfold noComma. rewrite forallb_forall. intros H Hin.
  apply list_elem_of_In, H in Hin. by rewrite N.eqb_refl in Hin.
Qed.

(** [fileToBase64] resolves with what follows the first comma of the
    data URL, the base64 payload (which holds no comma); for a reader
    result without a comma it resolves with [undefined]. *)
Theorem fileToBase64_strips_the_header (header payload : jsstring) :
  noComma header = true -> noComma payload = true ->
  Facade.onload (header ++ lit "," ++ payload) = Some payload /\
  Facade.onload header = None.
Proof.
  intros Hh%noComma_spec Hp%noComma_spec. unfold Facade.onload. split.
  - change (lit "," ++ payload) with (44 :: payload).
    by rewrite split_at_first_separator, split_without_separator.
  - by rewrite split_without_separator.
Qed.

Lemma fileToBase64_strips_the_header_witness :
  Facade.onload (lit "data:audio/webm;codecs=opus;base64" ++ lit "," ++ lit "GkXfo59ChoEB")
    = Some (lit "GkXfo59ChoEB") /\
  Facade.onload (lit "data:audio/webm;codecs=opus;base64") = None.
Proof.
  exact (fileToBase64_strips_the_header
           (lit "data:audio/webm;codecs=opus;base64") (lit "GkXfo59ChoEB")
           eq_refl eq_refl).
Defined.
(** ** The storyboard: segments, outcomes and file names *)

Lemma chained_sizes (whole : Blob) (mime : jsstring) (segments : list Blob) :
  forall from to,
    to <= size whole ->
    chained whole mime from to segments ->
    totalSize segments = to - from /\ from <= to /\
    Forall (fun b => type b = mime) segments.
Proof.
  induction segments as [|segment rest IH]; intros from to Hto; cbn [chained].
  - intros ->. cbn. split; [lia|]. split; [lia | constructor].
  - intros (stop & -> & [Hfs Hst] & Hrest).
    destruct (IH stop to Hto Hrest) as (Hsum & Hle & Hty).
    unfold totalSize in *. cbn [foldr size]. rewrite Hsum.
    split; [lia|]. split; [lia|]. by constructor.
Qed.

Section Slices.
Variable file : File.
Variable n : N.
Hypothesis positive : 0 < n.

Let q : N := fileSize file / n.

Let segmentAt (i : nat) : Blob :=
  Slice (FileBlob file) (N.of_nat i * q)
        (if N.of_nat i =? n - 1 then fileSize file else N.of_nat i * q + q)
        (fileType file).

Lemma segments_fit : n * q <= fileSize file.
Proof. apply N.Div0.mul_div_le. Qed.

Lemma sliceSegments_from (k : nat) :
  forall i : nat,
    (i + S k)%nat = N.to_nat n ->
    chained (FileBlob file) (fileType file) (N.of_nat i * q) (fileSize file)
            (segmentAt <$> seq i (S k)).
Proof.
  pose proof segments_fit as Hfit.
  induction k as [|k IH]; intros i Hi.
  - cbn [seq fmap list_fmap chained]. unfold segmentAt.
    replace (N.of_nat i =? n - 1) with true by (symmetry; apply N.eqb_eq; lia).
    exists (fileSize file). repeat split; nia.
  - change (segmentAt <$> seq i (S (S k)))
      with (segmentAt i :: (segmentAt <$> seq (S i) (S k))).
    cbn [chained]. unfold segmentAt at 1.
    replace (N.of_nat i =? n - 1) with false by (symmetry; apply N.eqb_neq; lia).
    exists (N.of_nat i * q + q). split; [done|]. split; [nia|].
    replace (N.of_nat i * q + q) with (N.of_nat (S i) * q) by lia.
    apply IH. lia.
Qed.

Lemma sliceSegments_sizes (i : nat) (segment : Blob) :
  VisualStoryboard.sliceSegments file n !! i = Some segment ->
  size segment = if N.of_nat i =? n - 1 then q + fileSize file mod n else q.
Proof.
  pose proof segments_fit as Hfit.
  unfold VisualStoryboard.sliceSegments. rewrite list_lookup_fmap.
  destruct (seq 0 (N.to_nat n) !! i) as [j|] eqn:Hj; [|done].
  apply lookup_seq in Hj as [-> Hlt]. cbn [fmap option_fmap option_map].
  intros [= <-]. cbn [size Nat.add]. fold q.
  pose proof (N.div_mod (fileSize file) n ltac:(lia)) as Hdm. fold q in Hdm.
  destruct (N.of_nat i =? n - 1) eqn:E.
  - apply N.eqb_eq in E. nia.
  - apply N.eqb_neq in E. nia.
Qed.
End Slices.

(** The segments cut by [processFile] partition the file: they are
    consecutive byte ranges of the file from byte 0 to its last byte,
    their sizes add up to the size of the file, each keeps the type of
    the file, all have size [floor(size / n)] except the last one, which
    also takes the remainder. *)
Theorem sliceSegments_partitions_the_file (file : File) (n : N) :
  0 < n ->
  length (VisualStoryboard.sliceSegments file n) = N.to_nat n /\
  chained (FileBlob file) (fileType file) 0 (fileSize file)
          (VisualStoryboard.sliceSegments file n) /\
  totalSize (VisualStoryboard.sliceSegments file n) = fileSize file /\
  Forall (fun b => type b = fileType file) (VisualStoryboard.sliceSegments file n) /\
  forall (i : nat) (segment : Blob),
    VisualStoryboard.sliceSegments file n !! i = Some segment ->
    size segment = if N.of_nat i =? n - 1
                   then fileSize file / n + fileSize file mod n
                   else fileSize file / n.
Proof.
  intros Hn.
  assert (Hchain : chained (FileBlob file) (fileType file) 0 (fileSize file)
                           (VisualStoryboard.sliceSegments file n)).
  { destruct (N.to_nat n) as [|k] eqn:Hk; [lia|].
    pose proof (sliceSegments_from file n Hn k 0%nat ltac:(lia)) as H.
    unfold VisualStoryboard.sliceSegments. rewrite Hk. exact H. }
  destruct (chained_sizes (FileBlob file) (fileType file) _ 0 (fileSize file)
              ltac:(cbn; lia) Hchain) as (Hsum & _ & Hty).
  split; [apply length_sliceSegments|]. split; [exact Hchain|].
  split; [lia|]. split; [exact Hty|].
  intros i segment. by apply sliceSegments_sizes.
Qed.

Lemma sliceSegments_partitions_the_file_witness :
  length (VisualStoryboard.sliceSegments (audioOfSize 1048577) 3) = 3%nat /\
  totalSize (VisualStoryboard.sliceSegments (audioOfSize 1048577) 3) = 1048577 /\
  size <$> VisualStoryboard.sliceSegments (audioOfSize 1048577) 3
    = [349525; 349525; 349527].
Proof.
  destruct (sliceSegments_partitions_the_file (audioOfSize 1048577) 3 eq_refl)
    as (Hlen & _ & Hsum & _ & _).
  split; [exact Hlen|]. split; [exact Hsum | reflexivity].
Defined.

(** *** The loop, whatever the calls answer *)

Section ScenesOutcome.
Import VisualStoryboard.
Variable o : Oracle.
Variable file : File.
Variable total : N.

Lemma generateScenes_outcome (segments : list Blob) :
  forall (i : nat) (built : list StoryboardImage) (n : nat) (s : State),
    images s = built ->
    exists (s' : State) (r : Result unit) (calls : list Call)
           (new : list StoryboardImage),
      exec o (generateScenes file total segments i built) n s = (s', r, calls) /\
      images s' = built ++ new /\
      fileName <$> new
        = (fun j : nat => sceneFileName (N.of_nat (i + j) + 1))
            <$> seq 0 (length new) /\
      storyboardState s' = storyboardState s /\
      error s' = error s /\
      summary s' = summary s /\
      Forall (fun c => isNetworkCall c = true \/ exists b, c = fileToBase64 b) calls /\
      match r with
      | Resolved _ =>
          length new = length segments /\ length calls = (3 * length segments)%nat
      | Rejected _ => (length new < length segments)%nat
      end.
Proof.
  induction segments as [|segment rest IH]; intros i built n s Himg.
  - exists s, (Resolved tt), [], []. cbn. rewrite app_nil_r.
    split; [done|]. split; [done|]. split; [done|]. split; [done|].
    split; [done|]. split; [done|]. split; [constructor | done].
  - cbn [generateScenes].
    rewrite callsIssued_bind_set, exec_bind_await.
    destruct (respond o n (fileToBase64 segment)) as [b64|e].
    2:{ eexists _, _, _, []. split; [reflexivity|]. cbn. rewrite app_nil_r.
        split; [done|]. split; [done|]. split; [done|]. split; [done|].
        split; [done|]. split; [|lia].
        constructor; [right; by eexists|]. constructor. }
    rewrite exec_bind_await.
    destruct (respond o (S n) _) as [p|e].
    2:{ eexists _, _, _, []. split; [reflexivity|]. cbn. rewrite app_nil_r.
        split; [done|]. split; [done|]. split; [done|]. split; [done|].
        split; [done|]. split; [|lia].
        constructor; [right; by eexists|]. constructor; [by left|]. constructor. }
    rewrite callsIssued_bind_set, exec_bind_await.
    destruct (respond o (S (S n)) _) as [img|e].
    2:{ eexists _, _, _, []. split; [reflexivity|]. cbn. rewrite app_nil_r.
        split; [done|]. split; [done|]. split; [done|]. split; [done|].
        split; [done|]. split; [|lia].
        constructor; [right; by eexists|]. constructor; [by left|].
        constructor; [by left|]. constructor. }
    cbn [bind now exec]. rewrite callsIssued_bind_set.
    match goal with
    | |- context [exec o (generateScenes file total rest (S i) ?b) ?m ?st] =>
        destruct (IH (S i) b m st eq_refl)
          as (s' & r & calls & new & He & Hi & Hn & Hs & Her & Hsum & Hcalls & Hr)
    end.
    rewrite He.
    eexists s', r, _, (_ :: new). split; [reflexivity|].
    split; [rewrite Hi; by rewrite <- app_assoc|].
    split.
    { rewrite (fmap_cons fileName), Hn. cbn [length seq]. rewrite fmap_cons.
      f_equal.
      * cbn [fileName]. by rewrite Nat.add_0_r.
      * rewrite <- fmap_S_seq, <- list_fmap_compose.
        apply list_fmap_ext. intros ? j ?. simpl. by rewrite Nat.add_succ_r. }
    split; [by rewrite Hs|]. split; [by rewrite Her|]. split; [by rewrite Hsum|].
    split.
    { constructor; [right; by eexists|]. constructor; [by left|].
      constructor; [by left|]. exact Hcalls. }
    destruct r; cbn [length]; lia.
Qed.
End ScenesOutcome.

Lemma sceneNames_take (k : nat) :
  (k <= 7)%nat ->
  (fun j : nat => VisualStoryboard.sceneFileName (N.of_nat (0 + j) + 1)) <$> seq 0 k
  = take k sceneNames.
Proof.
  intros Hk.
  do 8 (destruct k as [|k]; [reflexivity|]). lia.
Qed.

Lemma numSegmentsFor_cases (d : number) :
  VisualStoryboard.numSegmentsFor d = 3 \/ VisualStoryboard.numSegmentsFor d = 4 \/
  VisualStoryboard.numSegmentsFor d = 5 \/ VisualStoryboard.numSegmentsFor d = 7.
Proof.
  unfold VisualStoryboard.numSegmentsFor.
  destruct (geZ d _); [tauto|]. destruct (gtZ d _); [tauto|].
  destruct (gtZ d _); tauto.
Qed.

Lemma numSegmentsFor_bound (d : number) :
  (N.to_nat (VisualStoryboard.numSegmentsFor d) <= 7)%nat.
Proof. destruct (numSegmentsFor_cases d) as [H|[H|[H|H]]]; rewrite H; lia. Qed.

Section StoryboardOutcome.
Import VisualStoryboard.
Variable o : Oracle.
Variable file : File.
Variable s : State.

Let fallback : jsstring := lit "An unknown error occurred during processing.".

(** What a run on an accepted file leaves, whatever the calls answer. *)
Lemma processFile_outcome :
  inRange file = true ->
  completion (exec o (processFile file) 0 s) = Resolved tt /\
  head (callsIssued (exec o (processFile file) 0 s))
    = Some (getAudioDuration (FileBlob file)) /\
  fileName <$> images (finalState (exec o (processFile file) 0 s))
    = take (length (images (finalState (exec o (processFile file) 0 s)))) sceneNames /\
  ((storyboardState (finalState (exec o (processFile file) 0 s)) = FINISHED /\
    error (finalState (exec o (processFile file) 0 s)) = None /\
    progressMessage (finalState (exec o (processFile file) 0 s)) = [] /\
    exists d, respond o 0%nat (getAudioDuration (FileBlob file)) = Resolved d /\
              length (images (finalState (exec o (processFile file) 0 s)))
              = N.to_nat (numSegmentsFor d))
   \/
   (storyboardState (finalState (exec o (processFile file) 0 s)) = ERROR /\
    (exists e, error (finalState (exec o (processFile file) 0 s))
               = Some (messageOr e fallback)) /\
    summary (finalState (exec o (processFile file) 0 s)) = [] /\
    (length (images (finalState (exec o (processFile file) 0 s))) <= 7)%nat)).
Proof.
  unfold inRange. intros [Hmin Hmax]%andb_prop.
  apply N.leb_le, N.ltb_ge in Hmin. apply N.leb_le, N.ltb_ge in Hmax.
  unfold processFile. rewrite Hmin, Hmax.
  cbn [resetState bind set exec tryCatch await].
  destruct (respond o 0%nat (getAudioDuration (FileBlob file))) as [d|e] eqn:Hprobe.
  2:{ cbn. split; [done|]. split; [done|]. split; [done|]. right.
      split; [done|]. split; [by eexists|]. split; [done | lia]. }
  cbn [bind]. rewrite exec_tryCatch, exec_bind.
  match goal with
  | |- context [exec o (generateScenes ?f ?t ?segs ?i ?b) ?m ?st] =>
      destruct (generateScenes_outcome o f t segs i b m st eq_refl)
        as (s1 & r & calls & new & He & Hi & Hn & Hs & Her & Hsum & _ & Hr)
  end.
  rewrite He. rewrite length_sliceSegments in Hr.
  pose proof (numSegmentsFor_bound d) as Hbound.
  cbn [app] in Hi. cbn [storyboardState error summary] in Hs, Her, Hsum.
  assert (Hnames : (length new <= 7)%nat ->
                   fileName <$> new = take (length new) sceneNames).
  { intros Hle. rewrite Hn. by apply sceneNames_take. }
  destruct r as [[]|e].
  - destruct Hr as [Hlen _]. cbn [exec].
    destruct (respond o _ (fileToBase64 (FileBlob file))) as [b64|e].
    + cbn [bind exec].
      match goal with
      | |- context [respond o ?k (generateStorySummaryFromAudio ?a ?b)] =>
          destruct (respond o k (generateStorySummaryFromAudio a b)) as [sm|e]
      end; cbn; rewrite Hi.
      * split; [done|]. split; [done|]. split; [apply Hnames; lia|]. left.
        split; [done|]. split; [done|]. split; [done|]. exists d. done.
      * split; [done|]. split; [done|]. split; [apply Hnames; lia|]. right.
        split; [done|]. split; [by eexists|]. split; [done | lia].
    + cbn. rewrite Hi.
      split; [done|]. split; [done|]. split; [apply Hnames; lia|]. right.
      split; [done|]. split; [by eexists|]. split; [done | lia].
  - cbn. rewrite Hi.
    split; [done|]. split; [done|]. split; [apply Hnames; lia|]. right.
    split; [done|]. split; [by eexists|]. split; [done | lia].
Qed.
End StoryboardOutcome.

(** A file within the size bounds (both bounds included) is probed for
    its duration first, and its run always settles: the promise of
    [processFile] resolves and the component is left either Finished,
    without error, with an empty progress message and one image per
    segment, or in Error with a message, an empty summary and the images
    generated so far.  It is never left Processing. *)
Theorem processFile_ends_finished_or_error
    (o : Oracle) (file : File) (s : VisualStoryboard.State) :
  inRange file = true ->
  completion (exec o (VisualStoryboard.processFile file) 0 s) = Resolved tt /\
  head (callsIssued (exec o (VisualStoryboard.processFile file) 0 s))
    = Some (getAudioDuration (FileBlob file)) /\
  ((VisualStoryboard.storyboardState
      (finalState (exec o (VisualStoryboard.processFile file) 0 s))
    = VisualStoryboard.FINISHED /\
    VisualStoryboard.error
      (finalState (exec o (VisualStoryboard.processFile file) 0 s)) = None /\
    VisualStoryboard.progressMessage
      (finalState (exec o (VisualStoryboard.processFile file) 0 s)) = [] /\
    exists d, respond o 0%nat (getAudioDuration (FileBlob file)) = Resolved d /\
              length (VisualStoryboard.images
                        (finalState (exec o (VisualStoryboard.processFile file) 0 s)))
              = N.to_nat (VisualStoryboard.numSegmentsFor d))
   \/
   (VisualStoryboard.storyboardState
      (finalState (exec o (VisualStoryboard.processFile file) 0 s))
    = VisualStoryboard.ERROR /\
    (exists e, VisualStoryboard.error
                 (finalState (exec o (VisualStoryboard.processFile file) 0 s))
               = Some (messageOr e (lit "An unknown error occurred during processing."))) /\
    VisualStoryboard.summary
      (finalState (exec o (VisualStoryboard.processFile file) 0 s)) = [] /\
    (length (VisualStoryboard.images
               (finalState (exec o (VisualStoryboard.processFile file) 0 s))) <= 7)%nat)).
Proof.
  intros Hr.
  destruct (processFile_outcome o file s Hr) as (Hc & Hh & _ & Hcases).
  split; [exact Hc|]. split; [exact Hh | exact Hcases].
Qed.

Lemma processFile_ends_finished_or_error_witness :
  inRange (audioOfSize MAX_FILE_SIZE) = true /\
  inRange (audioOfSize VisualStoryboard.MIN_FILE_SIZE) = true /\
  completion (exec (allSucceed (lit "dGV4dA==") (Finite 200))
                   (VisualStoryboard.processFile (audioOfSize MAX_FILE_SIZE)) 0
                   VisualStoryboard.initial) = Resolved tt /\
  head (callsIssued (exec (allSucceed (lit "dGV4dA==") (Finite 200))
                          (VisualStoryboard.processFile (audioOfSize MAX_FILE_SIZE)) 0
                          VisualStoryboard.initial))
    = Some (getAudioDuration (FileBlob (audioOfSize MAX_FILE_SIZE))).
Proof.
  split; [reflexivity|]. split; [reflexivity|].
  destruct (processFile_ends_finished_or_error (allSucceed (lit "dGV4dA==") (Finite 200))
              (audioOfSize MAX_FILE_SIZE) VisualStoryboard.initial eq_refl)
    as (Hc & Hh & _).
  split; [exact Hc | exact Hh].
Defined.

(** The images a storyboard run has produced are named [scene_01.jpg],
    [scene_02.jpg], ... in the order of their segments, with no gap and
    no repetition, for every file and whatever the calls answer, also
    when the run stops on a failure. *)
Theorem storyboard_images_are_named_in_order
    (o : Oracle) (file : File) (s : VisualStoryboard.State) :
  VisualStoryboard.fileName
    <$> VisualStoryboard.images
          (finalState (exec o (VisualStoryboard.processFile file) 0 s))
  = take (length (VisualStoryboard.images
                    (finalState (exec o (VisualStoryboard.processFile file) 0 s))))
         sceneNames.
Proof.
  destruct (inRange file) eqn:Hr.
  - by destruct (processFile_outcome o file s Hr) as (_ & _ & Hn & _).
  - unfold VisualStoryboard.processFile.
    destruct (fileSize file <? VisualStoryboard.MIN_FILE_SIZE) eqn:Hmin; [reflexivity|].
    destruct (MAX_FILE_SIZE <? fileSize file) eqn:Hmax; [reflexivity|].
    apply N.ltb_ge, N.leb_le in Hmin. apply N.ltb_ge, N.leb_le in Hmax.
    unfold inRange in Hr. by rewrite Hmin, Hmax in Hr.
Qed.

(** When the audio element cannot read the file, [getAudioDuration]
    rejects with a string, which has no [message]: the storyboard stops
    in Error with its own generic message instead of the reason given by
    the probe, after that single call. *)
Theorem failed_probe_shows_the_generic_message
    (o : Oracle) (file : File) (s : VisualStoryboard.State) :
  inRange file = true ->
  respond o 0%nat (getAudioDuration (FileBlob file))
    = AudioProbe.getAudioDuration AudioProbe.mediaError ->
  exec o (VisualStoryboard.processFile file) 0 s
  = ({| VisualStoryboard.storyboardState := VisualStoryboard.ERROR;
        VisualStoryboard.error :=
          Some (lit "An unknown error occurred during processing.");
        VisualStoryboard.progressMessage := lit "Analyzing audio duration...";
        VisualStoryboard.images := [];
        VisualStoryboard.summary := [] |},
     Resolved tt,
     [getAudioDuration (FileBlob file)]).
Proof.
  unfold inRange. intros [Hmin Hmax]%andb_prop Hprobe.
  apply N.leb_le, N.ltb_ge in Hmin. apply N.leb_le, N.ltb_ge in Hmax.
  unfold VisualStoryboard.processFile. rewrite Hmin, Hmax.
  cbn [VisualStoryboard.resetState bind set exec tryCatch await].
  rewrite Hprobe. reflexivity.
Qed.

Lemma failed_probe_shows_the_generic_message_witness :
  VisualStoryboard.error
    (finalState (exec unreadableAudio
                      (VisualStoryboard.processFile (audioOfSize 2097152)) 0
                      VisualStoryboard.initial))
  = Some (lit "An unknown error occurred during processing.").
Proof.
  exact (f_equal (fun x => VisualStoryboard.error (finalState x))
           (failed_probe_shows_the_generic_message unreadableAudio
              (audioOfSize 2097152) VisualStoryboard.initial eq_refl eq_refl)).
Defined.
(** ** The single-image session: outcomes of its handlers *)

(** With no audio source and a blank prompt, [handleGeneration] issues
    no call: it reports that a prompt is required and leaves the session
    idle, with its history and selection as they were. *)
Theorem handleGeneration_requires_a_prompt (r : CreatorStudio.State) (o : Oracle) :
  CreatorStudio.audioFile r = None ->
  trim (CreatorStudio.textPrompt r) = [] ->
  exec o (CreatorStudio.handleGeneration r) 0 r
  = (CreatorStudio.setAppState AppState.IDLE
       (CreatorStudio.setError (Some promptRequired) r),
     Resolved tt, []).
Proof.
  intros Ha Hp. unfold CreatorStudio.handleGeneration. rewrite Ha. cbn.
  rewrite Hp. reflexivity.
Qed.

Lemma handleGeneration_requires_a_prompt_witness :
  exec (allSucceed (lit "aW1n") (Finite 0))
       (CreatorStudio.handleGeneration (typedPrompt (lit "   "))) 0
       (typedPrompt (lit "   "))
  = (CreatorStudio.setAppState AppState.IDLE
       (CreatorStudio.setError (Some promptRequired) (typedPrompt (lit "   "))),
     Resolved tt, []).
Proof.
  exact (handleGeneration_requires_a_prompt (typedPrompt (lit "   "))
           (allSucceed (lit "aW1n") (Finite 0)) eq_refl eq_refl).
Defined.

(** Whatever the calls answer, [handleGeneration] settles, and either
    succeeds, leaving an idle session whose history is the single new
    image (selected, recorded with the prompt now shown), or fails with
    an error shown, leaving history and selection untouched and the
    session idle or in error, never analyzing or generating. *)
Theorem handleGeneration_outcome (r : CreatorStudio.State) (o : Oracle) :
  completion (exec o (CreatorStudio.handleGeneration r) 0 r) = Resolved tt /\
  ((CreatorStudio.error (finalState (exec o (CreatorStudio.handleGeneration r) 0 r))
    = None /\
    CreatorStudio.appState (finalState (exec o (CreatorStudio.handleGeneration r) 0 r))
    = AppState.IDLE /\
    exists root,
      CreatorStudio.imageHistory
        (finalState (exec o (CreatorStudio.handleGeneration r) 0 r)) = [root] /\
      CreatorStudio.activeImageIndex
        (finalState (exec o (CreatorStudio.handleGeneration r) 0 r)) = Some 0%nat /\
      prompt root
      = CreatorStudio.textPrompt
          (finalState (exec o (CreatorStudio.handleGeneration r) 0 r)))
   \/
   (CreatorStudio.error (finalState (exec o (CreatorStudio.handleGeneration r) 0 r))
    <> None /\
    CreatorStudio.isProcessing
      (finalState (exec o (CreatorStudio.handleGeneration r) 0 r)) = false /\
    CreatorStudio.imageHistory
      (finalState (exec o (CreatorStudio.handleGeneration r) 0 r))
    = CreatorStudio.imageHistory r /\
    CreatorStudio.activeImageIndex
      (finalState (exec o (CreatorStudio.handleGeneration r) 0 r))
    = CreatorStudio.activeImageIndex r)).
Proof.
  unfold CreatorStudio.handleGeneration.
  destruct (CreatorStudio.audioFile r) as [f|]; cbn.
  - destruct (respond o 0%nat (fileToBase64 (FileBlob f))) as [b|e]; cbn;
      [|split; [done|]; right; done].
    destruct (respond o 1%nat _) as [p|e]; cbn; [|split; [done|]; right; done].
    destruct (truthy (trim p)); cbn; [|split; [done|]; right; done].
    destruct (respond o 2%nat _) as [img|e]; cbn; [|split; [done|]; right; done].
    split; [done|]. left. split; [done|]. split; [done|]. by eexists.
  - destruct (truthy (trim (CreatorStudio.textPrompt r))); cbn;
      [|split; [done|]; right; done].
    destruct (respond o 0%nat _) as [img|e]; cbn; [|split; [done|]; right; done].
    split; [done|]. left. split; [done|]. split; [done|]. by eexists.
Qed.

(** From an audio file, the prompt interpreted by the service replaces
    the typed prompt as soon as the interpretation succeeds, also when
    the image request then fails; a blank interpretation stops the run
    with the prompt-required error before any image request. *)
Theorem handleGeneration_surfaces_the_interpreted_prompt
    (r : CreatorStudio.State) (o : Oracle) (f : File) (b p : jsstring) :
  CreatorStudio.audioFile r = Some f ->
  respond o 0%nat (fileToBase64 (FileBlob f)) = Resolved b ->
  respond o 1%nat (generatePromptFromMusic b (fileType f) (CreatorStudio.audioContext r))
    = Resolved p ->
  CreatorStudio.textPrompt (finalState (exec o (CreatorStudio.handleGeneration r) 0 r))
    = p /\
  CreatorStudio.audioFile (finalState (exec o (CreatorStudio.handleGeneration r) 0 r))
    = Some f /\
  callsIssued (exec o (CreatorStudio.handleGeneration r) 0 r)
    = [fileToBase64 (FileBlob f);
       generatePromptFromMusic b (fileType f) (CreatorStudio.audioContext r)]
      ++ (if truthy (trim p)
          then [generateImage p (CreatorStudio.generationFilter r)] else []) /\
  (trim p = [] ->
   CreatorStudio.error (finalState (exec o (CreatorStudio.handleGeneration r) 0 r))
     = Some promptRequired).
Proof.
  intros Ha Hb Hp. unfold CreatorStudio.handleGeneration. rewrite Ha. cbn.
  rewrite Hb. cbn. rewrite Hp. cbn.
  destruct (truthy (trim p)) eqn:Ht; cbn.
  - destruct (respond o 2%nat _) as [img|e]; cbn;
      (split; [done|]; split; [done|]; split; [done|]);
      intros E; by rewrite E in Ht.
  - done.
Qed.

Lemma handleGeneration_surfaces_the_interpreted_prompt_witness :
  CreatorStudio.textPrompt
    (finalState (exec (allSucceed (lit "a storm at sea") (Finite 0))
       (CreatorStudio.handleGeneration
          (CreatorStudio.setAudioFile (Some (audioOfSize 2048)) (typedPrompt [])))
       0 (CreatorStudio.setAudioFile (Some (audioOfSize 2048)) (typedPrompt []))))
  = lit "a storm at sea".
Proof.
  exact (proj1 (handleGeneration_surfaces_the_interpreted_prompt
           (CreatorStudio.setAudioFile (Some (audioOfSize 2048)) (typedPrompt []))
           (allSucceed (lit "a storm at sea") (Finite 0))
           (audioOfSize 2048) (lit "a storm at sea") (lit "a storm at sea")
           eq_refl eq_refl eq_refl)).
Defined.

(** Whatever the calls answer, an edit of the selected image settles and
    leaves the session idle (the Error state set on a failure is
    overwritten at once); a failed edit shows its error and leaves
    history and selection as they were, so the history only ever grows. *)
Theorem handleEdit_failure_keeps_history
    (r : CreatorStudio.State) (selected : ImageData) (e : jsstring)
    (s : FilterType) (remix : option File) (o : Oracle) :
  CreatorStudio.activeImage r = Some selected ->
  completion (exec o (CreatorStudio.handleEdit r e s remix) 0 r) = Resolved tt /\
  CreatorStudio.appState (finalState (exec o (CreatorStudio.handleEdit r e s remix) 0 r))
    = AppState.IDLE /\
  CreatorStudio.imageHistory r
    `prefix_of` CreatorStudio.imageHistory
                  (finalState (exec o (CreatorStudio.handleEdit r e s remix) 0 r)) /\
  (CreatorStudio.error (finalState (exec o (CreatorStudio.handleEdit r e s remix) 0 r))
     = None
   \/
   (exists err,
      CreatorStudio.error (finalState (exec o (CreatorStudio.handleEdit r e s remix) 0 r))
      = Some (messageOr err (lit "An unknown error occurred during image editing."))) /\
   CreatorStudio.imageHistory
     (finalState (exec o (CreatorStudio.handleEdit r e s remix) 0 r))
     = CreatorStudio.imageHistory r /\
   CreatorStudio.activeImageIndex
     (finalState (exec o (CreatorStudio.handleEdit r e s remix) 0 r))
     = CreatorStudio.activeImageIndex r).
Proof.
  intros Hsel. unfold CreatorStudio.handleEdit. rewrite Hsel.
  destruct remix as [f|]; cbn.
  - destruct (respond o 0%nat (fileToBase64 (FileBlob f))) as [b|err]; cbn.
    + destruct (respond o 1%nat _) as [img|err]; cbn.
      * split; [done|]. split; [done|]. split; [by eexists | by left].
      * split; [done|]. split; [done|]. split; [done|]. right.
        split; [by eexists | done].
    + split; [done|]. split; [done|]. split; [done|]. right.
      split; [by eexists | done].
  - destruct (respond o 0%nat _) as [img|err]; cbn.
    + split; [done|]. split; [done|]. split; [by eexists | by left].
    + split; [done|]. split; [done|]. split; [done|]. right.
      split; [by eexists | done].
Qed.

Lemma handleEdit_failure_keeps_history_witness :
  CreatorStudio.appState
    (finalState (exec (allSucceed (lit "ZWRpdA==") (Finite 0))
       (CreatorStudio.handleEdit (oneImageSession (lit "a fox")) (lit "add snow")
          Anime None) 0 (oneImageSession (lit "a fox"))))
  = AppState.IDLE.
Proof.
  exact (proj1 (proj2 (handleEdit_failure_keeps_history (oneImageSession (lit "a fox"))
           {| id := 1; base64 := lit "aW1n"; prompt := lit "a fox" |}
           (lit "add snow") Anime None (allSucceed (lit "ZWRpdA==") (Finite 0))
           eq_refl))).
Defined.

(** The edit form never sends an edit that asks for nothing: every edit
    request issued through [handleSubmit] has an edit text that is not
    blank or a chosen style, and nothing at all is issued while an edit
    is running. *)
Theorem handleSubmit_sends_no_vacuous_edit
    (r : CreatorStudio.State) (e : jsstring) (s : FilterType)
    (remix : option File) (o : Oracle) :
  Forall (fun c => vacuousEdit c = false)
         (callsIssued (exec o (CreatorStudio.handleSubmit r e s remix) 0 r)) /\
  (CreatorStudio.appState r = AppState.EDITING ->
   exec o (CreatorStudio.handleSubmit r e s remix) 0 r = (r, Resolved tt, [])).
Proof.
  split.
  - unfold CreatorStudio.handleSubmit.
    destruct (CreatorStudio.canSubmit e s && _) eqn:Hcan; [|constructor].
    apply andb_prop in Hcan as [Hcan _].
    assert (Hv : forall a b remixImage,
               vacuousEdit (editImage a b e s remixImage) = false).
    { intros a b remixImage. unfold vacuousEdit, CreatorStudio.canSubmit in *.
      destruct (trim e), (isUnspecified s); done. }
    unfold CreatorStudio.handleEdit.
    destruct (CreatorStudio.activeImage r) as [img|]; [|constructor].
    destruct remix as [f|]; cbn.
    + destruct (respond o 0%nat (fileToBase64 (FileBlob f))) as [b|err]; cbn;
        [|repeat constructor].
      destruct (respond o 1%nat _) as [im|err]; cbn;
        (constructor; [done|]; constructor; [apply Hv | constructor]).
    + destruct (respond o 0%nat _) as [im|err]; cbn;
        (constructor; [apply Hv | constructor]).
  - intros He. unfold CreatorStudio.handleSubmit. rewrite He.
    by rewrite andb_false_r.
Qed.

(** Selecting an audio file while a prompt is typed changes nothing but
    the confirmation dialog: no call, same prompt, same audio source.
    Confirming then clears the prompt and arms the file; the outcome is
    the one of selecting the file with the prompt already empty. *)
Theorem audio_file_over_a_typed_prompt_asks_first
    (r : CreatorStudio.State) (file : File) (o : Oracle) :
  truthy (trim (CreatorStudio.textPrompt r)) = true ->
  exec o (CreatorStudio.handleAudioFileSelected r file) 0 r
  = (CreatorStudio.setShowWarningModal true
       (CreatorStudio.setModalConfirmAction (CreatorStudio.useAudioFile file) r),
     Resolved tt, []) /\
  exec o (CreatorStudio.modalConfirm
            (finalState (exec o (CreatorStudio.handleAudioFileSelected r file) 0 r)))
       0 (finalState (exec o (CreatorStudio.handleAudioFileSelected r file) 0 r))
  = (CreatorStudio.setShowWarningModal false
       (CreatorStudio.setModalConfirmAction (CreatorStudio.useAudioFile file)
          (finalState
             (exec o (CreatorStudio.handleAudioFileSelected
                        (CreatorStudio.setTextPrompt [] r) file)
                   0 (CreatorStudio.setTextPrompt [] r)))),
     Resolved tt, []) /\
  CreatorStudio.audioFile
    (finalState
       (exec o (CreatorStudio.handleAudioFileSelected
                  (CreatorStudio.setTextPrompt [] r) file)
             0 (CreatorStudio.setTextPrompt [] r)))
  = Some file.
Proof.
  intros Ht. unfold CreatorStudio.handleAudioFileSelected,
    CreatorStudio.handleActionWithPromptWarning. rewrite Ht. cbn. done.
Qed.

Lemma audio_file_over_a_typed_prompt_asks_first_witness :
  CreatorStudio.audioFile
    (finalState
       (exec (allSucceed (lit "aW1n") (Finite 0))
             (CreatorStudio.handleAudioFileSelected (typedPrompt (lit "a fox"))
                (audioOfSize 2048))
             0 (typedPrompt (lit "a fox"))))
  = None.
Proof.
  exact (f_equal (fun x => CreatorStudio.audioFile (finalState x))
           (proj1 (audio_file_over_a_typed_prompt_asks_first (typedPrompt (lit "a fox"))
                     (audioOfSize 2048) (allSucceed (lit "aW1n") (Finite 0)) eq_refl))).
Defined.

(** A voice recording, once accepted, is read and then transcribed with
    the context captured when it was made, and the session is idle
    afterwards whatever happens, with no audio file armed and the
    history untouched.  When both calls succeed, the prompt becomes the
    very text the transcription call answered and the context is
    cleared; when one of them is rejected, that rejection's message is
    shown (the generic one when it carries none), no further call is
    made, and prompt and context are kept. *)
Theorem recording_outcome
    (s : CreatorStudio.State) (file : File) (captured : jsstring) (o : Oracle) :
  completion (exec o (CreatorStudio.runAction (CreatorStudio.useRecording file captured)) 0 s)
    = Resolved tt /\
  CreatorStudio.appState
    (finalState (exec o (CreatorStudio.runAction (CreatorStudio.useRecording file captured)) 0 s))
    = AppState.IDLE /\
  CreatorStudio.audioFile
    (finalState (exec o (CreatorStudio.runAction (CreatorStudio.useRecording file captured)) 0 s))
    = None /\
  CreatorStudio.imageHistory
    (finalState (exec o (CreatorStudio.runAction (CreatorStudio.useRecording file captured)) 0 s))
    = CreatorStudio.imageHistory s /\
  match respond o 0%nat (fileToBase64 (FileBlob file)) with
  | Resolved b =>
      match respond o 1%nat (transcribeAudioToPrompt b (fileType file) captured) with
      | Resolved transcript =>
          callsIssued
            (exec o (CreatorStudio.runAction (CreatorStudio.useRecording file captured)) 0 s)
          = [fileToBase64 (FileBlob file);
             transcribeAudioToPrompt b (fileType file) captured] /\
          CreatorStudio.error
            (finalState
               (exec o (CreatorStudio.runAction (CreatorStudio.useRecording file captured)) 0 s))
          = None /\
          CreatorStudio.textPrompt
            (finalState
               (exec o (CreatorStudio.runAction (CreatorStudio.useRecording file captured)) 0 s))
          = transcript /\
          CreatorStudio.audioContext
            (finalState
               (exec o (CreatorStudio.runAction (CreatorStudio.useRecording file captured)) 0 s))
          = []
      | Rejected err =>
          callsIssued
            (exec o (CreatorStudio.runAction (CreatorStudio.useRecording file captured)) 0 s)
          = [fileToBase64 (FileBlob file);
             transcribeAudioToPrompt b (fileType file) captured] /\
          CreatorStudio.error
            (finalState
               (exec o (CreatorStudio.runAction (CreatorStudio.useRecording file captured)) 0 s))
          = Some (messageOr err
                    (lit "An unknown error occurred during audio transcription.")) /\
          CreatorStudio.textPrompt
            (finalState
               (exec o (CreatorStudio.runAction (CreatorStudio.useRecording file captured)) 0 s))
          = CreatorStudio.textPrompt s /\
          CreatorStudio.audioContext
            (finalState
               (exec o (CreatorStudio.runAction (CreatorStudio.useRecording file captured)) 0 s))
          = CreatorStudio.audioContext s
      end
  | Rejected err =>
      callsIssued
        (exec o (CreatorStudio.runAction (CreatorStudio.useRecording file captured)) 0 s)
      = [fileToBase64 (FileBlob file)] /\
      CreatorStudio.error
        (finalState
           (exec o (CreatorStudio.runAction (CreatorStudio.useRecording file captured)) 0 s))
      = Some (messageOr err
                (lit "An unknown error occurred during audio transcription.")) /\
      CreatorStudio.textPrompt
        (finalState
           (exec o (CreatorStudio.runAction (CreatorStudio.useRecording file captured)) 0 s))
      = CreatorStudio.textPrompt s /\
      CreatorStudio.audioContext
        (finalState
           (exec o (CreatorStudio.runAction (CreatorStudio.useRecording file captured)) 0 s))
      = CreatorStudio.audioContext s
  end.
Proof.
  cbn.
  destruct (respond o 0%nat (fileToBase64 (FileBlob file))) as [b|err]; cbn.
  - destruct (respond o 1%nat _) as [t|err]; cbn; by repeat split.
  - by repeat split.
Qed.

(** The upload path end to end, for a session without typed prompt: a
    file of at most 20 MB (the bound included) picked in [AudioInput]
    becomes the armed audio source, its name is shown and any earlier
    error is cleared; a larger one is refused with an error and arms
    nothing.  No call is issued either way. *)
Theorem picked_file_arms_the_audio_source
    (r : CreatorStudio.State) (current : jsstring) (file : File) (o : Oracle) :
  trim (CreatorStudio.textPrompt r) = [] ->
  callsIssued
    (exec o (deliver r (AudioInput.propCalls
                          (AudioInput.handleFileChange current (Some file)))) 0 r) = [] /\
  if fileSize file <=? MAX_FILE_SIZE then
    AudioInput.fileName (AudioInput.handleFileChange current (Some file)) = name file /\
    CreatorStudio.audioFile
      (finalState
         (exec o (deliver r (AudioInput.propCalls
                               (AudioInput.handleFileChange current (Some file)))) 0 r))
    = Some file /\
    CreatorStudio.error
      (finalState
         (exec o (deliver r (AudioInput.propCalls
                               (AudioInput.handleFileChange current (Some file)))) 0 r))
    = None
  else
    AudioInput.inputReset (AudioInput.handleFileChange current (Some file)) = true /\
    CreatorStudio.audioFile
      (finalState
         (exec o (deliver r (AudioInput.propCalls
                               (AudioInput.handleFileChange current (Some file)))) 0 r))
    = CreatorStudio.audioFile r /\
    CreatorStudio.error
      (finalState
         (exec o (deliver r (AudioInput.propCalls
                               (AudioInput.handleFileChange current (Some file)))) 0 r))
    = Some (AudioInput.tooLarge (lit "File") file).
Proof.
  intros Hp. unfold AudioInput.handleFileChange.
  rewrite N.ltb_antisym. destruct (fileSize file <=? MAX_FILE_SIZE); cbn.
  - unfold CreatorStudio.handleAudioFileSelected,
      CreatorStudio.handleActionWithPromptWarning. rewrite Hp. cbn. done.
  - done.
Qed.

Lemma picked_file_arms_the_audio_source_witness :
  CreatorStudio.audioFile
    (finalState
       (exec (allSucceed (lit "aW1n") (Finite 0))
             (deliver CreatorStudio.initial
                (AudioInput.propCalls
                   (AudioInput.handleFileChange [] (Some (audioOfSize MAX_FILE_SIZE)))))
             0 CreatorStudio.initial))
  = Some (audioOfSize MAX_FILE_SIZE).
Proof.
  exact (proj1 (proj2 (proj2 (picked_file_arms_the_audio_source CreatorStudio.initial []
           (audioOfSize MAX_FILE_SIZE) (allSucceed (lit "aW1n") (Finite 0)) eq_refl)))).
Defined.
(** ** The live capture: its buttons and its target *)

Section DoubleQuotient.
Import Double.
Local Open Scope Q_scope.

(** An integer below [2^53] in magnitude is a double. *)
Lemma isDouble_integer (n : Z) : (Z.abs n < 2 ^ 53)%Z -> isDouble (inject_Z n).
Proof.
  intros Hn. exists n, 0%Z. split; [done|]. split; [lia|].
  change (twoTo 0) with 1. ring.
Qed.

(** So is an integer plus 31/32, when 32 times it stays below [2^53]. *)
Lemma isDouble_below_next (n : Z) :
  (Z.abs (32 * n + 31) < 2 ^ 53)%Z -> isDouble (inject_Z n + (31 # 32)).
Proof.
  intros Hn. exists (32 * n + 31)%Z, (-5)%Z. split; [done|]. split; [lia|].
  change (twoTo (-5)) with (1 / 32). rewrite inject_Z_plus, inject_Z_mult.
  change (inject_Z 32) with 32. change (inject_Z 31) with 31. field.
Qed.

(** A double is its own nearest double, and the only one. *)
Lemma nearest_exact x f : isDouble x -> nearest x f -> f == x.
Proof.
  intros Hx [_ Hf]. specialize (Hf x Hx).
  assert (E : x - x == 0) by ring. rewrite E in Hf.
  change (Qabs 0) with 0 in Hf.
  apply Qabs_Qle_condition in Hf. lra.
Qed.

(** Rounding does not cross a double on either side of the exact value. *)
Lemma nearest_above x f g : isDouble g -> g <= x -> nearest x f -> g <= f.
Proof.
  intros Hg Hle [_ Hf]. specialize (Hf g Hg).
  rewrite (Qabs_pos (x - g)) in Hf by lra.
  apply Qabs_Qle_condition in Hf. lra.
Qed.

Lemma nearest_below x f g : isDouble g -> x <= g -> nearest x f -> f <= g.
Proof.
  intros Hg Hle [_ Hf]. specialize (Hf g Hg).
  assert (E : Qabs (x - g) == g - x).
  { rewrite <- (Qabs_opp (x - g)). rewrite Qabs_pos by lra. ring. }
  rewrite E in Hf. apply Qabs_Qle_condition in Hf. lra.
Qed.

Lemma Qfloor_between (x : Q) (n : Z) :
  inject_Z n <= x -> x < inject_Z (n + 1) -> Qfloor x = n.
Proof.
  intros Hlo Hhi.
  pose proof (Qfloor_le x) as H1. pose proof (Qlt_floor x) as H2.
  assert (inject_Z n < inject_Z (Qfloor x + 1)) as H3 by lra.
  assert (inject_Z (Qfloor x) < inject_Z (n + 1)) as H4 by lra.
  rewrite <- Zlt_Qlt in H3, H4. lia.
Qed.

(** Up to [2^45] minutes the rounded quotient floors to the integer
    quotient. *)
Lemma floorOfQuotient_exact (d b t : Z) :
  (Z.abs d <= 2 ^ 45)%Z -> (10 <= b <= 30)%Z ->
  floorOfQuotient (inject_Z d) (inject_Z b) t -> t = ((d * 60) / b)%Z.
Proof.
  intros Hd Hb (product & quotient & Hp & Hq & ->).
  set (a := (d * 60)%Z). set (n := (a / b)%Z).
  assert (Ha : (Z.abs a < 2 ^ 51)%Z) by (subst a; lia).
  assert (Hn1 : (b * n <= a)%Z) by (apply Z.mul_div_le; lia).
  assert (Hn2 : (a < b * Z.succ n)%Z) by (apply Z.mul_succ_div_gt; lia).
  assert (Hn : (Z.abs n <= 2 ^ 51)%Z) by (subst n; nia).
  assert (Ep : product == inject_Z a).
  { assert (E : inject_Z d * 60 == inject_Z a)
      by (unfold a; rewrite inject_Z_mult; reflexivity).
    apply nearest_exact; [apply isDouble_integer; lia|].
    destruct Hp as [Hp1 Hp2]. split; [done|].
    intros g Hg. rewrite <- E. by apply Hp2. }
  assert (Hbq : 10 <= inject_Z b <= 30)
    by (split; [change 10 with (inject_Z 10) | change 30 with (inject_Z 30)];
        rewrite <- Zle_Qle; lia).
  set (q := inject_Z a / inject_Z b).
  assert (Hq' : nearest q quotient).
  { destruct Hq as [Hq1 Hq2]. split; [done|]. intros g Hg.
    assert (E : q == product / inject_Z b) by (unfold q; rewrite Ep; reflexivity).
    rewrite E. by apply Hq2. }
  assert (Hlo : inject_Z n <= q).
  { unfold q. apply Qle_shift_div_l; [lra|].
    rewrite <- inject_Z_mult, <- Zle_Qle. lia. }
  assert (Hhi : q <= inject_Z n + (31 # 32)).
  { unfold q. apply Qle_shift_div_r; [lra|].
    assert (inject_Z (a + 1) <= inject_Z (b * n + b)) as H
      by (rewrite <- Zle_Qle; lia).
    rewrite !inject_Z_plus, inject_Z_mult in H.
    change (inject_Z 1) with 1 in H.
    nra. }
  apply Qfloor_between.
  - apply (nearest_above q); [apply isDouble_integer; lia|done|done].
  - apply Qle_lt_trans with (inject_Z n + (31 # 32)).
    + apply (nearest_below q); [apply isDouble_below_next; lia|done|done].
    + rewrite inject_Z_plus. change (inject_Z 1) with 1. lra.
Qed.

Lemma nearest_self x : isDouble x -> nearest x x.
Proof.
  intros Hx. split; [done|]. intros g _.
  assert (E : x - x == 0) by ring. rewrite E.
  change (Qabs 0) with 0. apply Qabs_nonneg.
Qed.

Lemma twoTo_scaled_up (e j : Z) :
  (0 <= j)%Z -> (- j <= e)%Z ->
  twoTo e * inject_Z (2 ^ j) == inject_Z (2 ^ (e + j)).
Proof.
  intros Hj He. unfold twoTo. destruct (Z.leb_spec 0 e) as [H|H].
  - rewrite <- inject_Z_mult, <- Z.pow_add_r by lia. reflexivity.
  - assert (E : (2 ^ j = 2 ^ (e + j) * 2 ^ (- e))%Z)
      by (rewrite <- Z.pow_add_r by lia; f_equal; lia).
    rewrite E, inject_Z_mult.
    assert (0 < inject_Z (2 ^ (- e))).
    { change 0 with (inject_Z 0). rewrite <- Zlt_Qlt. apply Z.pow_pos_nonneg; lia. }
    field. lra.
Qed.

Lemma twoTo_succ (e : Z) : twoTo (e + 1) == 2 * twoTo e.
Proof.
  destruct (Z_lt_le_dec e 0) as [H|H].
  - pose proof (twoTo_scaled_up e (- e) ltac:(lia) ltac:(lia)) as H1.
    pose proof (twoTo_scaled_up (e + 1) (- e) ltac:(lia) ltac:(lia)) as H2.
    replace (e + - e)%Z with 0%Z in H1 by lia.
    replace (e + 1 + - e)%Z with 1%Z in H2 by lia.
    assert (0 < inject_Z (2 ^ (- e)))
      by (change 0 with (inject_Z 0); rewrite <- Zlt_Qlt; apply Z.pow_pos_nonneg; lia).
    change (inject_Z (2 ^ 0)) with 1 in H1. change (inject_Z (2 ^ 1)) with 2 in H2.
    apply (Qmult_inj_r _ _ (inject_Z (2 ^ (- e)))); [lra|].
    rewrite H2, <- Qmult_assoc, H1. ring.
  - unfold twoTo. destruct (Z.leb_spec 0 e); [|lia].
    destruct (Z.leb_spec 0 (e + 1)); [|lia].
    rewrite Z.pow_add_r by lia. rewrite inject_Z_mult.
    change (inject_Z (2 ^ 1)) with 2. ring.
Qed.

Lemma twoTo_scaled_down (e j : Z) :
  (0 <= j)%Z -> (e < - j)%Z ->
  twoTo e * inject_Z (2 ^ j) * inject_Z (2 ^ (- e - j)) == 1.
Proof.
  intros Hj He. unfold twoTo. destruct (Z.leb_spec 0 e) as [H|H]; [lia|].
  assert (E : (2 ^ (- e) = 2 ^ j * 2 ^ (- e - j))%Z)
    by (rewrite <- Z.pow_add_r by lia; f_equal; lia).
  rewrite E, inject_Z_mult.
  assert (0 < inject_Z (2 ^ j))
    by (change 0 with (inject_Z 0); rewrite <- Zlt_Qlt; apply Z.pow_pos_nonneg; lia).
  assert (0 < inject_Z (2 ^ (- e - j)))
    by (change 0 with (inject_Z 0); rewrite <- Zlt_Qlt; apply Z.pow_pos_nonneg; lia).
  field. split; lra.
Qed.

(** Rounding within a binade: where [x] scaled by [2^j] lies between
    [2^52] and [2^53], the nearest multiple of [2^-j] is a nearest
    double. *)
Lemma nearest_scaled (x : Q) (j M : Z) :
  (0 < j <= 1074)%Z -> (2 ^ 52 <= M <= 2 ^ 53)%Z ->
  inject_Z (2 ^ 52) <= x * inject_Z (2 ^ j) ->
  Qabs (x * inject_Z (2 ^ j) - inject_Z M) <= 1 # 2 ->
  nearest x (inject_Z M * twoTo (- j)).
Proof.
  intros Hj HM Hlo Hhalf. split.
  { destruct (Z.eq_dec M (2 ^ 53)%Z) as [->|Hne].
    - exists (2 ^ 52)%Z, (- j + 1)%Z. split; [lia|]. split; [lia|].
      rewrite twoTo_succ. change (2 ^ 53)%Z with (2 * 2 ^ 52)%Z.
      rewrite inject_Z_mult. change (inject_Z 2) with 2. ring.
    - exists M, (- j)%Z. repeat split; lia || reflexivity. }
  intros g (m & e & Hm & He & Hg).
  set (P := inject_Z (2 ^ j)) in *. set (y := x * P) in *.
  assert (HP : 0 < P)
    by (change 0 with (inject_Z 0); unfold P; rewrite <- Zlt_Qlt;
        apply Z.pow_pos_nonneg; lia).
  assert (Hu : twoTo (- j) * P == 1).
  { unfold P. rewrite twoTo_scaled_up by lia.
    replace (- j + j)%Z with 0%Z by lia. reflexivity. }
  assert (Hscale : forall z, Qabs (x - z) * P == Qabs (y - z * P)).
  { intros z. rewrite <- (Qabs_pos P) at 1 by lra.
    rewrite <- Qabs_Qmult. apply Qabs_wd. unfold y. ring. }
  apply (Qmult_le_r _ _ P HP). rewrite !Hscale.
  assert (E1 : inject_Z M * twoTo (- j) * P == inject_Z M)
    by (rewrite <- Qmult_assoc, Hu; ring).
  rewrite E1.
  apply Qabs_Qle_condition in Hhalf.
  assert (H52 : inject_Z (2 ^ 52) <= inject_Z M) by (rewrite <- Zle_Qle; lia).
  pose proof (Qle_Qabs (y - g * P)) as Ha1.
  pose proof (Qle_Qabs (- (y - g * P))) as Ha2. rewrite Qabs_opp in Ha2.
  apply Qabs_Qle_condition.
  destruct (Z_lt_le_dec e (- j)) as [Hlt|Hge].
  - (* a finer double lies below the binade *)
    pose proof (twoTo_scaled_down e j ltac:(lia) Hlt) as Hd. fold P in Hd.
    set (T := inject_Z (2 ^ (- e - j))) in *.
    assert (HT : 2 <= T).
    { change 2 with (inject_Z (2 ^ 1)). unfold T. rewrite <- Zle_Qle.
      apply Z.pow_le_mono_r; lia. }
    assert (Eh : g * P * T == inject_Z m).
    { rewrite Hg. transitivity (inject_Z m * (twoTo e * P * T)); [ring|].
      rewrite Hd. ring. }
    assert (Hm' : inject_Z m < inject_Z (2 ^ 53))
      by (rewrite <- Zlt_Qlt; lia).
    assert (Hh : g * P < inject_Z (2 ^ 52)).
    { apply Qnot_le_lt. intros Hc.
      assert (inject_Z (2 ^ 52) * 2 <= g * P * T).
      { apply Qle_trans with (inject_Z (2 ^ 52) * T).
        - apply Qmult_le_l; [reflexivity|done].
        - apply Qmult_le_r; [lra|done]. }
      change (inject_Z (2 ^ 52) * 2) with (inject_Z (2 ^ 52) * inject_Z 2) in H.
      rewrite <- inject_Z_mult in H. change (2 ^ 52 * 2)%Z with (2 ^ 53)%Z in H.
      lra. }
    destruct (Z.eq_dec M (2 ^ 52)%Z) as [->|Hne].
    + lra.
    + assert (inject_Z (2 ^ 52 + 1) <= inject_Z M) as H1 by (rewrite <- Zle_Qle; lia).
      rewrite inject_Z_plus in H1. change (inject_Z 1) with 1 in H1. lra.
  - (* a coarser double is a multiple of the unit *)
    assert (Eh : g * P == inject_Z (m * 2 ^ (e + j))).
    { rewrite Hg, <- Qmult_assoc. unfold P. rewrite twoTo_scaled_up by lia.
      rewrite inject_Z_mult. reflexivity. }
    rewrite Eh in *. set (K := (m * 2 ^ (e + j))%Z) in *.
    destruct (Z.eq_dec K M) as [->|Hne]; [lra|].
    destruct (Z_lt_le_dec K M) as [Hc|Hc].
    + assert (inject_Z (K + 1) <= inject_Z M) as H1 by (rewrite <- Zle_Qle; lia).
      rewrite inject_Z_plus in H1. change (inject_Z 1) with 1 in H1. lra.
    + assert (inject_Z (M + 1) <= inject_Z K) as H1 by (rewrite <- Zle_Qle; lia).
      rewrite inject_Z_plus in H1. change (inject_Z 1) with 1 in H1. lra.
Qed.

(** Two minutes at 25 seconds: 4.8 is no double, its nearest double
    floors to 4. *)
Lemma floorOfQuotient_inexact : floorOfQuotient (inject_Z 2) (inject_Z 25) 4.
Proof.
  exists (inject_Z 2 * 60), (inject_Z 5404319552844595 * twoTo (- 50)).
  split; [|split].
  - apply nearest_self. exists 120%Z, 0%Z. repeat split; lia || reflexivity.
  - apply (nearest_scaled _ 50 5404319552844595); [lia | lia | by vm_compute | by vm_compute].
  - reflexivity.
Qed.

Lemma isDouble_wd x x' : x == x' -> isDouble x -> isDouble x'.
Proof. intros E (m & e & Hm & He & Hx). exists m, e. by rewrite <- E. Qed.

Lemma nearest_wd x x' f : x == x' -> nearest x f -> nearest x' f.
Proof.
  intros E [Hf Hn]. split; [done|]. intros g Hg. rewrite <- E. by apply Hn.
Qed.

Lemma isDouble_opp x : isDouble x -> isDouble (- x).
Proof.
  intros (m & e & Hm & He & Hx). exists (- m)%Z, e.
  split; [lia|]. split; [done|]. rewrite Hx, inject_Z_opp. ring.
Qed.

Lemma nearest_opp x f : nearest x f -> nearest (- x) (- f).
Proof.
  intros [Hf Hn]. split; [by apply isDouble_opp|]. intros g Hg.
  assert (E1 : - x - - f == - (x - f)) by ring.
  assert (E2 : - x - g == - (x - - g)) by ring.
  rewrite E1, E2, !Qabs_opp. apply Hn. by apply isDouble_opp.
Qed.

(** The rounding of a positive quotient exists. *)
Lemma nearest_quotient_pos (a b : Z) :
  (0 < a < 2 ^ 51)%Z -> (10 <= b <= 30)%Z ->
  exists f, nearest (inject_Z a / inject_Z b) f.
Proof.
  intros Ha Hb.
  assert (exists j, (0 < j <= 1074)%Z /\
                    (2 ^ 52 * b <= a * 2 ^ j < 2 ^ 53 * b)%Z) as (j & Hj & Hbin).
  { pose proof (Z.log2_spec a ltac:(lia)) as La.
    pose proof (Z.log2_spec b ltac:(lia)) as Lb.
    pose proof (Z.log2_nonneg a) as La0.
    assert (La1 : (Z.log2 a < 51)%Z) by (apply Z.log2_lt_pow2; lia).
    assert (Lb1 : (3 <= Z.log2 b < 5)%Z).
    { split; [apply Z.log2_le_pow2; lia | apply Z.log2_lt_pow2; lia]. }
    set (j0 := (52 + Z.log2 b - Z.log2 a)%Z).
    assert (E : (2 ^ j0 * 2 ^ Z.log2 a = 2 ^ 52 * 2 ^ Z.log2 b)%Z).
    { rewrite <- !Z.pow_add_r by lia. f_equal. lia. }
    assert (E' : (2 ^ (j0 + 1) = 2 * 2 ^ j0)%Z).
    { rewrite Z.pow_add_r by lia. lia. }
    rewrite Z.pow_succ_r in La, Lb by lia.
    assert (HX : (0 < 2 ^ j0)%Z) by (apply Z.pow_pos_nonneg; lia).
    set (X := (2 ^ j0)%Z) in *. set (A := (2 ^ Z.log2 a)%Z) in *.
    set (B := (2 ^ Z.log2 b)%Z) in *.
    destruct (Z_le_gt_dec (2 ^ 52 * b) (a * X)) as [Hc|Hc].
    - exists j0. split; [lia|]. fold X. split; [done|]. nia.
    - exists (j0 + 1)%Z. split; [lia|]. rewrite E'. split; nia. }
  set (N := (a * 2 ^ j)%Z) in *.
  set (M := ((2 * N + b) / (2 * b))%Z).
  assert (HM1 : (2 * b * M <= 2 * N + b)%Z) by (apply Z.mul_div_le; lia).
  assert (HM2 : (2 * N + b < 2 * b * Z.succ M)%Z) by (apply Z.mul_succ_div_gt; lia).
  assert (HM : (2 ^ 52 <= M <= 2 ^ 53)%Z) by nia.
  assert (HbQ : 0 < inject_Z b)
    by (change 0 with (inject_Z 0); rewrite <- Zlt_Qlt; lia).
  assert (Ey : inject_Z a / inject_Z b * inject_Z (2 ^ j) == inject_Z N / inject_Z b).
  { unfold N. rewrite inject_Z_mult. field. lra. }
  exists (inject_Z M * twoTo (- j)). apply nearest_scaled; [done|done| |].
  - rewrite Ey. apply Qle_shift_div_l; [done|].
    rewrite <- inject_Z_mult, <- Zle_Qle. lia.
  - rewrite Ey. apply Qabs_Qle_condition.
    assert (H1 : inject_Z (2 * b * M) <= inject_Z (2 * N + b))
      by (rewrite <- Zle_Qle; lia).
    assert (H2 : inject_Z (2 * N + b) <= inject_Z (2 * b * M + 2 * b))
      by (rewrite <- Zle_Qle; lia).
    repeat (rewrite inject_Z_plus in H1 || rewrite inject_Z_mult in H1).
    repeat (rewrite inject_Z_plus in H2 || rewrite inject_Z_mult in H2).
    change (inject_Z 2) with 2 in *.
    split.
    + apply Qplus_le_l with (inject_Z M). ring_simplify.
      apply Qle_shift_div_l; [done|]. lra.
    + apply Qplus_le_l with (inject_Z M). ring_simplify.
      apply Qle_shift_div_r; [done|]. lra.
Qed.

Lemma nearest_quotient (a b : Z) :
  (Z.abs a < 2 ^ 51)%Z -> (10 <= b <= 30)%Z ->
  exists f, nearest (inject_Z a / inject_Z b) f.
Proof.
  intros Ha Hb.
  assert (HbQ : 0 < inject_Z b)
    by (change 0 with (inject_Z 0); rewrite <- Zlt_Qlt; lia).
  destruct (Z.lt_trichotomy a 0) as [Hneg|[->|Hpos]].
  - destruct (nearest_quotient_pos (- a) b) as [f Hf]; [lia|done|].
    exists (- f). apply nearest_opp in Hf.
    apply (nearest_wd (- (inject_Z (- a) / inject_Z b))); [|done].
    rewrite inject_Z_opp. field. lra.
  - exists 0. apply (nearest_wd 0); [field; lra|].
    apply nearest_self. exists 0%Z, 0%Z. repeat split; lia || reflexivity.
  - apply nearest_quotient_pos; [lia|done].
Qed.

(** Up to [2^45] minutes the source's expression evaluates, and to the
    integer quotient only. *)
Lemma floorOfQuotient_iff (d b t : Z) :
  (Z.abs d <= 2 ^ 45)%Z -> (10 <= b <= 30)%Z ->
  floorOfQuotient (inject_Z d) (inject_Z b) t <-> t = ((d * 60) / b)%Z.
Proof.
  intros Hd Hb. split; [by apply floorOfQuotient_exact|]. intros ->.
  destruct (nearest_quotient (d * 60) b) as [f Hf]; [lia|done|].
  assert (E : inject_Z d * 60 == inject_Z (d * 60))
    by (rewrite inject_Z_mult; reflexivity).
  assert (H : floorOfQuotient (inject_Z d) (inject_Z b) (Qfloor f)).
  { exists (inject_Z d * 60), f. split; [|split; [|done]].
    - apply nearest_self. apply (isDouble_wd (inject_Z (d * 60))); [by symmetry|].
      apply isDouble_integer. lia.
    - apply (nearest_wd (inject_Z (d * 60) / inject_Z b)); [|done].
      by rewrite E. }
  by rewrite <- (floorOfQuotient_exact d b _ Hd Hb H).
Qed.

End DoubleQuotient.

(** The number of images a capture aims at: the count typed by the
    user, or, for a duration of up to [2^45] minutes, the number of
    whole intervals that fit in it, which is what the source's
    expression on doubles evaluates to, and to nothing else; with an
    empty field (NaN) there is no target and it is never reached, for
    a target of zero or less it is reached before any image. *)
Theorem target_of_a_capture (c : LiveSynesthesia.Config) :
  (LiveSynesthesia.generationMode c = LiveSynesthesia.count ->
   LiveSynesthesia.totalImagesToGenerate c = LiveSynesthesia.imageCount c) /\
  (LiveSynesthesia.generationMode c = LiveSynesthesia.duration ->
   forall d, LiveSynesthesia.durationMinutes c = Some d ->
     (Z.abs d <= 2 ^ 45)%Z ->
     exists t,
       LiveSynesthesia.totalImagesToGenerate c = Some t /\
       (t * LiveSynesthesia.seconds (LiveSynesthesia.interval c) <= d * 60
        < (t + 1) * LiveSynesthesia.seconds (LiveSynesthesia.interval c))%Z /\
       forall t',
         Double.floorOfQuotient
           (inject_Z d) (inject_Z (LiveSynesthesia.seconds (LiveSynesthesia.interval c))) t'
         <-> t' = t) /\
  (forall images total,
     LiveSynesthesia.reached images total = true <->
     exists t, total = Some t /\ (t <= Z.of_nat (length images))%Z).
Proof.
  split; [|split].
  - intros Hm. unfold LiveSynesthesia.totalImagesToGenerate. by rewrite Hm.
  - intros Hm d Hd Hbound. unfold LiveSynesthesia.totalImagesToGenerate. rewrite Hm, Hd.
    eexists. split; [reflexivity|].
    assert (Hb : (10 <= LiveSynesthesia.seconds (LiveSynesthesia.interval c) <= 30)%Z)
      by (destruct (LiveSynesthesia.interval c); cbn; lia).
    split.
    + assert (Hpos : (0 < LiveSynesthesia.seconds (LiveSynesthesia.interval c))%Z) by lia.
      pose proof (Z.mul_div_le (d * 60) _ Hpos).
      pose proof (Z.mul_succ_div_gt (d * 60) _ Hpos).
      lia.
    + intros t'. by apply floorOfQuotient_iff.
  - intros images total. unfold LiveSynesthesia.reached.
    destruct total as [t|].
    + rewrite Z.leb_le. split; [intros H; by exists t | by intros (t' & [= <-] & H)].
    + split; [done | by intros (t' & [=] & _)].
Qed.

Lemma target_of_a_capture_witness :
  exists t,
    LiveSynesthesia.totalImagesToGenerate
      {| LiveSynesthesia.context := atHome;
         LiveSynesthesia.generationMode := LiveSynesthesia.duration;
         LiveSynesthesia.imageCount := Some 5%Z;
         LiveSynesthesia.durationMinutes := Some 2%Z;
         LiveSynesthesia.interval := LiveSynesthesia.every25 |} = Some t /\
    (t * 25 <= 2 * 60 < (t + 1) * 25)%Z /\
    forall t', Double.floorOfQuotient (inject_Z 2) (inject_Z 25) t' <-> t' = t.
Proof.
  exact (proj1 (proj2 (target_of_a_capture
           {| LiveSynesthesia.context := atHome;
              LiveSynesthesia.generationMode := LiveSynesthesia.duration;
              LiveSynesthesia.imageCount := Some 5%Z;
              LiveSynesthesia.durationMinutes := Some 2%Z;
              LiveSynesthesia.interval := LiveSynesthesia.every25 |}))
           eq_refl 2%Z eq_refl ltac:(by vm_compute)).
Defined.

Section LiveButtons.
Import LiveSynesthesia.

Lemma stopLiveRecording_stops s :
  intervalRef (stopLiveRecording s) = None /\
  mediaRecorderRef (stopLiveRecording s) <> Some recording /\
  config (stopLiveRecording s) = config s /\
  audioChunksRef (stopLiveRecording s) = audioChunksRef s /\
  isProcessingRef (stopLiveRecording s) = isProcessingRef s /\
  currentStatus (stopLiveRecording s) = currentStatus s.
Proof.
  unfold stopLiveRecording.
  destruct (mediaRecorderRef s) as [[]|] eqn:E; cbn; rewrite ?E;
    repeat split; congruence.
Qed.

Lemma stopLiveRecording_idem s :
  stopLiveRecording (stopLiveRecording s) = stopLiveRecording s.
Proof.
  unfold stopLiveRecording.
  destruct (mediaRecorderRef s) as [[]|] eqn:E; cbn; rewrite ?E; reflexivity.
Qed.

Lemma commit_S rounds now prev m :
  commit (S rounds) now prev m
  = let '(m1, calls1) := launch now (effects prev (state m)) m in
    let '(m2, calls2) := commit rounds now (state m) m1 in
    (m2, calls1 ++ calls2).
Proof. reflexivity. Qed.

(** Outside RECORDING and GENERATING the effects can only clear the
    timer of the state that was left. *)
Lemma commit_quiet rounds : forall now prev s ts,
  liveState s <> RECORDING -> liveState s <> GENERATING ->
  exists s2,
    commit rounds now prev {| state := s; tasks := ts |}
    = ({| state := s2; tasks := ts |}, []) /\
    (s2 = s \/ (liveState prev = RECORDING /\ s2 = stopLiveRecording s)).
Proof.
  induction rounds as [|rounds IH]; intros now prev s ts Hr Hg.
  - exists s. by split; [|left].
  - rewrite commit_S. cbn [state]. unfold effects.
    rewrite (bool_decide_eq_false_2 (liveState s = RECORDING)) by done.
    rewrite (bool_decide_eq_false_2 (liveState s = GENERATING)) by done.
    rewrite !andb_false_r. cbn [andb].
    destruct (negb (bool_decide (liveState prev = liveState s))
              && bool_decide (liveState prev = RECORDING)) eqn:Hclean.
    + erewrite launch_finished by reflexivity.
      apply andb_prop in Hclean as [_ Hprev%bool_decide_eq_true_1].
      destruct (stopLiveRecording_frame s) as (Hl & _).
      rewrite commit_idle by (rewrite ?Hl; by destruct (stopLiveRecording_frame s) as (? & ? & ? & ?)).
      exists (stopLiveRecording s). split; [done|]. by right.
    + erewrite launch_finished by reflexivity.
      rewrite commit_idle by done. exists s. by split; [|left].
Qed.

Lemma step_stop_empty now s ts :
  liveState s = RECORDING ->
  generatedImages s = [] ->
  step now clickStop {| state := s; tasks := ts |}
  = ({| state := stopLiveRecording (setLiveState CONFIG (stopLiveRecording s));
        tasks := ts |}, []).
Proof.
  intros Hrec Himg. unfold step. cbn [handle state].
  rewrite (bool_decide_eq_true_2 _ Hrec). unfold handleStop. rewrite Himg.
  cbn [length]. rewrite (bool_decide_eq_false_2 (0 < 0)%nat) by lia.
  erewrite launch_finished by reflexivity.
  rewrite commit_S. cbn [state]. unfold effects.
  cbn [liveState setLiveState]. rewrite Hrec.
  rewrite (bool_decide_eq_false_2 (RECORDING = CONFIG)) by discriminate.
  rewrite (bool_decide_eq_true_2 (RECORDING = RECORDING)) by reflexivity.
  rewrite (bool_decide_eq_false_2 (CONFIG = RECORDING)) by discriminate.
  rewrite (bool_decide_eq_false_2 (CONFIG = GENERATING)) by discriminate.
  cbn [negb andb orb]. rewrite ?andb_false_r.
  erewrite launch_finished by reflexivity.
  rewrite commit_idle; [done| |].
  - by destruct (stopLiveRecording_frame (setLiveState CONFIG (stopLiveRecording s)))
      as (-> & _).
  - by destruct (stopLiveRecording_frame (setLiveState CONFIG (stopLiveRecording s)))
      as (_ & _ & _ & ->).
Qed.

Lemma step_stop_images now s ts :
  liveState s = RECORDING ->
  generatedImages s <> [] ->
  exists k s',
    step now clickStop {| state := s; tasks := ts |}
    = ({| state := s';
          tasks := ts ++ [{| call := generateSummaryMarkdown
                                       ((fun img => prompt (image img)) <$> generatedImages s)
                                       (context (config s));
                             resume := k |}] |},
       [generateSummaryMarkdown ((fun img => prompt (image img)) <$> generatedImages s)
                                (context (config s))]) /\
    s' = setCurrentStatus (lit "Creating your story summary...")
           (stopLiveRecording (setLiveState GENERATING (stopLiveRecording s))).
Proof.
  intros Hrec Himg. unfold step. cbn [handle state].
  rewrite (bool_decide_eq_true_2 _ Hrec). unfold handleStop.
  rewrite (bool_decide_eq_true_2 (0 < length (generatedImages s))%nat)
    by (destruct (generatedImages s); [done | cbn; lia]).
  erewrite launch_finished by reflexivity.
  rewrite commit_S. cbn [state]. unfold effects.
  cbn [liveState setLiveState]. rewrite Hrec.
  rewrite (bool_decide_eq_false_2 (RECORDING = GENERATING)) by discriminate.
  rewrite (bool_decide_eq_true_2 (RECORDING = RECORDING)) by reflexivity.
  rewrite (bool_decide_eq_false_2 (GENERATING = RECORDING)) by discriminate.
  rewrite (bool_decide_eq_true_2 (GENERATING = GENERATING)) by reflexivity.
  cbn [negb andb orb]. rewrite ?andb_false_r.
  unfold generateSummary.
  cbn [render seenImages seenContext generatedImages config setLiveState].
  destruct (stopLiveRecording_frame s) as (_ & _ & _ & Hgi).
  destruct (stopLiveRecording_stops s) as (_ & _ & Hcfg & _).
  rewrite Hgi, Hcfg.
  rewrite (bool_decide_eq_false_2 (length (generatedImages s) = 0%nat))
    by (destruct (generatedImages s); [done | cbn; lia]).
  erewrite launch_waiting by reflexivity.
  rewrite commit_idle; [by eexists _, _| |].
  - cbn [liveState setCurrentStatus]. symmetry. apply stopLiveRecording_frame.
  - cbn [generatedImages setCurrentStatus]. symmetry. apply stopLiveRecording_frame.
Qed.

(** [startFlow] up to its await, with both ways its promise can go on. *)
Lemma startFlow_script :
  exists k,
    startFlow
    = Update (setError None)
        (Update (setGeneratedImages (fun _ => []))
           (Update (setLiveState RECORDING) (Await getUserMedia k))) /\
    (forall e, k (Rejected e)
               = Update (setError (Some microphoneDenied))
                   (Update (setLiveState ERROR) (Return tt))) /\
    (forall v, k (Resolved v)
               = Update (setMediaRecorderRef (Some recording))
                   (Update (setAudioChunksRef []) (Return tt))).
Proof. eexists. split; [reflexivity|]. split; intros ?; reflexivity. Qed.

Lemma startEnabled_liveState s :
  startEnabled s = true -> liveState s = CONFIG \/ liveState s = ERROR.
Proof.
  unfold startEnabled. intros H.
  repeat (apply andb_prop in H as [H _]).
  apply orb_prop in H as [H|H]; apply bool_decide_eq_true_1 in H; auto.
Qed.

Lemma step_start now s ts :
  startEnabled s = true ->
  reached [] (totalImagesToGenerate (config s)) = false ->
  exists k,
    step now clickStart {| state := s; tasks := ts |}
    = ({| state := setIntervalRef (Some (freshClosure (config s))) (started s);
          tasks := ts ++ [{| call := getUserMedia; resume := k |}] |},
       [getUserMedia]) /\
    (forall e, k (Rejected e)
               = Update (setError (Some microphoneDenied))
                   (Update (setLiveState ERROR) (Return tt))) /\
    (forall v, k (Resolved v)
               = Update (setMediaRecorderRef (Some recording))
                   (Update (setAudioChunksRef []) (Return tt))).
Proof.
  intros Hen Hnot. destruct startFlow_script as (k & Hk & Hrej & Hres).
  exists k. split; [|by split].
  unfold step. cbn [handle state]. rewrite Hen, Hk.
  erewrite launch_waiting by reflexivity.
  rewrite commit_S. cbn [state]. unfold effects.
  cbn [liveState generatedImages config setLiveState setGeneratedImages setError].
  rewrite Hnot.
  rewrite (bool_decide_eq_false_2 (liveState s = RECORDING))
    by (destruct (startEnabled_liveState s Hen) as [-> | ->]; discriminate).
  rewrite (bool_decide_eq_true_2 (RECORDING = RECORDING)) by reflexivity.
  rewrite (bool_decide_eq_false_2 (RECORDING = GENERATING)) by discriminate.
  cbn [negb andb orb]. rewrite ?andb_false_r.
  erewrite launch_finished by reflexivity.
  by rewrite commit_idle.
Qed.

Lemma step_start_reached now s ts :
  startEnabled s = true ->
  reached [] (totalImagesToGenerate (config s)) = true ->
  exists k s',
    step now clickStart {| state := s; tasks := ts |}
    = ({| state := s'; tasks := ts ++ [{| call := getUserMedia; resume := k |}] |},
       [getUserMedia]) /\
    liveState s' = FINISHED /\ generatedImages s' = [] /\ intervalRef s' = None /\
    error s' = None /\ summaryRef s' = summaryRef s.
Proof.
  intros Hen Hyes. destruct startFlow_script as (k & Hk & _).
  exists k. unfold step. cbn [handle state]. rewrite Hen, Hk.
  erewrite launch_waiting by reflexivity.
  assert (Hprev : bool_decide (liveState s = RECORDING) = false).
  { apply bool_decide_eq_false_2.
    destruct (startEnabled_liveState s Hen) as [-> | ->]; discriminate. }
  destruct (mediaRecorderRef s) as [[]|] eqn:E.
  all: rewrite commit_S; cbn [state]; unfold effects, generateSummary, stopLiveRecording.
  all: cbn -[commit launch]; rewrite ?E, ?Hyes, ?Hprev; cbn -[commit launch].
  all: erewrite launch_finished by reflexivity.
  all: rewrite commit_S; cbn [state]; unfold effects, generateSummary, stopLiveRecording.
  all: cbn -[commit launch]; rewrite ?E, ?Hyes, ?Hprev; cbn -[commit launch].
  all: erewrite launch_finished by reflexivity.
  all: rewrite commit_S; cbn [state]; unfold effects, generateSummary, stopLiveRecording.
  all: cbn -[commit launch]; rewrite ?E, ?Hyes, ?Hprev; cbn -[commit launch].
  all: erewrite launch_finished by reflexivity.
  all: cbn; eexists; split; [reflexivity|]; done.
Qed.

Lemma run_two now1 ev1 now2 ev2 m :
  run [(now1, ev1); (now2, ev2)] m
  = let '(m1, calls1) := step now1 ev1 m in
    let '(m2, calls2) := step now2 ev2 m1 in
    (m2, calls1 ++ calls2).
Proof.
  cbn [run]. destruct (step now1 ev1 m) as [m1 calls1].
  destruct (step now2 ev2 m1) as [m2 calls2]. by rewrite app_nil_r.
Qed.

Lemma step_microphone_denied now s ts k
    (answer : forall c : Call, Result (retType c)) e cl :
  (forall e, k (Rejected e)
             = Update (setError (Some microphoneDenied))
                 (Update (setLiveState ERROR) (Return tt))) ->
  answer getUserMedia = Rejected e ->
  step now (settles (length ts) answer)
       {| state := setIntervalRef (Some cl) (started s);
          tasks := ts ++ [{| call := getUserMedia; resume := k |}] |}
  = ({| state := stopLiveRecording
                   (setLiveState ERROR
                      (setError (Some microphoneDenied)
                         (setIntervalRef (Some cl) (started s))));
        tasks := ts |}, []).
Proof.
  intros Hrej Hans. unfold step. cbn [handle state tasks].
  rewrite list_lookup_middle by done. cbn [call resume].
  rewrite Hans, Hrej, delete_middle, app_nil_r.
  erewrite launch_finished by reflexivity.
  rewrite commit_S. cbn [state]. unfold effects.
  cbn -[commit launch stopLiveRecording].
  erewrite launch_finished by reflexivity.
  rewrite commit_idle; [done| |];
    symmetry; apply stopLiveRecording_frame.
Qed.

Lemma step_microphone_granted now s' ts k
    (answer : forall c : Call, Result (retType c)) :
  (forall v, k (Resolved v)
             = Update (setMediaRecorderRef (Some recording))
                 (Update (setAudioChunksRef []) (Return tt))) ->
  answer getUserMedia = Resolved tt ->
  step now (settles (length ts) answer)
       {| state := s'; tasks := ts ++ [{| call := getUserMedia; resume := k |}] |}
  = ({| state := setAudioChunksRef [] (setMediaRecorderRef (Some recording) s');
        tasks := ts |}, []).
Proof.
  intros Hres Hans. unfold step. cbn [handle state tasks].
  rewrite list_lookup_middle by done. cbn [call resume].
  rewrite Hans, Hres, delete_middle, app_nil_r.
  erewrite launch_finished by reflexivity.
  by rewrite commit_idle.
Qed.

Lemma granted_after_stop x v :
  liveState (setAudioChunksRef [] (setMediaRecorderRef (Some recording)
               (stopLiveRecording (setLiveState v x)))) = v /\
  mediaRecorderRef (setAudioChunksRef [] (setMediaRecorderRef (Some recording)
               (stopLiveRecording (setLiveState v x)))) = Some recording /\
  intervalRef (setAudioChunksRef [] (setMediaRecorderRef (Some recording)
               (stopLiveRecording (setLiveState v x)))) = None.
Proof.
  unfold stopLiveRecording. cbn. by destruct (mediaRecorderRef x) as [[]|].
Qed.

Lemma run_three now1 ev1 now2 ev2 now3 ev3 m :
  run [(now1, ev1); (now2, ev2); (now3, ev3)] m
  = let '(m1, calls1) := step now1 ev1 m in
    let '(m2, calls2) := step now2 ev2 m1 in
    let '(m3, calls3) := step now3 ev3 m2 in
    (m3, calls1 ++ calls2 ++ calls3).
Proof.
  cbn [run]. destruct (step now1 ev1 m) as [m1 calls1].
  destruct (step now2 ev2 m1) as [m2 calls2].
  destruct (step now3 ev3 m2) as [m3 calls3]. by rewrite app_nil_r.
Qed.
End LiveButtons.

(** Stop Flow, pressed while recording: the timer is cleared and the
    recorder no longer records; without any image the component goes
    back to the configuration form and issues no call, otherwise it
    enters GENERATING and requests one summary, for the prompts of the
    images in their order and the context of the session.  Promises
    already pending stay pending. *)
Theorem stop_button_outcome (m : LiveSynesthesia.Machine) (now : N) :
  LiveSynesthesia.liveState (LiveSynesthesia.state m) = LiveSynesthesia.RECORDING ->
  LiveSynesthesia.intervalRef (stateAfter now LiveSynesthesia.clickStop m) = None /\
  LiveSynesthesia.mediaRecorderRef (stateAfter now LiveSynesthesia.clickStop m)
    <> Some LiveSynesthesia.recording /\
  LiveSynesthesia.generatedImages (stateAfter now LiveSynesthesia.clickStop m)
    = LiveSynesthesia.generatedImages (LiveSynesthesia.state m) /\
  match LiveSynesthesia.generatedImages (LiveSynesthesia.state m) with
  | [] =>
      LiveSynesthesia.liveState (stateAfter now LiveSynesthesia.clickStop m)
        = LiveSynesthesia.CONFIG /\
      callsAfter now LiveSynesthesia.clickStop m = [] /\
      pendingAfter now LiveSynesthesia.clickStop m = pending m
  | images =>
      LiveSynesthesia.liveState (stateAfter now LiveSynesthesia.clickStop m)
        = LiveSynesthesia.GENERATING /\
      callsAfter now LiveSynesthesia.clickStop m
        = [generateSummaryMarkdown (promptsOf images)
             (LiveSynesthesia.context (LiveSynesthesia.config (LiveSynesthesia.state m)))] /\
      pendingAfter now LiveSynesthesia.clickStop m
        = pending m
          ++ [generateSummaryMarkdown (promptsOf images)
                (LiveSynesthesia.context (LiveSynesthesia.config (LiveSynesthesia.state m)))]
  end.
Proof.
  destruct m as [s ts]. cbn [LiveSynesthesia.state]. intros Hrec.
  unfold stateAfter, callsAfter, pendingAfter, pending.
  destruct (LiveSynesthesia.generatedImages s) as [|img images] eqn:Himg.
  - rewrite (step_stop_empty now s ts Hrec Himg).
    cbn [fst snd LiveSynesthesia.state LiveSynesthesia.tasks].
    destruct (stopLiveRecording_stops
                (LiveSynesthesia.setLiveState LiveSynesthesia.CONFIG
                   (LiveSynesthesia.stopLiveRecording s))) as (Hi & Hm & _).
    destruct (stopLiveRecording_frame
                (LiveSynesthesia.setLiveState LiveSynesthesia.CONFIG
                   (LiveSynesthesia.stopLiveRecording s))) as (Hl & _ & _ & Hg).
    destruct (stopLiveRecording_frame s) as (_ & _ & _ & Hg').
    rewrite Hg, Hl. cbn [LiveSynesthesia.generatedImages LiveSynesthesia.liveState
                          LiveSynesthesia.setLiveState].
    rewrite Hg', Himg. done.
  - destruct (step_stop_images now s ts Hrec) as (k & s' & Hstep & ->);
      [by rewrite Himg|].
    rewrite Hstep. cbn [fst snd LiveSynesthesia.state LiveSynesthesia.tasks].
    rewrite fmap_app. cbn [fmap list_fmap LiveSynesthesia.call].
    cbn [LiveSynesthesia.intervalRef LiveSynesthesia.mediaRecorderRef
         LiveSynesthesia.generatedImages LiveSynesthesia.liveState
         LiveSynesthesia.setCurrentStatus].
    destruct (stopLiveRecording_stops
                (LiveSynesthesia.setLiveState LiveSynesthesia.GENERATING
                   (LiveSynesthesia.stopLiveRecording s))) as (Hi & Hm & _).
    destruct (stopLiveRecording_frame
                (LiveSynesthesia.setLiveState LiveSynesthesia.GENERATING
                   (LiveSynesthesia.stopLiveRecording s))) as (Hl & _ & _ & Hg).
    destruct (stopLiveRecording_frame s) as (_ & _ & _ & Hg').
    rewrite Hg, Hl. cbn [LiveSynesthesia.generatedImages LiveSynesthesia.liveState
                          LiveSynesthesia.setLiveState].
    rewrite Hg', Himg. done.
Qed.

Lemma stop_button_outcome_witness :
  LiveSynesthesia.liveState
    (stateAfter 8 LiveSynesthesia.clickStop (machineAfter oneImageCaptured))
    = LiveSynesthesia.GENERATING /\
  callsAfter 8 LiveSynesthesia.clickStop (machineAfter oneImageCaptured)
    = [generateSummaryMarkdown [lit "a quiet room"] atHome].
Proof.
  pose proof (stop_button_outcome (machineAfter oneImageCaptured) 8 eq_refl)
    as (_ & _ & _ & H).
  exact (conj (proj1 H) (proj1 (proj2 H))).
Defined.

(** Start the Flow: the images and the error of an earlier session are
    cleared and the microphone is requested.  With a target above zero
    (or none) the capture is RECORDING at once, before the microphone
    answers, and its timer runs with a callback that sees no image; the
    buffer, the recorder and the in-flight flag are left as they were.
    With a target of zero or less the capture is FINISHED at once,
    without timer, image or summary request. *)
Theorem start_button_outcome (m : LiveSynesthesia.Machine) (now : N) :
  LiveSynesthesia.startEnabled (LiveSynesthesia.state m) = true ->
  callsAfter now LiveSynesthesia.clickStart m = [getUserMedia] /\
  pendingAfter now LiveSynesthesia.clickStart m = pending m ++ [getUserMedia] /\
  LiveSynesthesia.generatedImages (stateAfter now LiveSynesthesia.clickStart m) = [] /\
  LiveSynesthesia.error (stateAfter now LiveSynesthesia.clickStart m) = None /\
  if LiveSynesthesia.reached []
       (LiveSynesthesia.totalImagesToGenerate
          (LiveSynesthesia.config (LiveSynesthesia.state m)))
  then
    LiveSynesthesia.liveState (stateAfter now LiveSynesthesia.clickStart m)
      = LiveSynesthesia.FINISHED /\
    LiveSynesthesia.intervalRef (stateAfter now LiveSynesthesia.clickStart m) = None
  else
    LiveSynesthesia.liveState (stateAfter now LiveSynesthesia.clickStart m)
      = LiveSynesthesia.RECORDING /\
    LiveSynesthesia.intervalRef (stateAfter now LiveSynesthesia.clickStart m)
      = Some (freshClosure (LiveSynesthesia.config (LiveSynesthesia.state m))) /\
    LiveSynesthesia.mediaRecorderRef (stateAfter now LiveSynesthesia.clickStart m)
      = LiveSynesthesia.mediaRecorderRef (LiveSynesthesia.state m) /\
    LiveSynesthesia.audioChunksRef (stateAfter now LiveSynesthesia.clickStart m)
      = LiveSynesthesia.audioChunksRef (LiveSynesthesia.state m) /\
    LiveSynesthesia.isProcessingRef (stateAfter now LiveSynesthesia.clickStart m)
      = LiveSynesthesia.isProcessingRef (LiveSynesthesia.state m).
Proof.
  destruct m as [s ts]. cbn [LiveSynesthesia.state]. intros Hen.
  unfold stateAfter, callsAfter, pendingAfter, pending.
  destruct (LiveSynesthesia.reached [] _) eqn:Hr.
  - destruct (step_start_reached now s ts Hen Hr)
      as (k & s' & Hstep & Hl & Hg & Hi & He & _).
    rewrite Hstep. cbn [fst snd LiveSynesthesia.state LiveSynesthesia.tasks].
    rewrite fmap_app. done.
  - destruct (step_start now s ts Hen Hr) as (k & Hstep & _).
    rewrite Hstep. cbn [fst snd LiveSynesthesia.state LiveSynesthesia.tasks].
    rewrite fmap_app. done.
Qed.

Lemma start_button_outcome_witness :
  LiveSynesthesia.liveState
    (stateAfter 1 LiveSynesthesia.clickStart (LiveSynesthesia.mounted fiveImages))
    = LiveSynesthesia.RECORDING /\
  LiveSynesthesia.intervalRef
    (stateAfter 1 LiveSynesthesia.clickStart (LiveSynesthesia.mounted fiveImages))
    = Some (freshClosure fiveImages).
Proof.
  pose proof (start_button_outcome (LiveSynesthesia.mounted fiveImages) 1 eq_refl)
    as (_ & _ & _ & _ & H).
  exact (conj (proj1 H) (proj1 (proj2 H))).
Defined.

(** The answer to the microphone request of a capture just started.  A
    refusal ends the capture: ERROR with the microphone message, the
    timer cleared, no call issued.  A grant starts the recorder with an
    empty buffer and leaves the capture RECORDING with its timer. *)
Theorem microphone_answer_outcome
    (m : LiveSynesthesia.Machine) (now1 now2 : N)
    (answer : forall c : Call, Result (retType c)) :
  LiveSynesthesia.startEnabled (LiveSynesthesia.state m) = true ->
  LiveSynesthesia.reached []
    (LiveSynesthesia.totalImagesToGenerate
       (LiveSynesthesia.config (LiveSynesthesia.state m))) = false ->
  snd (LiveSynesthesia.run
         [(now1, LiveSynesthesia.clickStart);
          (now2, LiveSynesthesia.settles (length (LiveSynesthesia.tasks m)) answer)] m)
    = [getUserMedia] /\
  pending (fst (LiveSynesthesia.run
                  [(now1, LiveSynesthesia.clickStart);
                   (now2, LiveSynesthesia.settles (length (LiveSynesthesia.tasks m)) answer)]
                  m))
    = pending m /\
  match answer getUserMedia with
  | Rejected _ =>
      LiveSynesthesia.liveState
        (LiveSynesthesia.state
           (fst (LiveSynesthesia.run
                   [(now1, LiveSynesthesia.clickStart);
                    (now2, LiveSynesthesia.settles (length (LiveSynesthesia.tasks m)) answer)]
                   m)))
        = LiveSynesthesia.ERROR /\
      LiveSynesthesia.error
        (LiveSynesthesia.state
           (fst (LiveSynesthesia.run
                   [(now1, LiveSynesthesia.clickStart);
                    (now2, LiveSynesthesia.settles (length (LiveSynesthesia.tasks m)) answer)]
                   m)))
        = Some microphoneDenied /\
      LiveSynesthesia.intervalRef
        (LiveSynesthesia.state
           (fst (LiveSynesthesia.run
                   [(now1, LiveSynesthesia.clickStart);
                    (now2, LiveSynesthesia.settles (length (LiveSynesthesia.tasks m)) answer)]
                   m)))
        = None
  | Resolved _ =>
      LiveSynesthesia.liveState
        (LiveSynesthesia.state
           (fst (LiveSynesthesia.run
                   [(now1, LiveSynesthesia.clickStart);
                    (now2, LiveSynesthesia.settles (length (LiveSynesthesia.tasks m)) answer)]
                   m)))
        = LiveSynesthesia.RECORDING /\
      LiveSynesthesia.mediaRecorderRef
        (LiveSynesthesia.state
           (fst (LiveSynesthesia.run
                   [(now1, LiveSynesthesia.clickStart);
                    (now2, LiveSynesthesia.settles (length (LiveSynesthesia.tasks m)) answer)]
                   m)))
        = Some LiveSynesthesia.recording /\
      LiveSynesthesia.audioChunksRef
        (LiveSynesthesia.state
           (fst (LiveSynesthesia.run
                   [(now1, LiveSynesthesia.clickStart);
                    (now2, LiveSynesthesia.settles (length (LiveSynesthesia.tasks m)) answer)]
                   m)))
        = [] /\
      LiveSynesthesia.intervalRef
        (LiveSynesthesia.state
           (fst (LiveSynesthesia.run
                   [(now1, LiveSynesthesia.clickStart);
                    (now2, LiveSynesthesia.settles (length (LiveSynesthesia.tasks m)) answer)]
                   m)))
        = Some (freshClosure (LiveSynesthesia.config (LiveSynesthesia.state m)))
  end.
Proof.
  destruct m as [s ts]. cbn [LiveSynesthesia.state LiveSynesthesia.tasks].
  intros Hen Hr. rewrite run_two.
  destruct (step_start now1 s ts Hen Hr) as (k & Hstep & Hrej & Hres).
  rewrite Hstep. unfold pending.
  destruct (answer getUserMedia) as [[]|e] eqn:Hans.
  - rewrite (step_microphone_granted now2 _ ts k answer Hres Hans).
    cbn. done.
  - rewrite (step_microphone_denied now2 s ts k answer e _ Hrej Hans).
    cbn [fst snd LiveSynesthesia.state LiveSynesthesia.tasks app].
    match goal with
    | |- context [LiveSynesthesia.stopLiveRecording ?x] =>
        destruct (stopLiveRecording_stops x) as (Hi & _);
        destruct (stopLiveRecording_frame x) as (Hl & He & _)
    end.
    rewrite Hi, Hl, He. done.
Qed.

Lemma microphone_answer_outcome_witness :
  LiveSynesthesia.liveState
    (LiveSynesthesia.state
       (fst (LiveSynesthesia.run
               [(1, LiveSynesthesia.clickStart);
                (2, LiveSynesthesia.settles 0 (rejects "Permission denied"))]
               (LiveSynesthesia.mounted fiveImages))))
    = LiveSynesthesia.ERROR /\
  LiveSynesthesia.error
    (LiveSynesthesia.state
       (fst (LiveSynesthesia.run
               [(1, LiveSynesthesia.clickStart);
                (2, LiveSynesthesia.settles 0 (rejects "Permission denied"))]
               (LiveSynesthesia.mounted fiveImages))))
    = Some microphoneDenied.
Proof.
  pose proof (microphone_answer_outcome (LiveSynesthesia.mounted fiveImages) 1 2
                (rejects "Permission denied") eq_refl eq_refl)
    as (_ & _ & H).
  exact (conj (proj1 H) (proj1 (proj2 H))).
Defined.

(** A tick that finds less than 1 KB of audio buffered throws it away:
    the buffer is emptied, nothing else changes and no call is issued,
    so that audio is not part of any later image. *)
Theorem short_audio_is_dropped
    (m : LiveSynesthesia.Machine) (now : N) (cl : LiveSynesthesia.Closure) :
  LiveSynesthesia.isProcessingRef (LiveSynesthesia.state m) = false ->
  LiveSynesthesia.intervalRef (LiveSynesthesia.state m) = Some cl ->
  LiveSynesthesia.audioChunksRef (LiveSynesthesia.state m) <> [] ->
  size (tickBlob (LiveSynesthesia.state m)) < 1024 ->
  LiveSynesthesia.step now LiveSynesthesia.timerFires m
  = ({| LiveSynesthesia.state :=
          LiveSynesthesia.setAudioChunksRef [] (LiveSynesthesia.state m);
        LiveSynesthesia.tasks := LiveSynesthesia.tasks m |}, []).
Proof.
  destruct m as [s ts]. cbn [LiveSynesthesia.state LiveSynesthesia.tasks].
  apply step_discards.
Qed.

Lemma short_audio_is_dropped_witness :
  LiveSynesthesia.audioChunksRef
    (LiveSynesthesia.state (machineAfter shortAudioBuffered))
    = [RecordedChunk 0 100 (lit "audio/webm")] /\
  LiveSynesthesia.audioChunksRef
    (stateAfter 4 LiveSynesthesia.timerFires (machineAfter shortAudioBuffered)) = [] /\
  callsAfter 4 LiveSynesthesia.timerFires (machineAfter shortAudioBuffered) = [].
Proof.
  split; [reflexivity|].
  pose proof (short_audio_is_dropped (machineAfter shortAudioBuffered) 4
                (freshClosure fiveImages) eq_refl eq_refl
                ltac:(vm_compute; discriminate) eq_refl) as H.
  unfold stateAfter, callsAfter. rewrite H. split; reflexivity.
Defined.

(** Stop Flow pressed before the microphone request is answered does not
    withdraw the request: when the microphone is then granted, the
    recorder is started although the component is back on the
    configuration form, with no timer to read what it records. *)
Theorem late_microphone_grant_starts_the_recorder
    (m : LiveSynesthesia.Machine) (now1 now2 now3 : N)
    (answer : forall c : Call, Result (retType c)) :
  LiveSynesthesia.startEnabled (LiveSynesthesia.state m) = true ->
  LiveSynesthesia.reached []
    (LiveSynesthesia.totalImagesToGenerate
       (LiveSynesthesia.config (LiveSynesthesia.state m))) = false ->
  answer getUserMedia = Resolved tt ->
  snd (LiveSynesthesia.run
         [(now1, LiveSynesthesia.clickStart); (now2, LiveSynesthesia.clickStop);
          (now3, LiveSynesthesia.settles (length (LiveSynesthesia.tasks m)) answer)] m)
    = [getUserMedia] /\
  LiveSynesthesia.liveState
    (LiveSynesthesia.state
       (fst (LiveSynesthesia.run
               [(now1, LiveSynesthesia.clickStart); (now2, LiveSynesthesia.clickStop);
                (now3, LiveSynesthesia.settles (length (LiveSynesthesia.tasks m)) answer)]
               m)))
    = LiveSynesthesia.CONFIG /\
  LiveSynesthesia.mediaRecorderRef
    (LiveSynesthesia.state
       (fst (LiveSynesthesia.run
               [(now1, LiveSynesthesia.clickStart); (now2, LiveSynesthesia.clickStop);
                (now3, LiveSynesthesia.settles (length (LiveSynesthesia.tasks m)) answer)]
               m)))
    = Some LiveSynesthesia.recording /\
  LiveSynesthesia.intervalRef
    (LiveSynesthesia.state
       (fst (LiveSynesthesia.run
               [(now1, LiveSynesthesia.clickStart); (now2, LiveSynesthesia.clickStop);
                (now3, LiveSynesthesia.settles (length (LiveSynesthesia.tasks m)) answer)]
               m)))
    = None.
Proof.
  destruct m as [s ts]. cbn [LiveSynesthesia.state LiveSynesthesia.tasks].
  intros Hen Hr Hans.
  destruct (step_start now1 s ts Hen Hr) as (k & Hstep & _ & Hres).
  assert (Hrun :
    LiveSynesthesia.run
      [(now1, LiveSynesthesia.clickStart); (now2, LiveSynesthesia.clickStop);
       (now3, LiveSynesthesia.settles (length ts) answer)]
      {| LiveSynesthesia.state := s; LiveSynesthesia.tasks := ts |}
    = ({| LiveSynesthesia.state :=
            LiveSynesthesia.setAudioChunksRef []
              (LiveSynesthesia.setMediaRecorderRef (Some LiveSynesthesia.recording)
                 (LiveSynesthesia.stopLiveRecording
                    (LiveSynesthesia.setLiveState LiveSynesthesia.CONFIG
                       (LiveSynesthesia.stopLiveRecording
                          (LiveSynesthesia.setIntervalRef
                             (Some (freshClosure (LiveSynesthesia.config s)))
                             (started s))))));
          LiveSynesthesia.tasks := ts |}, [getUserMedia])).
  { rewrite run_three, Hstep. cbv beta iota.
    rewrite (step_stop_empty now2
               (LiveSynesthesia.setIntervalRef
                  (Some (freshClosure (LiveSynesthesia.config s))) (started s))
               _ eq_refl eq_refl).
    cbv beta iota.
    by rewrite (step_microphone_granted now3 _ ts k answer Hres Hans). }
  rewrite Hrun. cbn [fst snd LiveSynesthesia.state].
  split; [reflexivity|]. apply granted_after_stop.
Qed.

Lemma late_microphone_grant_starts_the_recorder_witness :
  LiveSynesthesia.liveState
    (LiveSynesthesia.state
       (fst (LiveSynesthesia.run
               [(1, LiveSynesthesia.clickStart); (2, LiveSynesthesia.clickStop);
                (3, LiveSynesthesia.settles 0 (resolves "stream"))]
               (LiveSynesthesia.mounted fiveImages))))
    = LiveSynesthesia.CONFIG /\
  LiveSynesthesia.mediaRecorderRef
    (LiveSynesthesia.state
       (fst (LiveSynesthesia.run
               [(1, LiveSynesthesia.clickStart); (2, LiveSynesthesia.clickStop);
                (3, LiveSynesthesia.settles 0 (resolves "stream"))]
               (LiveSynesthesia.mounted fiveImages))))
    = Some LiveSynesthesia.recording.
Proof.
  pose proof (late_microphone_grant_starts_the_recorder
                (LiveSynesthesia.mounted fiveImages) 1 2 3 (resolves "stream")
                eq_refl eq_refl eq_refl) as (_ & H1 & H2 & _).
  exact (conj H1 H2).
Defined.
(** ** The live capture: what every reachable state satisfies *)

Section LiveSteady.
Import LiveSynesthesia.

Lemma continues_refl s : continues s s.
Proof. repeat split; done. Qed.

Lemma continues_trans s1 s2 s3 :
  continues s1 s2 -> continues s2 s3 -> continues s1 s3.
Proof.
  intros (H1 & H2 & H3 & H4 & H5) (K1 & K2 & K3 & K4 & K5).
  repeat split; try congruence; auto.
  by etrans.
Qed.

Lemma continues_setLiveState v s : v <> RECORDING -> continues s (setLiveState v s).
Proof. intros Hv. repeat split; done. Qed.
Lemma continues_setError v s : continues s (setError v s).
Proof. repeat split; done. Qed.
Lemma continues_setCurrentStatus v s : continues s (setCurrentStatus v s).
Proof. repeat split; done. Qed.
Lemma continues_setAudioChunksRef v s : continues s (setAudioChunksRef v s).
Proof. repeat split; done. Qed.
Lemma continues_setMediaRecorderRef v s : continues s (setMediaRecorderRef v s).
Proof. repeat split; done. Qed.
Lemma continues_setIsProcessingRef v s : continues s (setIsProcessingRef v s).
Proof. repeat split; done. Qed.
Lemma continues_setSummaryRef v s : continues s (setSummaryRef v s).
Proof. repeat split; done. Qed.
Lemma continues_append img s :
  namedFirst img -> continues s (setGeneratedImages (fun prev => prev ++ [img]) s).
Proof.
  intros Hn. repeat split; try done.
  - by apply prefix_app_r.
  - intros H. cbn. apply Forall_app. split; [done|]. by constructor.
Qed.
Lemma continues_ondataavailable data s : continues s (ondataavailable data s).
Proof. unfold ondataavailable. destruct (0 <? size data); repeat split; done. Qed.
End LiveSteady.

#[local] Hint Resolve continues_setError continues_setCurrentStatus
  continues_setAudioChunksRef continues_setMediaRecorderRef
  continues_setIsProcessingRef continues_setSummaryRef : live.

Ltac quiet :=
  repeat first
    [ apply quiet_return
    | apply quiet_throw
    | apply quiet_update;
      [ intros ?;
        first [ solve [auto with live]
              | apply continues_setLiveState; discriminate
              | apply continues_append; reflexivity ] |]
    | apply quiet_now; intros ?
    | apply quiet_await; intros [?|?]; cbn ].

Section LiveQuiet.
Import LiveSynesthesia.

Lemma generateSummary_quiet cl : Quiet (generateSummary cl).
Proof. unfold generateSummary. case_bool_decide; cbn; quiet. Qed.

Lemma processAudioChunk_quiet c s : Quiet (processAudioChunk (freshClosure c) s).
Proof.
  unfold processAudioChunk.
  destruct (isProcessingRef s || _); [quiet|].
  cbn [bind set]. quiet. destruct (size _ <? 1024); cbn; quiet.
Qed.

Lemma microphone_quiet (r : Result unit) :
  Quiet (match r with
         | Resolved _ =>
             Update (setMediaRecorderRef (Some recording))
               (Update (setAudioChunksRef []) (Return tt))
         | Rejected _ =>
             Update (setError (Some microphoneDenied))
               (Update (setLiveState ERROR) (Return tt))
         end).
Proof. destruct r; quiet. Qed.

Lemma advance_quiet script :
  Quiet script ->
  forall now s,
    continues s (fst (advance now script s)) /\
    match snd (advance now script s) with
    | Finished _ => True
    | Waiting c k => QuietTask {| call := c; resume := k |}
    end.
Proof.
  induction 1 as [r|e|f k Hf Hk IH|k Hk IH|c k Hk IH]; intros now s; cbn.
  - split; [apply continues_refl | done].
  - split; [apply continues_refl | done].
  - destruct (IH now (f s)) as [H1 H2]. split; [|exact H2].
    eapply continues_trans; [apply Hf | exact H1].
  - apply IH.
  - split; [apply continues_refl | exact Hk].
Qed.

Lemma launch_quiet now script s ts :
  Quiet script -> Forall QuietTask ts ->
  continues s (state (fst (launch now script {| state := s; tasks := ts |}))) /\
  Forall QuietTask (tasks (fst (launch now script {| state := s; tasks := ts |}))).
Proof.
  intros Hq Hts. destruct (advance_quiet script Hq now s) as [Hc Ht].
  unfold launch. cbn [state tasks].
  destruct (advance now script s) as [s' [r|c k]]; cbn in *.
  - by split.
  - split; [done|]. apply Forall_app. split; [done|]. by constructor.
Qed.
End LiveQuiet.

Section LiveRounds.
Import LiveSynesthesia.

Lemma stopLiveRecording_fields s :
  intervalRef (stopLiveRecording s) = None /\
  liveState (stopLiveRecording s) = liveState s /\
  generatedImages (stopLiveRecording s) = generatedImages s /\
  config (stopLiveRecording s) = config s.
Proof.
  unfold stopLiveRecording. by destruct (mediaRecorderRef s) as [[]|].
Qed.

(** The synchronous part of the effects, for given outcomes of their
    dependency tests. *)
Lemma effects_shape now cur ts (c1 c2 c3 c4 : bool) cl cl' :
  Forall QuietTask ts ->
  exists s4 ts4,
    fst (launch now
           ((if c1 then set stopLiveRecording else Return tt) ;;
            (if c2 then set (setIntervalRef (Some cl)) else Return tt) ;;
            (if c3 then set stopLiveRecording ;; set (setLiveState GENERATING)
             else Return tt) ;;
            (if c4 then generateSummary cl' else Return tt))
           {| state := cur; tasks := ts |})
    = {| state := s4; tasks := ts4 |} /\
    Forall QuietTask ts4 /\
    generatedImages s4 = generatedImages cur /\
    config s4 = config cur /\
    intervalRef s4
    = (if c3 then None else if c2 then Some cl
       else if c1 then None else intervalRef cur) /\
    (liveState s4 = (if c3 then GENERATING else liveState cur) \/
     (c4 = true /\ liveState s4 = FINISHED)).
Proof.
  intros Hts.
  assert (Hnew : forall c k, QuietTask {| call := c; resume := k |} ->
                             Forall QuietTask (ts ++ [{| call := c; resume := k |}])).
  { intros c k Hk. apply Forall_app. split; [done|]. by constructor. }
  pose proof (stopLiveRecording_fields cur) as (S1 & S2 & S3 & S4).
  pose proof (stopLiveRecording_fields (setIntervalRef (Some cl) cur))
    as (T1 & T2 & T3 & T4).
  pose proof (stopLiveRecording_fields (setIntervalRef (Some cl) (stopLiveRecording cur)))
    as (U1 & U2 & U3 & U4).
  pose proof (stopLiveRecording_fields (stopLiveRecording cur)) as (V1 & V2 & V3 & V4).
  unfold generateSummary.
  destruct c1, c2, c3, c4; try case_bool_decide;
    unfold launch; cbn -[stopLiveRecording];
    eexists _, _; (split; [reflexivity|]);
    cbn -[stopLiveRecording];
    (split; [first [ exact Hts | apply Hnew; intros [?|?]; cbn; quiet ] |]);
    rewrite ?U3, ?U4, ?U2, ?U1, ?V3, ?V4, ?V2, ?V1, ?T3, ?T4, ?T2, ?T1, ?S3, ?S4, ?S2, ?S1;
    cbn -[stopLiveRecording];
    rewrite ?S3, ?S4, ?S2, ?S1;
    auto 6.
Qed.

Lemma effects_round now prev cur ts :
  pendingRender prev cur -> Forall QuietTask ts ->
  exists s2 ts2,
    fst (launch now (effects prev cur) {| state := cur; tasks := ts |})
    = {| state := s2; tasks := ts2 |} /\
    pendingRender cur s2 /\
    Forall QuietTask ts2 /\
    generatedImages s2 = generatedImages cur /\
    config s2 = config cur /\
    (liveState s2 = liveState cur \/
     (rounds (liveState s2) < rounds (liveState cur))%nat).
Proof.
  intros (Ht & Hfresh & Hnamed) Hts. unfold effects.
  match goal with
  | |- context [launch now
                  ((if ?c1 then _ else _) ;; (if ?c2 then set (setIntervalRef (Some ?cl)) else _) ;;
                   (if ?c3 then _ else _) ;; (if ?c4 then generateSummary ?cl' else _)) _] =>
      destruct (effects_shape now cur ts c1 c2 c3 c4 cl cl' Hts)
        as (s4 & ts4 & -> & Hq & Hg & Hcfg & Hi & Hl)
  end.
  exists s4, ts4. split; [done|].
  split; [|split; [done|]; split; [done|]; split; [done|]].
  - unfold pendingRender. rewrite Hg. split; [|split; [|done]].
    + rewrite Hi, Hcfg.
      destruct (intervalRef cur) as [cl|] eqn:Hic;
      destruct (negb (bool_decide (generatedImages prev = generatedImages cur)));
      destruct (reached _ _);
      repeat case_bool_decide; cbn in *;
      try (destruct Ht as [Ht1 Ht2]);
      try destruct Hl as [Hl|[? Hl]];
      try rewrite Hl; try congruence; try done.
      all: try (split; [congruence|]).
      all: try (unfold render, freshClosure; rewrite Hfresh by congruence; done).
      all: try (intros; congruence).
      all: try (exfalso; congruence).
      all: intros _; by apply Ht.
    + intros Hrec Hcur. exfalso. apply Hcur.
      destruct Hl as [Hl|[_ Hl]]; [|congruence].
      rewrite Hl in Hrec.
      match type of Hrec with
      | (if ?c then _ else _) = _ => destruct c; congruence
      end.
  - destruct Hl as [Hl|[Hc4 Hl]].
    + destruct ((_ || _) && bool_decide (liveState cur = RECORDING) && _) eqn:Hc3;
        [|by left].
      right. rewrite Hl.
      apply andb_prop in Hc3 as [Hc3 _]. apply andb_prop in Hc3 as [_ Hc3].
      apply bool_decide_eq_true_1 in Hc3. rewrite Hc3. cbn. lia.
    + right. rewrite Hl.
      apply andb_prop in Hc4 as [_ Hc4].
      apply bool_decide_eq_true_1 in Hc4. rewrite Hc4. cbn. lia.
Qed.

Lemma steady_when_rendered prev cur ts :
  pendingRender prev cur -> Forall QuietTask ts ->
  liveState prev = liveState cur ->
  steady {| state := cur; tasks := ts |}.
Proof.
  unfold pendingRender. intros (Ht & _ & Hn) Hts Hl.
  unfold steady. cbn [state tasks]. split; [|by split].
  unfold timerMatches. destruct (intervalRef cur) as [cl|].
  - split; [|apply Ht]. rewrite <- Hl. apply Ht.
  - intros Hrec. apply Ht; congruence.
Qed.

(** After the effects have settled, the state is steady.  Three rounds
    are enough from any state. *)
Lemma commit_steady n : forall now prev cur ts,
  pendingRender prev cur -> Forall QuietTask ts ->
  (liveState prev = liveState cur /\ generatedImages prev = generatedImages cur) \/
  (rounds (liveState cur) < n)%nat ->
  steady (fst (commit n now prev {| state := cur; tasks := ts |})) /\
  generatedImages (state (fst (commit n now prev {| state := cur; tasks := ts |})))
  = generatedImages cur.
Proof.
  induction n as [|n IH]; intros now prev cur ts Hp Hts Hsettled.
  - destruct Hsettled as [[Hl Hg]|?]; [|lia]. cbn. split; [|done].
    by eapply steady_when_rendered.
  - destruct Hsettled as [[Hl Hg]|Hlt].
    { rewrite commit_idle by done. cbn. split; [|done].
      by eapply steady_when_rendered. }
    rewrite commit_S. cbn [state].
    destruct (effects_round now prev cur ts Hp Hts)
      as (s2 & ts2 & Hlaunch & Hp2 & Hq2 & Hg2 & _ & Hl2).
    destruct (launch now (effects prev cur) {| state := cur; tasks := ts |})
      as [m1 calls1].
    cbn [fst] in Hlaunch. subst m1.
    specialize (IH now cur s2 ts2 Hp2 Hq2).
    destruct (commit n now cur {| state := s2; tasks := ts2 |}) as [m2 calls2].
    cbn [fst] in *. rewrite <- Hg2. apply IH.
    destruct Hl2 as [Hl2|Hl2]; [left; by split|].
    right. lia.
Qed.
End LiveRounds.

Section LiveSteadySteps.
Import LiveSynesthesia.

Lemma pending_of_continues s s1 :
  timerMatches s -> Forall namedFirst (generatedImages s) ->
  continues s s1 -> pendingRender s s1.
Proof.
  unfold timerMatches, pendingRender.
  intros Ht Hn (Hi & Hc & Hl & _ & Hnamed). rewrite Hi, Hc.
  split; [|split; [|auto]].
  - destruct (intervalRef s); [done|]. intros Hrec. by destruct Ht.
  - intros Hrec Hprev. by destruct Hprev; apply Hl.
Qed.

Lemma handle_pending now ev s ts :
  steady {| state := s; tasks := ts |} ->
  pendingRender s (state (fst (handle now ev {| state := s; tasks := ts |}))) /\
  Forall QuietTask (tasks (fst (handle now ev {| state := s; tasks := ts |}))) /\
  (beginsAnew ev = false ->
   generatedImages s
     `prefix_of` generatedImages
                   (state (fst (handle now ev {| state := s; tasks := ts |})))).
Proof.
  unfold steady. cbn [state tasks]. intros (Ht & Hn & Hts).
  assert (Hsame : pendingRender s s) by (by apply pending_of_continues, continues_refl).
  assert (Hquiet : forall script ts',
             Quiet script -> Forall QuietTask ts' ->
             pendingRender s
               (state (fst (launch now script {| state := s; tasks := ts' |}))) /\
             Forall QuietTask
               (tasks (fst (launch now script {| state := s; tasks := ts' |}))) /\
             generatedImages s
               `prefix_of` generatedImages
                 (state (fst (launch now script {| state := s; tasks := ts' |})))).
  { intros script ts' Hq Hts'.
    destruct (launch_quiet now script s ts' Hq Hts') as [Hc Hf].
    split; [by apply pending_of_continues|]. split; [done|]. apply Hc. }
  destruct ev as [| | | |data|i answer]; cbn [handle state tasks beginsAnew].
  - (* Start *)
    destruct (startEnabled s) eqn:Hen; [|by cbn].
    destruct startFlow_script as (k & Hk & Hrej & Hres). rewrite Hk.
    erewrite launch_waiting by reflexivity. cbn [fst state tasks].
    split; [|split; [|done]].
    + unfold pendingRender, timerMatches in *.
      cbn [intervalRef liveState generatedImages setLiveState setGeneratedImages setError].
      destruct (startEnabled_liveState s Hen) as [Hl|Hl];
        destruct (intervalRef s); rewrite Hl in *;
        (split; [first [by destruct Ht | by intros] | by split]).
    + apply Forall_app. split; [done|]. constructor; [|done].
      intros [v|e]; cbn [resume]; rewrite ?Hrej, ?Hres; quiet.
  - (* Stop *)
    case_bool_decide as Hrec; [|by cbn].
    unfold handleStop.
    destruct (stopLiveRecording_fields s) as (S1 & S2 & S3 & S4).
    case_bool_decide; erewrite launch_finished by reflexivity;
      cbn [fst state tasks];
      (split; [|split; [done|intros _; cbn -[stopLiveRecording]; by rewrite S3]]);
      unfold pendingRender; cbn -[stopLiveRecording]; rewrite S1, S3; by repeat split.
  - (* Reset *)
    case_bool_decide as Hfin; [|by cbn].
    erewrite launch_finished by reflexivity. cbn [fst state tasks].
    split; [|by split].
    unfold pendingRender, timerMatches in *. cbn.
    destruct (intervalRef s); rewrite Hfin in *;
      (split; [first [by destruct Ht | by intros] | by split]).
  - (* the timer fires *)
    destruct (intervalRef s) as [cl|] eqn:Hi; [|by cbn].
    unfold timerMatches in Ht. rewrite Hi in Ht. destruct Ht as [_ ->].
    destruct (Hquiet _ ts (processAudioChunk_quiet (config s) s) Hts) as (? & ? & ?).
    split; [done|]. split; [done|]. by intros _.
  - (* the recorder delivers audio *)
    destruct (mediaRecorderRef s); [|by cbn]. cbn [fst state tasks].
    pose proof (continues_ondataavailable data s) as Hc.
    split; [by apply pending_of_continues|]. split; [done|]. intros _. apply Hc.
  - (* a promise settles *)
    destruct (ts !! i) as [t|] eqn:Hti; [|by cbn].
    assert (Ht' : QuietTask t) by (by eapply Forall_lookup_1).
    destruct (Hquiet (resume t (answer (call t))) (delete i ts) (Ht' _)
                ltac:(by apply Forall_delete)) as (? & ? & ?).
    split; [done|]. split; [done|]. by intros _.
Qed.

Lemma rounds_below_three l : (rounds l < 3)%nat.
Proof. destruct l; cbn; lia. Qed.

Lemma step_steady now ev m :
  steady m ->
  steady (fst (step now ev m)) /\
  (beginsAnew ev = false ->
   generatedImages (state m) `prefix_of` generatedImages (state (fst (step now ev m)))).
Proof.
  destruct m as [s ts]. intros Hs.
  destruct (handle_pending now ev s ts Hs) as (Hp & Hq & Hgrow).
  unfold step.
  destruct (handle now ev {| state := s; tasks := ts |}) as [[s1 ts1] calls1].
  cbn [fst state tasks] in *.
  destruct (commit_steady 3 now s s1 ts1 Hp Hq
              ltac:(right; apply rounds_below_three)) as [Hsteady Himg].
  destruct (commit 3 now s {| state := s1; tasks := ts1 |}) as [m2 calls2].
  cbn [fst] in *. split; [done|]. by rewrite Himg.
Qed.

Lemma run_steady trace : forall m, steady m -> steady (fst (run trace m)).
Proof.
  induction trace as [|[now ev] rest IH]; intros m Hm; [done|].
  cbn [run]. destruct (step_steady now ev m Hm) as [Hs _].
  destruct (step now ev m) as [m1 calls1]. cbn [fst] in Hs.
  specialize (IH m1 Hs). destruct (run rest m1) as [m2 calls2]. done.
Qed.

Lemma reachable_steady m : reachable m -> steady m.
Proof.
  intros (c & trace & <-). apply run_steady.
  unfold steady, timerMatches. cbn. repeat split; try done; constructor.
Qed.
End LiveSteadySteps.

(** In every state the mounted component can reach, the interval timer
    is installed exactly while the capture is RECORDING, and its
    callback is the one created by the render that entered RECORDING:
    it sees the session's target and context and an empty image list,
    however many images have been generated since. *)
Theorem timer_runs_exactly_while_recording (m : LiveSynesthesia.Machine) :
  reachable m ->
  (is_Some (LiveSynesthesia.intervalRef (LiveSynesthesia.state m)) <->
   LiveSynesthesia.liveState (LiveSynesthesia.state m) = LiveSynesthesia.RECORDING) /\
  (forall cl,
     LiveSynesthesia.intervalRef (LiveSynesthesia.state m) = Some cl ->
     cl = freshClosure (LiveSynesthesia.config (LiveSynesthesia.state m))).
Proof.
  intros Hr. destruct (reachable_steady m Hr) as (Ht & _).
  unfold timerMatches in Ht.
  destruct (LiveSynesthesia.intervalRef (LiveSynesthesia.state m)) as [cl|].
  - destruct Ht as [Hl ->]. split; [by split|]. by intros ? [= <-].
  - split; [|done]. split; [by intros [? ?] | done].
Qed.

Lemma timer_runs_exactly_while_recording_witness :
  (is_Some (LiveSynesthesia.intervalRef
              (LiveSynesthesia.state (machineAfter oneImageCaptured))) <->
   LiveSynesthesia.liveState (LiveSynesthesia.state (machineAfter oneImageCaptured))
   = LiveSynesthesia.RECORDING) /\
  length (LiveSynesthesia.generatedImages
            (LiveSynesthesia.state (machineAfter oneImageCaptured))) = 1%nat /\
  LiveSynesthesia.intervalRef (LiveSynesthesia.state (machineAfter oneImageCaptured))
  = Some (freshClosure fiveImages).
Proof.
  split; [|split; reflexivity].
  exact (proj1 (timer_runs_exactly_while_recording (machineAfter oneImageCaptured)
                  (machineAfter_reachable oneImageCaptured))).
Defined.

(** In every state the mounted component can reach, each image of the
    capture carries the file name [image_1.jpeg]: the ordinal in the
    name is computed from the image list seen by the timer's callback,
    which is empty. *)
Theorem live_file_names_do_not_advance (m : LiveSynesthesia.Machine) :
  reachable m ->
  Forall namedFirst (LiveSynesthesia.generatedImages (LiveSynesthesia.state m)).
Proof. intros Hr. by destruct (reachable_steady m Hr) as (_ & Hn & _). Qed.

Lemma live_file_names_do_not_advance_witness :
  Forall namedFirst
    (LiveSynesthesia.generatedImages (LiveSynesthesia.state (machineAfter twoTicksProcessed)))
  /\ length (LiveSynesthesia.generatedImages
               (LiveSynesthesia.state (machineAfter twoTicksProcessed))) = 2%nat.
Proof.
  split; [|reflexivity].
  exact (live_file_names_do_not_advance (machineAfter twoTicksProcessed)
           (machineAfter_reachable twoTicksProcessed)).
Defined.

(** Between two presses of Start the Flow or Start New Flow, the images
    of a capture only grow: whatever else happens (a tick, audio from
    the recorder, a promise that settles, Stop Flow), the images present
    before the event are still there after it, in the same order, at
    the front of the list. *)
Theorem captured_images_only_grow
    (m : LiveSynesthesia.Machine) (now : N) (ev : LiveSynesthesia.Event) :
  reachable m ->
  beginsAnew ev = false ->
  LiveSynesthesia.generatedImages (LiveSynesthesia.state m)
    `prefix_of` LiveSynesthesia.generatedImages (stateAfter now ev m).
Proof.
  intros Hr Hev. by apply (step_steady now ev m (reachable_steady m Hr)).
Qed.

Lemma captured_images_only_grow_witness :
  LiveSynesthesia.generatedImages (LiveSynesthesia.state (machineAfter oneImageCaptured))
    `prefix_of` LiveSynesthesia.generatedImages
                  (stateAfter 8 LiveSynesthesia.clickStop (machineAfter oneImageCaptured)).
Proof.
  exact (captured_images_only_grow (machineAfter oneImageCaptured) 8
           LiveSynesthesia.clickStop (machineAfter_reachable oneImageCaptured) eq_refl).
Defined.
(** ** The storyboard: no call after a failure *)

Section FailFast.
Context {St R : Type}.
Variable o : Oracle.

Lemma stops_nil n (s : St) (r : Result R) : stopsAtFailure o n (s, r, []).
Proof. intros k c e Hk. done. Qed.

Lemma stops_rejected n (s : St) c e :
  respond o n c = Rejected e ->
  stopsAtFailure (R:=R) o n (s, Rejected e, [c]).
Proof.
  intros Hr k c' e' Hk Hrej. unfold callsIssued, completion in *. cbn [snd fst] in *.
  destruct k as [|k]; [|done]. cbn in Hk. injection Hk as <-.
  rewrite Nat.add_0_r in Hrej. rewrite Hr in Hrej. by injection Hrej as <-.
Qed.

Lemma stops_cons n (s : St) (r : Result R) c v calls :
  respond o n c = Resolved v ->
  stopsAtFailure o (S n) (s, r, calls) ->
  stopsAtFailure o n (s, r, c :: calls).
Proof.
  intros Hr Hrest k c' e Hk Hrej. unfold callsIssued, completion in *. cbn [snd fst] in *.
  destruct k as [|k].
  - cbn in Hk. injection Hk as <-. rewrite Nat.add_0_r, Hr in Hrej. done.
  - cbn in Hk. rewrite Nat.add_succ_r in Hrej.
    destruct (Hrest k c' e Hk Hrej) as [Hlen Hc]. cbn in *. by rewrite Hlen.
Qed.
End FailFast.

Lemma stops_app {St A B} (o : Oracle) n (s1 : St) (a : A) calls1
    (s2 : St) (r : Result B) calls2 :
  stopsAtFailure o n (s1, Resolved a, calls1) ->
  stopsAtFailure o (n + length calls1) (s2, r, calls2) ->
  stopsAtFailure o n (s2, r, calls1 ++ calls2).
Proof.
  intros H1 H2 k c e Hk Hrej. unfold callsIssued, completion in *. cbn [snd fst] in *.
  destruct (decide (k < length calls1)%nat) as [Hlt|Hge].
  - rewrite lookup_app_l in Hk by done.
    destruct (H1 k c e Hk Hrej) as [_ Hc]. done.
  - rewrite lookup_app_r in Hk by lia.
    replace (n + k)%nat with (n + length calls1 + (k - length calls1))%nat in Hrej by lia.
    destruct (H2 _ c e Hk Hrej) as [Hlen Hc]. cbn in *.
    rewrite length_app, Hlen. split; [lia | done].
Qed.

Section ScenesFailFast.
Import VisualStoryboard.
Variable o : Oracle.
Variable file : File.
Variable total : N.

Lemma generateScenes_stops (segments : list Blob) :
  forall (i : nat) (built : list StoryboardImage) (n : nat) (s : State),
    stopsAtFailure o n (exec o (generateScenes file total segments i built) n s).
Proof.
  induction segments as [|segment rest IH]; intros i built n s.
  - apply stops_nil.
  - cbn [generateScenes].
    rewrite callsIssued_bind_set, exec_bind_await.
    destruct (respond o n (fileToBase64 segment)) as [b64|e] eqn:H1;
      [|by apply stops_rejected].
    rewrite exec_bind_await.
    destruct (respond o (S n) _) as [p|e] eqn:H2.
    2:{ eapply stops_cons; [exact H1|]. by apply stops_rejected. }
    rewrite callsIssued_bind_set, exec_bind_await.
    destruct (respond o (S (S n)) _) as [img|e] eqn:H3.
    2:{ eapply stops_cons; [exact H1|]. eapply stops_cons; [exact H2|].
        by apply stops_rejected. }
    cbn [bind now exec]. rewrite callsIssued_bind_set.
    match goal with
    | |- context [exec o (generateScenes file total rest (S i) ?b) ?m ?st] =>
        pose proof (IH (S i) b m st) as Hrest;
        destruct (exec o (generateScenes file total rest (S i) b) m st) as [[s' r] calls]
    end.
    eapply stops_cons; [exact H1|]. eapply stops_cons; [exact H2|].
    eapply stops_cons; [exact H3|]. exact Hrest.
Qed.
End ScenesFailFast.

Section StoryboardFailFast.
Import VisualStoryboard.
Variable o : Oracle.
Variable file : File.

(** The [try] block of [processFile] after the probe. *)
Lemma processFile_body_stops (d : number) (s : State) :
  stopsAtFailure o 1
    (exec o
       (generateScenes file (numSegmentsFor d)
          (sliceSegments file (numSegmentsFor d)) 0 [] ;;
        set (setProgressMessage (lit "Generating story summary...")) ;;
        fullAudioBase64 <- await (fileToBase64 (FileBlob file)) ;;
        storySummary <-
          await (generateStorySummaryFromAudio fullAudioBase64 (fileType file)) ;;
        set (setSummary storySummary) ;;
        set (setProgressMessage []) ;;
        set (setStoryboardState FINISHED)) 1 s).
Proof.
  rewrite exec_bind.
  match goal with
  | |- context [exec o (generateScenes ?f ?t ?segs ?i ?b) ?m ?st] =>
      pose proof (generateScenes_stops o f t segs i b m st) as Hloop;
      destruct (exec o (generateScenes f t segs i b) m st) as [[s1 [[]|e]] calls]
  end; [|exact Hloop].
  rewrite callsIssued_bind_set, exec_bind_await.
  destruct (respond o (1 + length calls) (fileToBase64 (FileBlob file)))
    as [b64|e] eqn:H1.
  2:{ eapply stops_app; [exact Hloop|]. by apply stops_rejected. }
  rewrite exec_bind_await.
  match goal with
  | |- context [respond o ?k (generateStorySummaryFromAudio ?a ?b)] =>
      destruct (respond o k (generateStorySummaryFromAudio a b)) as [sm|e] eqn:H2
  end.
  - cbn. eapply stops_app; [exact Hloop|].
    eapply stops_cons; [exact H1|]. eapply stops_cons; [exact H2|]. apply stops_nil.
  - eapply stops_app; [exact Hloop|].
    eapply stops_cons; [exact H1|]. by apply stops_rejected.
Qed.
End StoryboardFailFast.

(** The storyboard never goes on after a failure and never retries:
    when a call of a run is rejected, it is the last call of the run,
    and the run ends in Error showing the message of that rejection (or
    the generic message when the rejection carries none). *)
Theorem storyboard_stops_at_the_first_failure
    (o : Oracle) (file : File) (s : VisualStoryboard.State)
    (k : nat) (c : Call) (e : thrown) :
  inRange file = true ->
  callsIssued (exec o (VisualStoryboard.processFile file) 0 s) !! k = Some c ->
  respond o k c = Rejected e ->
  length (callsIssued (exec o (VisualStoryboard.processFile file) 0 s)) = S k /\
  VisualStoryboard.storyboardState
    (finalState (exec o (VisualStoryboard.processFile file) 0 s))
  = VisualStoryboard.ERROR /\
  VisualStoryboard.error (finalState (exec o (VisualStoryboard.processFile file) 0 s))
  = Some (messageOr e (lit "An unknown error occurred during processing.")).
Proof.
  unfold inRange. intros [Hmin Hmax]%andb_prop.
  apply N.leb_le, N.ltb_ge in Hmin. apply N.leb_le, N.ltb_ge in Hmax.
  unfold VisualStoryboard.processFile. rewrite Hmin, Hmax.
  cbn [VisualStoryboard.resetState bind set exec tryCatch await].
  destruct (respond o 0%nat (getAudioDuration (FileBlob file))) as [d|e0] eqn:Hprobe.
  2:{ cbn. intros Hk Hrej. destruct k as [|k]; [|done]. cbn in Hk.
      injection Hk as <-. rewrite Hprobe in Hrej. by injection Hrej as <-. }
  cbn [bind]. rewrite exec_tryCatch.
  match goal with
  | |- context [exec o ?body 1 ?st] =>
      pose proof (processFile_body_stops o file d st) as Hbody;
      set (x := exec o body 1 st) in *;
      change (stopsAtFailure o 1 x) in Hbody;
      destruct x as [[s1 r] calls]
  end.
  destruct r as [[]|e1].
  - unfold callsIssued, finalState. cbn [snd fst]. intros Hk Hrej.
    destruct k as [|k']; cbn in Hk.
    + injection Hk as <-. rewrite Hprobe in Hrej. done.
    + destruct (Hbody k' c e Hk Hrej) as [_ Hc]. done.
  - cbn [exec set bind]. unfold callsIssued, finalState. cbn [snd fst].
    rewrite app_nil_r. intros Hk Hrej.
    destruct k as [|k']; cbn in Hk.
    + injection Hk as <-. rewrite Hprobe in Hrej. done.
    + destruct (Hbody k' c e Hk Hrej) as [Hlen Hc].
      unfold callsIssued, completion in *. cbn [snd fst] in *.
      injection Hc as ->. cbn. by rewrite Hlen.
Qed.

Lemma storyboard_stops_at_the_first_failure_witness :
  length (callsIssued (exec onlySummaryFails
            (VisualStoryboard.processFile (audioOfSize 2097152)) 0
            VisualStoryboard.initial)) = 12%nat /\
  VisualStoryboard.error
    (finalState (exec onlySummaryFails
       (VisualStoryboard.processFile (audioOfSize 2097152)) 0 VisualStoryboard.initial))
  = Some (lit "Failed to generate story summary.").
Proof.
  pose proof (storyboard_stops_at_the_first_failure onlySummaryFails
                (audioOfSize 2097152) VisualStoryboard.initial 11
                (generateStorySummaryFromAudio (lit "eA==") (lit "audio/mpeg"))
                (ErrorObject (lit "Failed to generate story summary."))
                eq_refl eq_refl eq_refl) as (H1 & _ & H3).
  exact (conj H1 H3).
Defined.
